(* ===== verification/_CoqProject ===== *)
-Q . S2P
Prelude.v
Host.v
QArrays.v
Descriptors.v
Factory.v
PhysicalProp.v
MappingProp.v
DerivativeProp.v
HostClass.v
Scenario.v
Links.v
Invariants.v
Pairs.v
Resolution.v
Fuel.v
Derivatives.v
Writes.v
Classes.v
ClassBody.v
Refinement.v
Roundtrip.v
Interleave.v
