(* ===== verification/Prelude.v ===== *)
(** * A verification development for SimPEG's physical-property descriptors

    The program: [src/SimPEG/Props.py].  It declares three kinds of
    attribute descriptors for the host classes of SimPEG (simulations,
    surveys, ...), each a subclass of [properties.Property] whose
    [get_property] builds the Python [property] (an [fget] and an
    [fset]) that the host class installs under the descriptor's name:

    - [Mapping] (lines 13-72): a slot holding a SimPEG map.  Its getter
      returns the stored map, or, when the bound physical property has a
      reciprocal whose own mapping slot holds a map [g], the map
      [Maps.ReciprocalMap() * g].  Its setter validates the value, stores
      it and clears the bound property, that property's reciprocal and
      the reciprocal's mapping ([clear_props]).
    - [PhysicalProperty] (lines 75-134): a slot holding a numpy array.
      Its getter resolves, in order: the stored value; [1 / stored value]
      of its reciprocal; [None] when neither a mapping nor a reciprocal
      is bound; [1 / getattr(reciprocal)] when only a reciprocal is bound;
      otherwise [getattr(mapping) * self.model].  Its setter validates,
      stores, and clears its own mapping, its reciprocal and the
      reciprocal's mapping ([clear_mappings]).
    - [Derivative] (lines 137-163): a read-only slot: [Utils.Zero()] unless
      the bound property has a mapping whose current value is a map [m],
      in which case [m.deriv(self.model)].
    - [Invertible] (lines 166-182) builds one linked triple (property,
      mapping, derivative); [Reciprocal] (lines 185-187) links two
      properties as each other's reciprocal; [BaseSimPEG] (lines 190-191)
      is the host base class.

    The descriptors are shared by all instances of a class; they hold only
    links to each other.  All per-instance state lives in the instance's
    backend dictionary, read and written by the host's [_get] and [_set]
    (the [properties] library, an external collaborator).

    ** Layout of the library

    - [Prelude] (this file): the [result] error monad with its notation
      [x <- c ;; k] in [py_scope], the [props] hint databases, the
      [simpl_result], [inv_result] and [decide_true] tactics, and lemmas
      on maps read with a default ([lookup_default], Python's
      [dict.get(k, None)]).
    - [Host]: what the descriptors use of the host class and of their
      collaborators, modelled from the specification: Python values
      ([Value]: [None], numpy arrays, SimPEG maps, [Utils.Zero()],
      derivative operators, other objects), the errors raised
      ([PyError]), the maps and arrays as a type class ([MapCapability]:
      elementwise [1.0 / x], [Maps.ReciprocalMap()], [map * map],
      [map * array], [map.deriv]) with two laws ([MapLaws]), the instance
      ([Host]: its backend dictionary, a [gmap string Value], and its
      model) with [_get] and [_set], the Python operators of the getters
      ([py_rdiv], [map_mul], [py_mul], [py_deriv]), Python's
      [property(fget, fset, doc)] objects ([PyProperty]), and the equivalence
      of instances that read the same ([host_equiv]) with its [Proper]
      instances.
    - [QArrays]: a concrete instance of the interface (arrays of
      rationals, identity, reciprocal, scaling and composed maps), for
      the witnesses.
    - [Descriptors]: the descriptor objects as records ([MappingD],
      [PhysD], [DerivD]) registered by attribute name in a class
      ([Registry]), and the well-formedness of a class ([wf_registry],
      decidable): every link resolves and the links point back.
    - [Factory]: the two setters that link a property and its mapping
      ([bind_mapping], [bind_prop]), [Invertible],
      [Reciprocal], and a class body as a list of statements run in
      order ([run_body]) in a class derived from [BaseSimPEG], the base
      class with no descriptors ([build_class]): [Invertible] triples, bare
      properties and mappings, [PhysicalProperty(help, mapping=m)],
      derivatives, [m.prop = p] and [Reciprocal].  A statement evaluates
      its names first ([NameError]); the setters assert the kind of
      their value ([AssertionError]); [Reciprocal] on a [Mapping] raises
      [AttributeError].  The class of the specification's scenario is
      [conductivity_class].
    - [MappingProp], [PhysicalProp], [DerivativeProp]: the modules
      [Mapping], [PhysicalProperty], [Derivative], one per class of the
      source: links, validation, clearing routine, [fget] and [fset],
      each a Rocq function of the instance, and [get_property], the
      [PyProperty] built from them.  A getter that calls
      [getattr(self, name)] takes that read as an argument.
    - [HostClass]: the class installs [get_property] of each descriptor
      under its name ([installed]); [getattr] runs the installed getter,
      [setattr] the installed setter (a derivative has none, and it or an
      unknown name raises [AttributeError]); the step relation of an
      instance, its reachable states, and runs of operations ([run]).
    - [Scenario]: concrete instances for the witnesses.
    - [Links], [Pairs]: the groups a write clears, as computed from a
      well-formed class, and the names of a reciprocal pair.
    - [Invariants]: the typing and exclusivity invariants (C2, C3).
    - [Resolution]: reads after writes in a reciprocal pair (C4-C8).
    - [Fuel]: stack depth (C9-C11).
    - [Derivatives]: reads of derivatives (C12-C14).
    - [Writes]: errors of writes, equivalence, idempotence, clearing and
      ordering of writes (C15-C19, C28).
    - [Classes]: [Invertible] and [Reciprocal] on a class (C21-C24).
    - [ClassBody]: a decidable check [body_ok] of a class body, under
      which the body runs and builds a well-formed class (C20); a mapping
      bound to two properties (C29); the exceptions of a body (C30); the
      two setters build the same class (C31).
    - [Refinement]: a reciprocal pair as an abstract five-state machine
      ([NoSource], [Direct], [Inverse], [Mapped], [InverseMapped]), the
      abstraction [alpha] of an instance, and the refinement theorems
      for the reads of the pair (C1) and of its derivatives (C25); the
      reads of a pair as a function of its four slots.
    - [Roundtrip]: put then get and get then put (C26, C27).
    - [Interleave]: several threads writing one instance.  A setter is
      its validation and then its [_set] statements, one store each
      ([mapping_fset_ops], [phys_fset_ops], [write_ops]; C34); a thread
      ([Thread]) has the stores of its current write left and the
      writes it has not started; [cstep] runs one step of one thread of
      the pool (start a write, raise, or run one store), so that any
      interleaving of the stores is an execution.  Serial schedules are
      executions (C35); executions end within five steps per write
      (C36) and every pool runs to completion (C37); whenever no write
      is in progress each group has at most one value (C32), but a
      reader during a write can find two (C38); two successful writes
      can both be lost (C33); a read whose loads straddle a write
      raises [TypeError] (C39).

    ** What the theorems show

    On every instance reachable from a fresh one by writes and model
    changes, the backend is typed and each group (property, mapping,
    reciprocal, reciprocal's mapping) holds at most one value (C2, C3).
    Then a reciprocal pair behaves as the abstract machine: its reads are
    determined by the one source and the model, and each write replaces
    the source (C1), and so are the reads of its derivatives (C25); the
    resolution theorems C4-C8 are the cases the specification lists.  With no source, reading an invertible
    property raises [TypeError] ([None * self.model]), where the
    specification says [None] (C8).  Two reciprocal properties without
    mappings make every read recurse until [RecursionError] (C9).  The
    derivative of the reciprocal of a property whose mapping is set is
    not [Zero], unlike the specification's scenario (C14).  [Reciprocal]
    checks nothing: relinking breaks symmetry (C22) and [Reciprocal(p, p)]
    loses every write to [p] (C24); a class body that [body_ok] accepts
    runs and is well-formed (C20), but the mapping setter lets two
    properties share one mapping, which breaks the uniqueness of the
    binding the specification states and lets a property keep a stale
    value next to its mapping's (C29); a body raises only [NameError],
    the setters' [AssertionError] and [Reciprocal]'s [AttributeError]
    (C30).  Writing a valid value and reading it back
    gives the value (C26), but writing back the value a mapped property
    reads detaches it from the model (C27).  Writes to attributes of
    different groups commute; writes within a group do not (C28, C19).
    Threads writing one instance concurrently keep the single-source
    invariant whenever no write is in progress, whatever the
    interleaving of the stores (C32), but the writes are not
    serializable: a write to a property and one to its mapping, each
    succeeding, can both be lost, leaving the whole group [None] (C33).
    No thread ever waits: every execution of the pool ends (C36, C37).
    Reads are not atomic either: a read of a mapped property whose loads
    of its own and its reciprocal's slots come before a write to it and
    whose read of the mapping comes after raises [TypeError], though the
    property reads a value before and after the write (C39).

    ** Fuel

    [getattr] takes a fuel, the Python stack depth; running out is
    [RecursionError].  In a well-formed class a read needs at most three
    frames (a derivative reads a mapping, a property reads its mapping or
    its reciprocal, which reads its own mapping), so every read gives
    with any fuel of three or more the result it gives with three (C10);
    Python's limit of [recursion_limit = 1000] frames is far above it.
    The only reads that exhaust the fuel are those of C9 and C11.

    ** Not modelled

    The [properties] library beyond [_get], [_set] and the dispatch of
    attribute access to the installed properties (observers,
    [HasProperties] validation hooks); the [info_text] class attributes
    and module imports (lines 1-15, 77), which only feed documentation;
    the shapes of numpy arrays and the shape
    checks of SimPEG maps (arrays are an abstract type); what numpy does
    on [1.0 / x] with zeros; attributes that are not descriptors of the
    class; classes derived from a host class that already has
    descriptors (only [BaseSimPEG], which has none, is a base here); the
    reads as threads of the pool (C38 and C39 place a read's loads
    between the pool's steps by hand) and concurrent changes of the
    model; a [Reciprocal] link to a
    [Derivative] (Python stores it and the getter would follow it; the
    registry keeps links between properties only, and [body_ok] rejects
    such a body); a [Derivative] whose [physical_property] is not a
    property. *)

From stdpp Require Import base gmap strings.

(** ** The error monad of the development *)

Inductive result (E A : Type) : Type :=
| Ok (a : A)
| Err (e : E).
Arguments Ok {E A} a.
Arguments Err {E A} e.

Definition result_bind {E A B : Type} (c : result E A) (k : A -> result E B)
  : result E B :=
  match c with
  | Ok a => k a
  | Err e => Err e
  end.

Definition is_Ok {E A : Type} (c : result E A) : bool :=
  match c with Ok _ => true | Err _ => false end.

Declare Scope py_scope.
Delimit Scope py_scope with py.
Notation "x <- c ;; k" := (result_bind c (fun x => k))
  (at level 100, c at next level, right associativity) : py_scope.
Open Scope py_scope.

Create HintDb props discriminated.
Create Rewrite HintDb props_rw.

Section ResultLemmas.
Context {E A B : Type}.

Lemma result_bind_Ok_inv (c : result E A) (k : A -> result E B) (b : B) :
  result_bind c k = Ok b -> exists a, c = Ok a /\ k a = Ok b.
Proof. destruct c; simpl; [eauto | discriminate]. Qed.

Lemma result_bind_Err_inv (c : result E A) (k : A -> result E B) (e : E) :
  result_bind c k = Err e -> c = Err e \/ exists a, c = Ok a /\ k a = Err e.
Proof. destruct c; simpl; [eauto | intros [= ->]; auto]. Qed.

Lemma result_bind_ext (c : result E A) (k1 k2 : A -> result E B) :
  (forall a, c = Ok a -> k1 a = k2 a) -> result_bind c k1 = result_bind c k2.
Proof. destruct c; simpl; auto. Qed.
End ResultLemmas.

Lemma Ok_inj {E A : Type} (a b : A) : @Ok E A a = Ok b -> a = b.
Proof. by intros [= ->]. Qed.

#[export] Hint Resolve Ok_inj : props.

(** [simpl_result] rewrites binds whose head is known; [inv_result]
    splits an equation on a bind in the hypotheses. *)
Ltac simpl_result :=
  repeat match goal with
  | |- context [result_bind (Ok ?a) ?k] => change (result_bind (Ok a) k) with (k a)
  | |- context [result_bind (Err ?e) ?k] => change (result_bind (Err e) k) with (@Err _ _ e)
  | H : Ok _ = Ok _ |- _ => apply Ok_inj in H; subst
  | H : Ok _ = Err _ |- _ => discriminate H
  | H : Err _ = Ok _ |- _ => discriminate H
  end.

Ltac inv_result H :=
  let a := fresh "a" in
  let Ha := fresh "Ha" in
  apply result_bind_Ok_inv in H as (a & Ha & H).

(** ** Maps read with a default

    Python's [dict.get(key, None)] is a lookup with a default; two
    dictionaries are indistinguishable by it when they agree on every key
    after the default is applied. *)

Section MapDefault.
Context {V : Type} (d : V).

Definition lookup_default (m : gmap string V) (k : string) : V :=
  default d (m !! k).

Lemma lookup_default_insert (m : gmap string V) (k k' : string) (v : V) :
  lookup_default (<[k := v]> m) k' = if decide (k = k') then v else lookup_default m k'.
Proof.
  unfold lookup_default. case_decide as Hk.
  - subst. by rewrite lookup_insert_eq.
  - by rewrite lookup_insert_ne.
Qed.

Lemma lookup_default_insert_eq (m : gmap string V) (k : string) (v : V) :
  lookup_default (<[k := v]> m) k = v.
Proof. by rewrite lookup_default_insert, decide_True. Qed.

Lemma lookup_default_insert_ne (m : gmap string V) (k k' : string) (v : V) :
  k <> k' -> lookup_default (<[k := v]> m) k' = lookup_default m k'.
Proof. intros Hne. by rewrite lookup_default_insert, decide_False. Qed.

Lemma lookup_default_empty (k : string) : lookup_default ∅ k = d.
Proof. unfold lookup_default. by rewrite lookup_empty. Qed.
End MapDefault.

#[export] Hint Rewrite @lookup_default_insert_eq @lookup_default_empty : props_rw.

(** Close a decidable goal on closed data by evaluation. *)
Ltac decide_true := apply (bool_decide_unpack _); vm_compute; reflexivity.
