(* ===== verification/Host.v ===== *)
(** * The host side of the descriptors

    What [src/SimPEG/Props.py] takes from its collaborators: Python values
    and errors, the instance storage of the [properties] library
    ([HasProperties._get] / [_set] on the instance's backend dictionary),
    the model array of the instance, and the operations of SimPEG's maps
    and numpy arrays that the getters call ([1.0 / x], [map * x],
    [map.deriv(x)], [Maps.ReciprocalMap()]).  The maps and arrays are
    abstract: the type class [MapCapability] states the operations the
    descriptors use and [MapLaws] the two laws some theorems need. *)

From stdpp Require Import base gmap strings.
From S2P Require Import Prelude.

(** ** Python errors raised on the paths of the descriptors *)
Inductive PyError : Type :=
| ValidationError (name : string)  (** [Property.error], raised by [Mapping.validate] *)
| AssertionError (msg : string)    (** the [assert] of [PhysicalProperty.validate] *)
| TypeError                        (** an operator applied to [None] or to an unsupported operand *)
| AttributeError (name : string)   (** no such attribute, or a read-only one *)
| NameError (name : string)        (** a name the class body has not bound *)
| MapMulError                      (** [IdentityMap.__mul__] with an unrecognized operand *)
| RecursionError.                  (** the interpreter's stack limit *)

#[export] Instance PyError_eq_dec : EqDecision PyError.
Proof. solve_decision. Defined.

(** ** Python values stored in or read from the attributes *)
Inductive Value (A M D : Type) : Type :=
| VNone                 (** [None] *)
| VArray (a : A)        (** a [numpy.ndarray] *)
| VMap (m : M)          (** a SimPEG map, an instance of [Maps.IdentityMap] *)
| VZero                 (** [Utils.Zero()] *)
| VDeriv (d : D)        (** the operator returned by [map.deriv] *)
| VObj (repr : string). (** any other Python object *)
Arguments VNone {A M D}.
Arguments VArray {A M D} a.
Arguments VMap {A M D} m.
Arguments VZero {A M D}.
Arguments VDeriv {A M D} d.
Arguments VObj {A M D} repr.

(** ** The interface of the maps and arrays *)
Class MapCapability (A M D : Type) := {
  recip : A -> A;               (** [1.0 / x], elementwise *)
  map_apply : M -> A -> A;      (** [m * x] for an array [x]: [m._transform(x)] *)
  map_compose : M -> M -> M;    (** [m1 * m2] for maps: [ComboMap([m1, m2])] *)
  reciprocal_map : M;           (** [Maps.ReciprocalMap()] *)
  map_deriv : M -> A -> D       (** [m.deriv(x)] *)
}.

Class MapLaws (A M D : Type) `{!MapCapability A M D} := {
  map_apply_compose m1 m2 x :
    map_apply (map_compose m1 m2) x = map_apply m1 (map_apply m2 x);
  map_apply_reciprocal x : map_apply reciprocal_map x = recip x
}.

(** ** The state of a host instance *)
Record Host (A M D : Type) := mkHost {
  backend : gmap string (Value A M D);  (** [instance._backend] *)
  model : Value A M D                   (** [instance.model] *)
}.
Arguments mkHost {A M D} backend model.
Arguments backend {A M D} h.
Arguments model {A M D} h.

Section HostOps.
Context {A M D : Type} `{!MapCapability A M D}.
Abbreviation Value := (Value A M D).
Abbreviation Host := (Host A M D).

(** [HasProperties._get(name)]: [self._backend.get(name, None)]. *)
Definition _get (h : Host) (name : string) : Value :=
  lookup_default VNone (backend h) name.

(** [HasProperties._set(name, value)]: [self._backend[name] = value]. *)
Definition _set (h : Host) (name : string) (v : Value) : Host :=
  mkHost (<[name := v]> (backend h)) (model h).

(** A fresh instance: empty backend, the model as the host supplies it. *)
Definition fresh_host (m : Value) : Host := mkHost ∅ m.

(** Python's [property(fget, fset, doc)], the object a descriptor's
    [get_property] returns and the host class installs under the
    descriptor's name.  The getter receives the interpreter's [getattr]
    on the instance, which the descriptors' getters call back; a property
    built without [fset] ([prop_fset = None]) is read-only. *)
Record PyProperty : Type := mkProperty {
  prop_fget : (string -> result PyError Value) -> Host -> result PyError Value;
  prop_fset : option (Host -> Value -> result PyError Host);
  prop_doc : string
}.

(** [value is None] *)
Definition is_none (v : Value) : bool :=
  match v with VNone => true | _ => false end.

Lemma is_none_true (v : Value) : is_none v = true <-> v = VNone.
Proof. destruct v; simpl; split; congruence. Qed.

(** [1.0 / v]: numpy divides elementwise; any other operand raises. *)
Definition py_rdiv (v : Value) : result PyError Value :=
  match v with
  | VArray a => Ok (VArray (recip a))
  | _ => Err TypeError
  end.

(** [IdentityMap.__mul__(self, val)]: compose with a map, transform an
    array, keep [Zero]; anything else is an unrecognized operand. *)
Definition map_mul (m : M) (r : Value) : result PyError Value :=
  match r with
  | VMap m' => Ok (VMap (map_compose m m'))
  | VArray a => Ok (VArray (map_apply m a))
  | VZero => Ok VZero
  | _ => Err MapMulError
  end.

(** [l * r] with [l] the value read from a mapping attribute:
    [None * r] raises a [TypeError]. *)
Definition py_mul (l r : Value) : result PyError Value :=
  match l with
  | VMap m => map_mul m r
  | _ => Err TypeError
  end.

(** [l.deriv(x)] with [l] a map and [x] the model array. *)
Definition py_deriv (l x : Value) : result PyError Value :=
  match l with
  | VMap m =>
      match x with
      | VArray a => Ok (VDeriv (map_deriv m a))
      | _ => Err TypeError
      end
  | _ => Err (AttributeError "deriv")
  end.

(** Two instances that no read through [_get] and [model] tells apart:
    an absent key reads as [None], like a key set to [None]. *)
Definition host_equiv (h1 h2 : Host) : Prop :=
  (forall k, _get h1 k = _get h2 k) /\ model h1 = model h2.

(** Results related by a relation on their values, errors equal. *)
Definition result_rel {X : Type} (R : relation X) : relation (result PyError X) :=
  fun r1 r2 =>
    match r1, r2 with
    | Ok a, Ok b => R a b
    | Err e1, Err e2 => e1 = e2
    | _, _ => False
    end.

Lemma _get_set (h : Host) (n k : string) (v : Value) :
  _get (_set h n v) k = if decide (n = k) then v else _get h k.
Proof. apply lookup_default_insert. Qed.

Lemma _get_set_eq (h : Host) (n : string) (v : Value) : _get (_set h n v) n = v.
Proof. apply lookup_default_insert_eq. Qed.

Lemma _get_set_ne (h : Host) (n k : string) (v : Value) :
  n <> k -> _get (_set h n v) k = _get h k.
Proof. apply lookup_default_insert_ne. Qed.

Lemma model_set (h : Host) (n : string) (v : Value) : model (_set h n v) = model h.
Proof. reflexivity. Qed.

Lemma _get_fresh (m : Value) (k : string) : _get (fresh_host m) k = VNone.
Proof. apply lookup_default_empty. Qed.

#[export] Instance host_equiv_equiv : Equivalence host_equiv.
Proof.
  split.
  - intros h. by split.
  - intros h1 h2 [Hg Hm]. split; [intros k; by rewrite Hg | done].
  - intros h1 h2 h3 [Hg1 Hm1] [Hg2 Hm2].
    split; [intros k; by rewrite Hg1, Hg2 | congruence].
Qed.

#[export] Instance result_rel_equiv {X} (R : relation X) :
  Equivalence R -> Equivalence (result_rel R).
Proof.
  intros HR. split.
  - intros [a | e]; simpl; [reflexivity | done].
  - intros [a | e] [b | e']; simpl; intros H; try contradiction; [symmetry; done | congruence].
  - intros [a | e] [b | e'] [c | e'']; simpl; intros H1 H2;
      try contradiction; [etransitivity; eauto | congruence].
Qed.

#[export] Instance _get_proper : Proper (host_equiv ==> eq ==> eq) _get.
Proof. intros h1 h2 [Hg _] k ? <-. apply Hg. Qed.

#[export] Instance model_proper : Proper (host_equiv ==> eq) model.
Proof. intros h1 h2 [_ Hm]. exact Hm. Qed.

#[export] Instance _set_proper : Proper (host_equiv ==> eq ==> eq ==> host_equiv) _set.
Proof.
  intros h1 h2 [Hg Hm] n ? <- v ? <-. split; [| exact Hm].
  intros k. rewrite !_get_set. case_decide; auto.
Qed.

(** Writing [None] to a key nobody stored under changes nothing
    observable. *)
Lemma _set_none_absent (h : Host) (n : string) :
  _get h n = VNone -> host_equiv (_set h n VNone) h.
Proof.
  intros Hn. split; [| reflexivity]. intros k. rewrite _get_set.
  case_decide; subst; auto.
Qed.
End HostOps.

#[export] Hint Rewrite @_get_set_eq @_get_fresh @model_set : props_rw.
