(* ===== verification/QArrays.v ===== *)
(** * A concrete instance of the maps and arrays

    For the witnesses: arrays are lists of rationals, [1.0 / x] is
    [Qinv] elementwise, and the maps are a small language with SimPEG's
    [IdentityMap], [ReciprocalMap], a scaling map and [ComboMap].  A
    derivative is the diagonal of the Jacobian, by the chain rule for a
    [ComboMap]. *)

From Stdlib Require Import QArith.
From stdpp Require Import base list.
From S2P Require Import Host.

Inductive SMap : Type :=
| IdentityMap
| ReciprocalMap
| ScaleMap (q : Q)
| ComboMap (m1 m2 : SMap).

Fixpoint smap_apply (m : SMap) (x : list Q) : list Q :=
  match m with
  | IdentityMap => x
  | ReciprocalMap => map Qinv x
  | ScaleMap q => map (Qmult q) x
  | ComboMap m1 m2 => smap_apply m1 (smap_apply m2 x)
  end.

Fixpoint smap_deriv (m : SMap) (x : list Q) : list Q :=
  match m with
  | IdentityMap => map (fun _ => 1%Q) x
  | ReciprocalMap => map (fun v => Qopp (Qinv (v * v))) x
  | ScaleMap q => map (fun _ => q) x
  | ComboMap m1 m2 => zip_with Qmult (smap_deriv m1 (smap_apply m2 x)) (smap_deriv m2 x)
  end.

#[export] Instance smap_capability : MapCapability (list Q) SMap (list Q) := {
  recip := map Qinv;
  map_apply := smap_apply;
  map_compose := ComboMap;
  reciprocal_map := ReciprocalMap;
  map_deriv := smap_deriv
}.

#[export] Instance smap_laws : MapLaws (list Q) SMap (list Q).
Proof. split; reflexivity. Qed.
