(* ===== verification/Descriptors.v ===== *)
(** * Descriptor objects and the class registry

    The descriptor objects of [src/SimPEG/Props.py] as records.  In the
    source, a descriptor holds Python references to the descriptors it is
    linked with ([Mapping._prop], [PhysicalProperty._mapping],
    [PhysicalProperty.reciprocal], [Derivative.physical_property]); here a
    link is the name under which the linked descriptor is registered on
    the host class, and the class is a registry from attribute names to
    descriptors.  [wf_registry] states that the links are mutual, that a
    reciprocal is symmetric and irreflexive, and that every descriptor is
    registered under its own name; it is decidable. *)

From stdpp Require Import base gmap strings.
From S2P Require Import Prelude.

(** [Mapping(help)]: [_prop] is set by the [prop] / [mapping] setters. *)
Record MappingD := mkMappingD {
  m_name : string;
  m_help : string;
  m_prop : option string
}.

(** [PhysicalProperty(help, mapping=...)]: [_mapping], and [reciprocal]
    (a class attribute [None] until [Reciprocal] sets it). *)
Record PhysD := mkPhysD {
  p_name : string;
  p_help : string;
  p_mapping : option string;
  p_reciprocal : option string
}.

(** [Derivative(help, physical_property=...)] *)
Record DerivD := mkDerivD {
  d_name : string;
  d_help : string;
  d_physical_property : option string
}.

Inductive Descriptor : Type :=
| DMapping (md : MappingD)
| DPhys (pd : PhysD)
| DDeriv (dd : DerivD).

Abbreviation Registry := (gmap string Descriptor).

Definition desc_name (d : Descriptor) : string :=
  match d with
  | DMapping md => m_name md
  | DPhys pd => p_name pd
  | DDeriv dd => d_name dd
  end.

(** The descriptor registered under a name, at the kind the link expects. *)
Definition lookup_phys (reg : Registry) (n : string) : option PhysD :=
  match reg !! n with Some (DPhys pd) => Some pd | _ => None end.

Definition lookup_mapping (reg : Registry) (n : string) : option MappingD :=
  match reg !! n with Some (DMapping md) => Some md | _ => None end.

(** ** Well-formedness of a registry *)

Definition mapping_links_ok (reg : Registry) (md : MappingD) : bool :=
  match m_prop md with
  | None => true
  | Some p =>
      match lookup_phys reg p with
      | Some pd => bool_decide (p_mapping pd = Some (m_name md))
      | None => false
      end
  end.

Definition phys_links_ok (reg : Registry) (pd : PhysD) : bool :=
  match p_mapping pd with
  | None => true
  | Some m =>
      match lookup_mapping reg m with
      | Some md => bool_decide (m_prop md = Some (p_name pd))
      | None => false
      end
  end &&
  match p_reciprocal pd with
  | None => true
  | Some r =>
      bool_decide (r <> p_name pd) &&
      match lookup_phys reg r with
      | Some rd => bool_decide (p_reciprocal rd = Some (p_name pd))
      | None => false
      end
  end.

Definition deriv_links_ok (reg : Registry) (dd : DerivD) : bool :=
  match d_physical_property dd with
  | None => true
  | Some p => bool_decide (is_Some (lookup_phys reg p))
  end.

Definition desc_links_ok (reg : Registry) (d : Descriptor) : bool :=
  match d with
  | DMapping md => mapping_links_ok reg md
  | DPhys pd => phys_links_ok reg pd
  | DDeriv dd => deriv_links_ok reg dd
  end.

Definition wf_registry (reg : Registry) : Prop :=
  map_Forall (fun k d => desc_name d = k /\ desc_links_ok reg d = true) reg.

#[export] Instance wf_registry_dec (reg : Registry) : Decision (wf_registry reg).
Proof. unfold wf_registry. apply _. Defined.

Lemma lookup_phys_reg (reg : Registry) (n : string) (pd : PhysD) :
  lookup_phys reg n = Some pd -> reg !! n = Some (DPhys pd).
Proof. unfold lookup_phys. by destruct (reg !! n) as [[] |]; intros; simplify_eq. Qed.

Lemma lookup_mapping_reg (reg : Registry) (n : string) (md : MappingD) :
  lookup_mapping reg n = Some md -> reg !! n = Some (DMapping md).
Proof. unfold lookup_mapping. by destruct (reg !! n) as [[] |]; intros; simplify_eq. Qed.

(** ** What well-formedness gives *)

Section WfFacts.
Context (reg : Registry) (Hwf : wf_registry reg).

Lemma wf_desc_name (n : string) (d : Descriptor) :
  reg !! n = Some d -> desc_name d = n.
Proof. intros Hd. by destruct (Hwf n d Hd). Qed.

Lemma wf_links (n : string) (d : Descriptor) :
  reg !! n = Some d -> desc_links_ok reg d = true.
Proof. intros Hd. by destruct (Hwf n d Hd). Qed.

Lemma lookup_phys_name (n : string) (pd : PhysD) :
  lookup_phys reg n = Some pd -> p_name pd = n.
Proof.
  intros H. exact (wf_desc_name _ _ (lookup_phys_reg reg n _ H)).
Qed.

Lemma lookup_mapping_name (n : string) (md : MappingD) :
  lookup_mapping reg n = Some md -> m_name md = n.
Proof.
  intros H. exact (wf_desc_name _ _ (lookup_mapping_reg reg n _ H)).
Qed.

Lemma lookup_phys_links (n : string) (pd : PhysD) :
  lookup_phys reg n = Some pd -> phys_links_ok reg pd = true.
Proof.
  intros H. exact (wf_links _ _ (lookup_phys_reg reg n _ H)).
Qed.

Lemma lookup_mapping_links (n : string) (md : MappingD) :
  lookup_mapping reg n = Some md -> mapping_links_ok reg md = true.
Proof.
  intros H. exact (wf_links _ _ (lookup_mapping_reg reg n _ H)).
Qed.

(** The mapping bound to a property points back to it. *)
Lemma wf_phys_mapping (pd : PhysD) (n m : string) :
  lookup_phys reg n = Some pd -> p_mapping pd = Some m ->
  exists md, lookup_mapping reg m = Some md /\ m_prop md = Some n /\ m_name md = m.
Proof.
  intros Hp Hm. pose proof (lookup_phys_links _ _ Hp) as Hl.
  pose proof (lookup_phys_name _ _ Hp) as <-.
  unfold phys_links_ok in Hl. rewrite Hm in Hl.
  destruct (lookup_mapping reg m) as [md |] eqn:Em; [| discriminate].
  apply andb_prop in Hl as [Hl _]. apply bool_decide_eq_true in Hl.
  exists md. split_and!; auto. exact (lookup_mapping_name _ _ Em).
Qed.

(** The reciprocal of a property is another property whose reciprocal
    is the first. *)
Lemma wf_phys_reciprocal (pd : PhysD) (n r : string) :
  lookup_phys reg n = Some pd -> p_reciprocal pd = Some r ->
  r <> n /\ exists rd, lookup_phys reg r = Some rd /\ p_reciprocal rd = Some n /\ p_name rd = r.
Proof.
  intros Hp Hr. pose proof (lookup_phys_links _ _ Hp) as Hl.
  pose proof (lookup_phys_name _ _ Hp) as <-.
  unfold phys_links_ok in Hl. rewrite Hr in Hl.
  apply andb_prop in Hl as [_ Hl]. apply andb_prop in Hl as [Hne Hl].
  apply bool_decide_eq_true in Hne.
  destruct (lookup_phys reg r) as [rd |] eqn:Er; [| discriminate].
  apply bool_decide_eq_true in Hl.
  split; [done |]. exists rd. split_and!; auto. exact (lookup_phys_name _ _ Er).
Qed.

(** The property bound to a mapping owns it. *)
Lemma wf_mapping_prop (md : MappingD) (m p : string) :
  lookup_mapping reg m = Some md -> m_prop md = Some p ->
  exists pd, lookup_phys reg p = Some pd /\ p_mapping pd = Some m /\ p_name pd = p.
Proof.
  intros Hm Hp. pose proof (lookup_mapping_links _ _ Hm) as Hl.
  pose proof (lookup_mapping_name _ _ Hm) as <-.
  unfold mapping_links_ok in Hl. rewrite Hp in Hl.
  destruct (lookup_phys reg p) as [pd |] eqn:Ep; [| discriminate].
  apply bool_decide_eq_true in Hl.
  exists pd. split_and!; auto. exact (lookup_phys_name _ _ Ep).
Qed.
End WfFacts.
