(* ===== verification/Factory.v ===== *)
(** * The class body: [Invertible] and [Reciprocal]
    (src/SimPEG/Props.py, lines 21-25, 83-87, 166-187)

    [Invertible(help)] creates a mapping, a physical property bound to it
    (through the [mapping] setter, which also sets the mapping's [_prop])
    and a derivative bound to the property.  The class statement then
    registers the three under the names the caller chose; here both steps
    are one operation on the registry.  [Reciprocal(prop1, prop2)] makes
    two properties each other's reciprocal.  A class body is a list of
    such declarations, run in order. *)

From stdpp Require Import base gmap strings.
From S2P Require Import Prelude Host Descriptors.

(** The [mapping] setter of [PhysicalProperty] (lines 83-87):
    [value._prop = self] then [self._mapping = value]; both objects point
    at each other afterwards.  The [assert isinstance] holds by typing. *)
Definition bind_mapping (pd : PhysD) (md : MappingD) : PhysD * MappingD :=
  (mkPhysD (p_name pd) (p_help pd) (Some (m_name md)) (p_reciprocal pd),
   mkMappingD (m_name md) (m_help md) (Some (p_name pd))).

(** The [prop] setter of [Mapping] (lines 21-25): [value._mapping = self]
    then [self._prop = value].  [Invertible] goes through the other
    setter; this one links the objects the same way
    ([ClassBody.set_prop_same_class]). *)
Definition bind_prop (md : MappingD) (pd : PhysD) : MappingD * PhysD :=
  (mkMappingD (m_name md) (m_help md) (Some (p_name pd)),
   mkPhysD (p_name pd) (p_help pd) (Some (m_name md)) (p_reciprocal pd)).

(** [Invertible(help)] (lines 166-182), with the names the class body
    gives the three results. *)
Definition Invertible (help pname mname dname : string) : PhysD * MappingD * DerivD :=
  let mapping := mkMappingD mname ("Mapping of " ++ help ++ " to the inversion model.") None in
  let '(physical_property, mapping) :=
    bind_mapping (mkPhysD pname help None None) mapping in
  let property_derivative :=
    mkDerivD dname ("Derivative of " ++ help ++ " wrt the model.") (Some (p_name physical_property)) in
  (physical_property, mapping, property_derivative).

(** The class statement registers the descriptors under their names. *)
Definition register_triple (reg : Registry) (t : PhysD * MappingD * DerivD) : Registry :=
  let '(p, m, d) := t in
  <[d_name d := DDeriv d]> (<[p_name p := DPhys p]> (<[m_name m := DMapping m]> reg)).

(** The property object after [prop.reciprocal = other]. *)
Definition with_reciprocal (pd : PhysD) (other : string) : PhysD :=
  mkPhysD (p_name pd) (p_help pd) (p_mapping pd) (Some other).

(** [prop.reciprocal = other] on the registered property object. *)
Definition set_reciprocal (reg : Registry) (prop other : string) : Registry :=
  match lookup_phys reg prop with
  | Some pd => <[prop := DPhys (with_reciprocal pd other)]> reg
  | None => reg
  end.

(** [Reciprocal(prop1, prop2)] (lines 185-187). *)
Definition Reciprocal (prop1 prop2 : string) (reg : Registry) : Registry :=
  set_reciprocal (set_reciprocal reg prop1 prop2) prop2 prop1.

(** A statement of a class body that declares descriptors: an
    [Invertible] triple, a bare [PhysicalProperty(help)], a bare
    [Mapping(help)], a [PhysicalProperty(help, mapping=m)] bound to a
    mapping of the body, a [Derivative(help, physical_property=prop)],
    the [prop] setter [m.prop = p], or a [Reciprocal] link. *)
Inductive ClassDecl : Type :=
| DeclInvertible (help pname mname dname : string)
| DeclPhysicalProperty (help pname : string)
| DeclMapping (help mname : string)
| DeclPhysicalPropertyMapped (help pname mname : string)
| DeclDerivative (help dname pname : string)
| DeclSetProp (mname pname : string)
| DeclReciprocal (prop1 prop2 : string).

(** Evaluating a name of the class body: [NameError] when it is unbound. *)
Definition lookup_name (reg : Registry) (n : string) : result PyError Descriptor :=
  match reg !! n with Some d => Ok d | None => Err (NameError n) end.

(** Running one statement.  Its arguments are evaluated first ([NameError]
    for an unbound name).  The [mapping] setter asserts that its value is
    a [Mapping] and the [prop] setter that its value is a
    [PhysicalProperty] ([AssertionError] with no message).  [m.prop = p] on
    an object that is not a [Mapping] only sets a plain attribute, which
    no descriptor reads.  [Reciprocal] assigns [reciprocal] on both
    objects: on a [Mapping] it is a read-only property and raises
    [AttributeError].  On a [Derivative] it is a plain attribute, and a
    property linked to a derivative would follow that link in its getter;
    the registry keeps links between properties only, so such a body is
    outside the model ([Classes.body_ok] rejects it). *)
Definition declare (reg : Registry) (d : ClassDecl) : result PyError Registry :=
  match d with
  | DeclInvertible help p m dn => Ok (register_triple reg (Invertible help p m dn))
  | DeclPhysicalProperty help p => Ok (<[p := DPhys (mkPhysD p help None None)]> reg)
  | DeclMapping help m => Ok (<[m := DMapping (mkMappingD m help None)]> reg)
  | DeclPhysicalPropertyMapped help p m =>
      dm <- lookup_name reg m ;;
      match dm with
      | DMapping md =>
          let '(pd, md') := bind_mapping (mkPhysD p help None None) md in
          Ok (<[p := DPhys pd]> (<[m := DMapping md']> reg))
      | _ => Err (AssertionError "")
      end
  | DeclDerivative help dn p =>
      _ <- lookup_name reg p ;;
      Ok (<[dn := DDeriv (mkDerivD dn help (Some p))]> reg)
  | DeclSetProp m p =>
      dp <- lookup_name reg p ;;
      dm <- lookup_name reg m ;;
      match dm, dp with
      | DMapping md, DPhys pd =>
          let '(md', pd') := bind_prop md pd in
          Ok (<[m := DMapping md']> (<[p := DPhys pd']> reg))
      | DMapping _, _ => Err (AssertionError "")
      | _, _ => Ok reg
      end
  | DeclReciprocal p1 p2 =>
      d1 <- lookup_name reg p1 ;;
      d2 <- lookup_name reg p2 ;;
      match d1, d2 with
      | DMapping _, _ | _, DMapping _ => Err (AttributeError "reciprocal")
      | _, _ => Ok (Reciprocal p1 p2 reg)
      end
  end.

(** A class body runs its statements in order; the first exception
    aborts the class statement. *)
Fixpoint run_body (reg : Registry) (ds : list ClassDecl) : result PyError Registry :=
  match ds with
  | [] => Ok reg
  | d :: ds => reg' <- declare reg d ;; run_body reg' ds
  end.

(** The class a body defines, for bodies known to run ([∅] otherwise). *)
Definition class_of (r : result PyError Registry) : Registry :=
  match r with Ok reg => reg | Err _ => ∅ end.

(** [class BaseSimPEG(properties.HasProperties()): pass] (lines 190-191):
    a class whose body declares nothing, so it has no descriptors. *)
Definition BaseSimPEG : Registry := class_of (run_body ∅ []).

(** A host class derived from [BaseSimPEG]: its body runs on top of the
    descriptors of the base, of which there are none, so the names of
    the body are the only ones it sees. *)
Definition build_class (decls : list ClassDecl) : result PyError Registry :=
  run_body BaseSimPEG decls.


(** ** Lookups after the registry operations *)

Lemma lookup_phys_set_reciprocal (reg : Registry) (p q n : string) :
  lookup_phys (set_reciprocal reg p q) n =
    match lookup_phys reg n with
    | Some pd => Some (if decide (p = n) then with_reciprocal pd q else pd)
    | None => None
    end.
Proof.
  unfold set_reciprocal. destruct (lookup_phys reg p) as [pd |] eqn:Ep.
  - unfold lookup_phys in *. rewrite lookup_insert.
    case_decide; subst; [by rewrite Ep |].
    destruct (reg !! n) as [[] |]; reflexivity.
  - destruct (lookup_phys reg n) eqn:En; [| done].
    case_decide; subst; congruence.
Qed.

Lemma lookup_set_reciprocal (reg : Registry) (p q n : string) :
  set_reciprocal reg p q !! n =
    match reg !! n with
    | Some (DPhys pd) => Some (DPhys (if decide (p = n) then with_reciprocal pd q else pd))
    | o => o
    end.
Proof.
  unfold set_reciprocal, lookup_phys. destruct (reg !! p) as [[| pd |] |] eqn:Ep;
    try (destruct (reg !! n) as [[] |] eqn:En; try done; case_decide; subst; congruence).
  rewrite lookup_insert. case_decide; subst; [by rewrite Ep |].
  by destruct (reg !! n) as [[] |].
Qed.

Lemma lookup_mapping_set_reciprocal (reg : Registry) (p q n : string) :
  lookup_mapping (set_reciprocal reg p q) n = lookup_mapping reg n.
Proof.
  unfold set_reciprocal. destruct (lookup_phys reg p) as [pd |] eqn:Ep; [| done].
  unfold lookup_mapping, lookup_phys in *. rewrite lookup_insert.
  case_decide; subst; [| done]. destruct (reg !! n) as [[] |]; congruence.
Qed.

(** The class of the scenario of the specification, as SimPEG's
    electromagnetic simulations declare it: conductivity and resistivity,
    each invertible, reciprocal to each other. *)
Definition conductivity_class : Registry :=
  class_of $ build_class
    [DeclInvertible "Electrical conductivity" "sigma" "sigmaMap" "sigmaDeriv";
     DeclInvertible "Electrical resistivity" "rho" "rhoMap" "rhoDeriv";
     DeclReciprocal "sigma" "rho"].
