(* ===== verification/PhysicalProp.v ===== *)
(** * [PhysicalProperty] (src/SimPEG/Props.py, lines 75-134)

    The descriptor of a physical property: its links ([mapping],
    [reciprocal]), the clearing routine its setter runs
    ([clear_mappings]), the validation of assigned values, and the getter
    and setter that [get_property] installs on the host class.  The getter
    calls [getattr] on the host for the reciprocal or the mapping; it takes
    that read as its argument [getattr], which [HostClass.getattr] supplies
    with one frame less of fuel. *)

From stdpp Require Import base gmap strings.
From S2P Require Import Prelude Host Descriptors.

Module PhysicalProperty.
Section Defs.
Context {A M D : Type} `{!MapCapability A M D}.
Abbreviation Value := (Value A M D).
Abbreviation Host := (Host A M D).

(** [mapping] property (lines 79-81): [getattr(self, '_mapping', None)]. *)
Definition mapping (reg : Registry) (scope : PhysD) : option MappingD :=
  match p_mapping scope with
  | Some n => lookup_mapping reg n
  | None => None
  end.

(** [reciprocal] (line 89, assigned by [Reciprocal]). *)
Definition reciprocal (reg : Registry) (scope : PhysD) : option PhysD :=
  match p_reciprocal scope with
  | Some n => lookup_phys reg n
  | None => None
  end.

(** [clear_mappings(self, instance)] (lines 91-98). *)
Definition clear_mappings (reg : Registry) (scope : PhysD) (h : Host) : Host :=
  let h := match mapping reg scope with
           | Some m => _set h (m_name m) VNone
           | None => h
           end in
  match reciprocal reg scope with
  | None => h
  | Some r =>
      let h := _set h (p_name r) VNone in
      match mapping reg r with
      | Some rm => _set h (m_name rm) VNone
      | None => h
      end
  end.

(** [validate(self, instance, value)] (lines 100-106). *)
Definition validate (v : Value) : result PyError Value :=
  match v with
  | VNone => Ok VNone
  | VArray a => Ok (VArray a)
  | _ => Err (AssertionError "Physical properties must be numpy arrays.")
  end.

(** [fget(self)] (lines 112-127).  The statement [return 'fun'] of
    line 124 follows a [return] and is never executed. *)
Definition fget (getattr : string -> result PyError Value)
    (reg : Registry) (scope : PhysD) (h : Host) : result PyError Value :=
  let default := _get h (p_name scope) in
  if negb (is_none default) then Ok default else
  let default := match reciprocal reg scope with
                 | Some r => _get h (p_name r)
                 | None => VNone
                 end in
  if negb (is_none default) then py_rdiv default else
  match mapping reg scope, reciprocal reg scope with
  | None, None => Ok VNone
  | None, Some r => v <- getattr (p_name r) ;; py_rdiv v
  | Some m, _ => mv <- getattr (m_name m) ;; py_mul mv (model h)
  end.

(** [fset(self, value)] (lines 129-132). *)
Definition fset (reg : Registry) (scope : PhysD) (h : Host) (v : Value)
    : result PyError Host :=
  v <- validate v ;;
  Ok (clear_mappings reg scope (_set h (p_name scope) v)).

(** [get_property(self)] (lines 108-134): [property(fget, fset,
    doc=scope.help)]. *)
Definition get_property (reg : Registry) (scope : PhysD) : PyProperty :=
  mkProperty (fun getattr h => fget getattr reg scope h) (Some (fset reg scope)) (p_help scope).

(** The names [clear_mappings] writes [None] to. *)
Definition clear_targets (reg : Registry) (scope : PhysD) : list string :=
  match mapping reg scope with Some m => [m_name m] | None => [] end ++
  match reciprocal reg scope with
  | Some r => p_name r :: match mapping reg r with Some rm => [m_name rm] | None => [] end
  | None => []
  end.

Lemma clear_mappings_get (reg : Registry) (scope : PhysD) (h : Host) (k : string) :
  _get (clear_mappings reg scope h) k =
    if decide (k ∈ clear_targets reg scope) then VNone else _get h k.
Proof.
  unfold clear_mappings, clear_targets.
  destruct (mapping reg scope) as [m |]; destruct (reciprocal reg scope) as [r |];
    try destruct (mapping reg r) as [rm |];
    rewrite ?_get_set; repeat case_decide; set_solver.
Qed.

Lemma clear_mappings_model (reg : Registry) (scope : PhysD) (h : Host) :
  model (clear_mappings reg scope h) = model h.
Proof.
  unfold clear_mappings.
  destruct (mapping reg scope); destruct (reciprocal reg scope) as [r |];
    try destruct (mapping reg r); reflexivity.
Qed.

Lemma phys_validate_ok (v v' : Value) :
  validate v = Ok v' -> v' = v /\ (v = VNone \/ exists a, v = VArray a).
Proof. destruct v; simpl; intros; simplify_eq; eauto. Qed.

Lemma phys_fget_ext (g1 g2 : string -> result PyError Value) reg scope h :
  (forall n, g1 n = g2 n) -> fget g1 reg scope h = fget g2 reg scope h.
Proof.
  intros Hg. unfold fget.
  destruct (mapping reg scope), (reciprocal reg scope); rewrite ?Hg; reflexivity.
Qed.

(** ** The branches of [fget], in the order of the source *)

Section FgetBranches.
Context (g : string -> result PyError Value) (reg : Registry) (scope : PhysD) (h : Host).

Lemma fget_own :
  is_none (_get h (p_name scope)) = false -> fget g reg scope h = Ok (_get h (p_name scope)).
Proof. intros Hown. unfold fget. by rewrite Hown. Qed.

Lemma fget_reciprocal_stored (r : PhysD) :
  is_none (_get h (p_name scope)) = true -> reciprocal reg scope = Some r ->
  is_none (_get h (p_name r)) = false -> fget g reg scope h = py_rdiv (_get h (p_name r)).
Proof. intros Hown Hr Hrv. unfold fget. by rewrite Hown, Hr, Hrv. Qed.

Lemma fget_unbound :
  is_none (_get h (p_name scope)) = true -> mapping reg scope = None ->
  reciprocal reg scope = None -> fget g reg scope h = Ok VNone.
Proof. intros Hown Hm Hr. unfold fget. by rewrite Hown, Hm, Hr. Qed.

Lemma fget_reciprocal_read (r : PhysD) :
  is_none (_get h (p_name scope)) = true -> mapping reg scope = None ->
  reciprocal reg scope = Some r -> is_none (_get h (p_name r)) = true ->
  fget g reg scope h = (v <- g (p_name r) ;; py_rdiv v).
Proof. intros Hown Hm Hr Hrv. unfold fget. by rewrite Hown, Hm, Hr, Hrv. Qed.

Lemma fget_mapping_read (md : MappingD) :
  is_none (_get h (p_name scope)) = true -> mapping reg scope = Some md ->
  (forall r, reciprocal reg scope = Some r -> is_none (_get h (p_name r)) = true) ->
  fget g reg scope h = (mv <- g (m_name md) ;; py_mul mv (model h)).
Proof.
  intros Hown Hm Hr. unfold fget. rewrite Hown, Hm. simpl.
  destruct (reciprocal reg scope) as [rd |]; [by rewrite (Hr rd eq_refl) | done].
Qed.
End FgetBranches.

(** The getter sees an instance only through [_get] and [model]. *)
Lemma fget_equiv (g1 g2 : string -> result PyError Value) reg scope (h1 h2 : Host) :
  (forall n, g1 n = g2 n) -> host_equiv h1 h2 -> fget g1 reg scope h1 = fget g2 reg scope h2.
Proof.
  intros Hg [Hh Hm]. unfold fget. rewrite Hh, Hm.
  destruct (reciprocal reg scope); rewrite ?Hh;
    destruct (mapping reg scope); by rewrite ?Hg.
Qed.

#[export] Instance clear_mappings_proper reg scope :
  Proper (host_equiv ==> host_equiv) (clear_mappings reg scope).
Proof.
  intros h1 h2 Hh. split.
  - intros k. rewrite !clear_mappings_get. case_decide; [done | by rewrite Hh].
  - rewrite !clear_mappings_model. by rewrite Hh.
Qed.
End Defs.
End PhysicalProperty.
