(* ===== verification/MappingProp.v ===== *)
(** * [Mapping] (src/SimPEG/Props.py, lines 13-72)

    The descriptor of the mapping slot of a physical property: its links
    ([prop], [reciprocal], [reciprocal_prop]), the clearing routine of its
    setter ([clear_props]), its validation, and the getter and setter of
    [get_property].  The getter reads only raw slots, so it needs no
    [getattr]. *)

From stdpp Require Import base gmap strings.
From S2P Require Import Prelude Host Descriptors PhysicalProp.

Module Mapping.
Section Defs.
Context {A M D : Type} `{!MapCapability A M D}.
Abbreviation Value := (Value A M D).
Abbreviation Host := (Host A M D).

(** [prop] property (lines 17-19): [getattr(self, '_prop', None)]. *)
Definition prop (reg : Registry) (scope : MappingD) : option PhysD :=
  match m_prop scope with
  | Some n => lookup_phys reg n
  | None => None
  end.

(** [reciprocal] property (lines 27-30). *)
Definition reciprocal (reg : Registry) (scope : MappingD) : option MappingD :=
  match prop reg scope with
  | Some p =>
      match PhysicalProperty.reciprocal reg p with
      | Some r => PhysicalProperty.mapping reg r
      | None => None
      end
  | None => None
  end.

(** [reciprocal_prop] property (lines 32-35). *)
Definition reciprocal_prop (reg : Registry) (scope : MappingD) : option PhysD :=
  match prop reg scope with
  | Some p => PhysicalProperty.reciprocal reg p
  | None => None
  end.

(** [clear_props(self, instance)] (lines 37-43). *)
Definition clear_props (reg : Registry) (scope : MappingD) (h : Host) : Host :=
  let h := match prop reg scope with
           | Some p => _set h (p_name p) VNone
           | None => h
           end in
  let h := match reciprocal_prop reg scope with
           | Some r => _set h (p_name r) VNone
           | None => h
           end in
  match reciprocal reg scope with
  | Some rm => _set h (m_name rm) VNone
  | None => h
  end.

(** [validate(self, instance, value)] (lines 45-50): [self.error] raises
    a [ValidationError] for a value that is not a map. *)
Definition validate (scope : MappingD) (v : Value) : result PyError Value :=
  match v with
  | VNone => Ok VNone
  | VMap m => Ok (VMap m)
  | _ => Err (ValidationError (m_name scope))
  end.

(** [fget(self)] (lines 56-65). *)
Definition fget (reg : Registry) (scope : MappingD) (h : Host) : result PyError Value :=
  let value := _get h (m_name scope) in
  if negb (is_none value) then Ok value else
  match reciprocal reg scope with
  | None => Ok VNone
  | Some rm =>
      let r := _get h (m_name rm) in
      if is_none r then Ok VNone else map_mul reciprocal_map r
  end.

(** [fset(self, value)] (lines 67-70). *)
Definition fset (reg : Registry) (scope : MappingD) (h : Host) (v : Value)
    : result PyError Host :=
  v <- validate scope v ;;
  Ok (clear_props reg scope (_set h (m_name scope) v)).

(** [get_property(self)] (lines 52-72): [property(fget, fset,
    doc=scope.help)]; the getter does not read other attributes. *)
Definition get_property (reg : Registry) (scope : MappingD) : PyProperty :=
  mkProperty (fun _ h => fget reg scope h) (Some (fset reg scope)) (m_help scope).

(** The names [clear_props] writes [None] to. *)
Definition clear_targets (reg : Registry) (scope : MappingD) : list string :=
  match prop reg scope with Some p => [p_name p] | None => [] end ++
  match reciprocal_prop reg scope with Some r => [p_name r] | None => [] end ++
  match reciprocal reg scope with Some rm => [m_name rm] | None => [] end.

Lemma clear_props_get (reg : Registry) (scope : MappingD) (h : Host) (k : string) :
  _get (clear_props reg scope h) k =
    if decide (k ∈ clear_targets reg scope) then VNone else _get h k.
Proof.
  unfold clear_props, clear_targets.
  destruct (prop reg scope), (reciprocal_prop reg scope), (reciprocal reg scope);
    rewrite ?_get_set; repeat case_decide; set_solver.
Qed.

Lemma clear_props_model (reg : Registry) (scope : MappingD) (h : Host) :
  model (clear_props reg scope h) = model h.
Proof.
  unfold clear_props.
  destruct (prop reg scope), (reciprocal_prop reg scope), (reciprocal reg scope);
    reflexivity.
Qed.

Lemma mapping_validate_ok (scope : MappingD) (v v' : Value) :
  validate scope v = Ok v' -> v' = v /\ (v = VNone \/ exists m, v = VMap m).
Proof. destruct v; simpl; intros; simplify_eq; eauto. Qed.

(** ** The branches of [fget] *)

Section FgetBranches.
Context (reg : Registry) (scope : MappingD) (h : Host).

Lemma mapping_fget_own :
  is_none (_get h (m_name scope)) = false -> fget reg scope h = Ok (_get h (m_name scope)).
Proof. intros Hown. unfold fget. by rewrite Hown. Qed.

Lemma mapping_fget_reciprocal (rm : MappingD) :
  is_none (_get h (m_name scope)) = true -> reciprocal reg scope = Some rm ->
  is_none (_get h (m_name rm)) = false ->
  fget reg scope h = map_mul reciprocal_map (_get h (m_name rm)).
Proof. intros Hown Hr Hrv. unfold fget. by rewrite Hown, Hr, Hrv. Qed.

Lemma mapping_fget_none :
  is_none (_get h (m_name scope)) = true ->
  (forall rm, reciprocal reg scope = Some rm -> is_none (_get h (m_name rm)) = true) ->
  fget reg scope h = Ok VNone.
Proof.
  intros Hown Hr. unfold fget. rewrite Hown. simpl.
  destruct (reciprocal reg scope) as [rm |]; [by rewrite (Hr rm eq_refl) | done].
Qed.
End FgetBranches.

#[export] Instance clear_props_proper reg scope :
  Proper (host_equiv ==> host_equiv) (clear_props reg scope).
Proof.
  intros h1 h2 Hh. split.
  - intros k. rewrite !clear_props_get. case_decide; [done | by rewrite Hh].
  - rewrite !clear_props_model. by rewrite Hh.
Qed.

#[export] Instance fget_proper reg scope :
  Proper (host_equiv ==> eq) (fget reg scope).
Proof.
  intros h1 h2 [Hg _]. unfold fget. rewrite Hg.
  destruct (reciprocal reg scope); [by rewrite Hg | done].
Qed.
End Defs.
End Mapping.
