(* ===== verification/DerivativeProp.v ===== *)
(** * [Derivative] (src/SimPEG/Props.py, lines 137-163)

    The read-only descriptor of the derivative of a physical property with
    respect to the model: its links ([physical_property], [mapping]) and
    its getter.  It has no setter: the host raises on a write. *)

From stdpp Require Import base gmap strings.
From S2P Require Import Prelude Host Descriptors PhysicalProp.

Module Derivative.
Section Defs.
Context {A M D : Type} `{!MapCapability A M D}.
Abbreviation Value := (Value A M D).
Abbreviation Host := (Host A M D).

(** [physical_property] (line 139, set by [Invertible]). *)
Definition physical_property (reg : Registry) (scope : DerivD) : option PhysD :=
  match d_physical_property scope with
  | Some n => lookup_phys reg n
  | None => None
  end.

(** [mapping] property (lines 141-146). *)
Definition mapping (reg : Registry) (scope : DerivD) : option MappingD :=
  match physical_property reg scope with
  | None => None
  | Some p => PhysicalProperty.mapping reg p
  end.

(** [fget(self)] (lines 152-161). *)
Definition fget (getattr : string -> result PyError Value)
    (reg : Registry) (scope : DerivD) (h : Host) : result PyError Value :=
  match physical_property reg scope with
  | None => Ok VZero
  | Some _ =>
      match mapping reg scope with
      | None => Ok VZero
      | Some m =>
          mv <- getattr (m_name m) ;;
          if is_none mv then Ok VZero else py_deriv mv (model h)
      end
  end.

(** [get_property(self)] (lines 148-163): [property(fget,
    doc=scope.help)], with no setter. *)
Definition get_property (reg : Registry) (scope : DerivD) : PyProperty :=
  mkProperty (fun getattr h => fget getattr reg scope h) None (d_help scope).

Lemma deriv_fget_unbound g reg scope h :
  mapping reg scope = None -> fget g reg scope h = Ok VZero.
Proof.
  intros Hm. unfold fget. destruct (physical_property reg scope); [by rewrite Hm | done].
Qed.

Lemma deriv_fget_read g reg scope h (md : MappingD) :
  mapping reg scope = Some md ->
  fget g reg scope h = (mv <- g (m_name md) ;; if is_none mv then Ok VZero else py_deriv mv (model h)).
Proof.
  intros Hm. unfold fget. destruct (physical_property reg scope) eqn:E; [by rewrite Hm |].
  unfold mapping in Hm. rewrite E in Hm. discriminate.
Qed.

Lemma deriv_fget_equiv (g1 g2 : string -> result PyError Value) reg scope (h1 h2 : Host) :
  (forall n, g1 n = g2 n) -> host_equiv h1 h2 -> fget g1 reg scope h1 = fget g2 reg scope h2.
Proof.
  intros Hg [_ Hm]. unfold fget.
  destruct (physical_property reg scope), (mapping reg scope); by rewrite ?Hg, ?Hm.
Qed.

Lemma deriv_fget_ext (g1 g2 : string -> result PyError Value) reg scope h :
  (forall n, g1 n = g2 n) -> fget g1 reg scope h = fget g2 reg scope h.
Proof.
  intros Hg. unfold fget.
  destruct (physical_property reg scope), (mapping reg scope); rewrite ?Hg; reflexivity.
Qed.
End Defs.
End Derivative.
