(* ===== verification/HostClass.v ===== *)
(** * The host class: attribute reads and writes on an instance

    A host class ([BaseSimPEG], lines 190-191, a [properties.HasProperties]
    class) installs each descriptor's [property] under its name, so that
    [getattr(instance, name)] runs the descriptor's [fget] and
    [setattr(instance, name, value)] its [fset].  The getters of
    [PhysicalProperty] and [Derivative] call [getattr] again; [getattr]
    counts these nested frames with a fuel, and running out of it is
    the interpreter's [RecursionError].  An instance evolves by writes to
    descriptor attributes and by the host replacing its model; reads do
    not change it. *)

From stdpp Require Import base gmap strings.
From S2P Require Import Prelude Host Descriptors PhysicalProp MappingProp DerivativeProp.

Section HostClass.
Context {A M D : Type} `{!MapCapability A M D}.
Abbreviation Value := (Value A M D).
Abbreviation Host := (Host A M D).

(** [sys.getrecursionlimit()] of a default CPython interpreter. *)
Definition recursion_limit : nat := 1000.

(** The property object the class body installs for a descriptor: the
    result of the descriptor's [get_property]. *)
Definition installed (reg : Registry) (d : Descriptor) : PyProperty :=
  match d with
  | DMapping md => Mapping.get_property reg md
  | DPhys pd => PhysicalProperty.get_property reg pd
  | DDeriv dd => Derivative.get_property reg dd
  end.

(** [getattr(instance, name)] with [fuel] frames left: the getter of the
    installed property, called with the interpreter's [getattr] one
    frame deeper. *)
Fixpoint getattr (fuel : nat) (reg : Registry) (h : Host) (name : string)
    : result PyError Value :=
  match fuel with
  | O => Err RecursionError
  | S fuel' =>
      match reg !! name with
      | Some d => prop_fget (installed reg d) (getattr fuel' reg h) h
      | None => Err (AttributeError name)
      end
  end.

(** A read at the top level of the interpreter. *)
Definition get_attribute (reg : Registry) (h : Host) (name : string) : result PyError Value :=
  getattr recursion_limit reg h name.

(** [setattr(instance, name, value)]: the setter of the installed
    property; a property without one ([Derivative]) raises
    [AttributeError], as does a name the class does not define. *)
Definition setattr (reg : Registry) (h : Host) (name : string) (v : Value)
    : result PyError Host :=
  match reg !! name with
  | Some d =>
      match prop_fset (installed reg d) with
      | Some fset => fset h v
      | None => Err (AttributeError name)
      end
  | None => Err (AttributeError name)
  end.

(** The host replaces the model of the instance. *)
Definition set_model (h : Host) (v : Value) : Host := mkHost (backend h) v.

(** One step of an instance: a successful write, or a new model.  A
    write that raises leaves the instance as it was. *)
Inductive step (reg : Registry) : Host -> Host -> Prop :=
| step_setattr h h' n v : setattr reg h n v = Ok h' -> step reg h h'
| step_model h v : step reg h (set_model h v).

Inductive reachable (reg : Registry) : Host -> Prop :=
| reachable_fresh m : reachable reg (fresh_host m)
| reachable_step h h' : reachable reg h -> step reg h h' -> reachable reg h'.

(** A sequence of writes, as a program runs them: the first exception
    propagates and the rest is not run. *)
Inductive Op : Type :=
| OpSet (name : string) (v : Value)
| OpModel (v : Value).

Fixpoint run (reg : Registry) (h : Host) (ops : list Op) : result PyError Host :=
  match ops with
  | [] => Ok h
  | OpSet n v :: ops => h' <- setattr reg h n v ;; run reg h' ops
  | OpModel v :: ops => run reg (set_model h v) ops
  end.

(** ** Unfolding lemmas *)

Lemma getattr_S (fuel : nat) (reg : Registry) (h : Host) (name : string) :
  getattr (S fuel) reg h name =
    match reg !! name with
    | Some (DMapping md) => Mapping.fget reg md h
    | Some (DPhys pd) => PhysicalProperty.fget (getattr fuel reg h) reg pd h
    | Some (DDeriv dd) => Derivative.fget (getattr fuel reg h) reg dd h
    | None => Err (AttributeError name)
    end.
Proof. simpl. by destruct (reg !! name) as [[] |]. Qed.

(** [setattr] on each kind of descriptor. *)
Lemma setattr_dispatch (reg : Registry) (h : Host) (name : string) (v : Value) :
  setattr reg h name v =
    match reg !! name with
    | Some (DMapping md) => Mapping.fset reg md h v
    | Some (DPhys pd) => PhysicalProperty.fset reg pd h v
    | Some (DDeriv _) => Err (AttributeError name)
    | None => Err (AttributeError name)
    end.
Proof. unfold setattr. by destruct (reg !! name) as [[] |]. Qed.

Lemma getattr_mapping (fuel : nat) reg h (n : string) (md : MappingD) :
  lookup_mapping reg n = Some md -> getattr (S fuel) reg h n = Mapping.fget reg md h.
Proof.
  unfold lookup_mapping. rewrite getattr_S.
  destruct (reg !! n) as [[] |]; congruence.
Qed.

Lemma getattr_phys (fuel : nat) reg h (n : string) (pd : PhysD) :
  lookup_phys reg n = Some pd ->
  getattr (S fuel) reg h n = PhysicalProperty.fget (getattr fuel reg h) reg pd h.
Proof.
  unfold lookup_phys. rewrite getattr_S.
  destruct (reg !! n) as [[] |]; congruence.
Qed.

Lemma setattr_mapping reg h (n : string) (md : MappingD) v :
  lookup_mapping reg n = Some md -> setattr reg h n v = Mapping.fset reg md h v.
Proof. unfold lookup_mapping. rewrite setattr_dispatch. destruct (reg !! n) as [[] |]; congruence. Qed.

Lemma setattr_phys reg h (n : string) (pd : PhysD) v :
  lookup_phys reg n = Some pd -> setattr reg h n v = PhysicalProperty.fset reg pd h v.
Proof. unfold lookup_phys. rewrite setattr_dispatch. destruct (reg !! n) as [[] |]; congruence. Qed.

Lemma reachable_run reg h ops h' :
  reachable reg h -> run reg h ops = Ok h' -> reachable reg h'.
Proof.
  revert h. induction ops as [| [n v | v] ops IH]; intros h Hr Hrun; simpl in Hrun.
  - by simpl_result.
  - inv_result Hrun. eapply IH; [| exact Hrun]. econstructor; [exact Hr |].
    econstructor; exact Ha.
  - eapply IH; [| exact Hrun]. econstructor; [exact Hr | constructor].
Qed.
End HostClass.

#[export] Hint Constructors step reachable : props.
