(* ===== verification/Scenario.v ===== *)
(** * The scenario of the specification, on rational arrays

    Concrete instances for the witnesses: the class [conductivity_class]
    (sigma and rho, reciprocal), the model [[1; 2; 4]], a fresh
    instance, and the instance after [sigmaMap] is set to the identity
    map. *)

From Stdlib Require Import QArith.
From stdpp Require Import base gmap strings.
From S2P Require Import Prelude Host QArrays Descriptors Factory HostClass.

Abbreviation QValue := (Value (list Q) SMap (list Q)).
Abbreviation QHost := (Host (list Q) SMap (list Q)).

Definition scenario_model : QValue := VArray [1; 2; 4]%Q.

Definition scenario_fresh : QHost := fresh_host scenario_model.

(** The instance after a write, or unchanged when the write raises. *)
Definition after_set (reg : Registry) (h : QHost) (n : string) (v : QValue) : QHost :=
  match setattr reg h n v with Ok h' => h' | Err _ => h end.

Definition scenario_sigmaMap : QHost :=
  after_set conductivity_class scenario_fresh "sigmaMap" (VMap IdentityMap).

Definition scenario_sigma : QHost :=
  after_set conductivity_class scenario_fresh "sigma" (VArray [1; 2; 4]%Q).

(** A class with two reciprocal properties declared without mappings. *)
Definition unmapped_class : Registry :=
  class_of $ build_class
    [DeclPhysicalProperty "Thermal conductivity" "kappa";
     DeclPhysicalProperty "Thermal resistivity" "eta";
     DeclDerivative "Derivative of thermal conductivity" "kappaDeriv" "kappa";
     DeclReciprocal "kappa" "eta"].

(** A class with two independent invertible properties: the
    conductivity pair and a hydraulic conductivity. *)
Definition two_property_class : Registry :=
  class_of $ build_class
    [DeclInvertible "Electrical conductivity" "sigma" "sigmaMap" "sigmaDeriv";
     DeclInvertible "Electrical resistivity" "rho" "rhoMap" "rhoDeriv";
     DeclReciprocal "sigma" "rho";
     DeclInvertible "Hydraulic conductivity" "kappa" "kappaMap" "kappaDeriv"].

(** A class body that uses every kind of statement. *)
Definition magnetic_body : list ClassDecl :=
  [DeclInvertible "Electrical conductivity" "sigma" "sigmaMap" "sigmaDeriv";
   DeclInvertible "Electrical resistivity" "rho" "rhoMap" "rhoDeriv";
   DeclReciprocal "sigma" "rho";
   DeclMapping "Mapping of permeability to the inversion model." "muMap";
   DeclPhysicalPropertyMapped "Magnetic permeability" "mu" "muMap";
   DeclDerivative "Derivative of permeability wrt the model." "muDeriv" "mu";
   DeclPhysicalProperty "Magnetic susceptibility" "chi";
   DeclMapping "Mapping of susceptibility to the inversion model." "chiMap";
   DeclSetProp "chiMap" "chi"].

(** The descriptors of [conductivity_class], as [Invertible] and
    [Reciprocal] leave them. *)
Definition sigma_desc : PhysD :=
  mkPhysD "sigma" "Electrical conductivity" (Some "sigmaMap") (Some "rho").

Definition rho_desc : PhysD :=
  mkPhysD "rho" "Electrical resistivity" (Some "rhoMap") (Some "sigma").

(** One write from a fresh instance. *)
Ltac reach_by_set n v :=
  eapply reachable_step;
  [apply reachable_fresh | apply (step_setattr _ _ _ n v); vm_compute; reflexivity].
