(* ===== verification/Links.v ===== *)
(** * The link accessors of a well-formed class

    In a well-formed registry the link properties of the source
    ([PhysicalProperty.mapping], [.reciprocal], [Mapping.prop],
    [.reciprocal], [.reciprocal_prop]) find registered descriptors that
    point back.  From these facts: the set of attributes that a write to
    one attribute clears ([targets]) is a symmetric relation, which the
    exclusivity invariant of [Invariants] rests on. *)

From stdpp Require Import base gmap strings.
From S2P Require Import Prelude Host Descriptors PhysicalProp MappingProp.

Section Links.
Context (reg : Registry) (Hwf : wf_registry reg).

Lemma phys_mapping_spec (p : string) (pd : PhysD) (md : MappingD) :
  lookup_phys reg p = Some pd -> PhysicalProperty.mapping reg pd = Some md ->
  lookup_mapping reg (m_name md) = Some md /\ Mapping.prop reg md = Some pd.
Proof.
  intros Hp Hm. unfold PhysicalProperty.mapping in Hm.
  destruct (p_mapping pd) as [m |] eqn:Em; [| discriminate].
  destruct (wf_phys_mapping reg Hwf pd p m Hp Em) as (md' & Hmd & Hprop & Hn).
  rewrite Hmd in Hm. injection Hm as <-. rewrite Hn.
  split; [done |]. unfold Mapping.prop. by rewrite Hprop.
Qed.

Lemma phys_reciprocal_spec (p : string) (pd rd : PhysD) :
  lookup_phys reg p = Some pd -> PhysicalProperty.reciprocal reg pd = Some rd ->
  p_name rd <> p /\ lookup_phys reg (p_name rd) = Some rd /\
  PhysicalProperty.reciprocal reg rd = Some pd.
Proof.
  intros Hp Hr. unfold PhysicalProperty.reciprocal in Hr.
  destruct (p_reciprocal pd) as [r |] eqn:Er; [| discriminate].
  destruct (wf_phys_reciprocal reg Hwf pd p r Hp Er) as (Hne & rd' & Hrd & Hback & Hn).
  rewrite Hrd in Hr. injection Hr as <-. rewrite Hn.
  split_and!; [done | done |]. unfold PhysicalProperty.reciprocal. by rewrite Hback.
Qed.

Lemma mapping_prop_spec (m : string) (md : MappingD) (pd : PhysD) :
  lookup_mapping reg m = Some md -> Mapping.prop reg md = Some pd ->
  lookup_phys reg (p_name pd) = Some pd /\ PhysicalProperty.mapping reg pd = Some md.
Proof.
  intros Hm Hp. unfold Mapping.prop in Hp.
  destruct (m_prop md) as [p |] eqn:Ep; [| discriminate].
  destruct (wf_mapping_prop reg Hwf md m p Hm Ep) as (pd' & Hpd & Hback & Hn).
  rewrite Hpd in Hp. injection Hp as <-. rewrite Hn.
  split; [done |]. unfold PhysicalProperty.mapping. by rewrite Hback.
Qed.

(** The attributes a write to [n] clears. *)
Definition targets (n : string) : list string :=
  match reg !! n with
  | Some (DMapping md) => Mapping.clear_targets reg md
  | Some (DPhys pd) => PhysicalProperty.clear_targets reg pd
  | _ => []
  end.

Lemma targets_phys (p : string) (pd : PhysD) :
  lookup_phys reg p = Some pd -> targets p = PhysicalProperty.clear_targets reg pd.
Proof. unfold lookup_phys, targets. destruct (reg !! p) as [[] |]; congruence. Qed.

Lemma targets_mapping (m : string) (md : MappingD) :
  lookup_mapping reg m = Some md -> targets m = Mapping.clear_targets reg md.
Proof. unfold lookup_mapping, targets. destruct (reg !! m) as [[] |]; congruence. Qed.

(** The mapping clears what its property clears, with the property in
    place of the mapping. *)
Lemma mapping_targets_of_prop (md : MappingD) (pd : PhysD) :
  Mapping.prop reg md = Some pd ->
  Mapping.clear_targets reg md =
    p_name pd :: match PhysicalProperty.reciprocal reg pd with
                 | Some r => p_name r :: match PhysicalProperty.mapping reg r with
                                         | Some rm => [m_name rm]
                                         | None => []
                                         end
                 | None => []
                 end.
Proof.
  intros Hp. unfold Mapping.clear_targets, Mapping.reciprocal_prop, Mapping.reciprocal.
  rewrite Hp. simpl. destruct (PhysicalProperty.reciprocal reg pd) as [r |]; [| done].
  by destruct (PhysicalProperty.mapping reg r).
Qed.

(** The members of the group of a physical property [p]: the property,
    its mapping, its reciprocal and the reciprocal's mapping. *)
Definition group_of (pd : PhysD) : list string :=
  p_name pd ::
  match PhysicalProperty.mapping reg pd with Some m => [m_name m] | None => [] end ++
  match PhysicalProperty.reciprocal reg pd with
  | Some r => p_name r :: match PhysicalProperty.mapping reg r with
                          | Some rm => [m_name rm]
                          | None => []
                          end
  | None => []
  end.

Lemma group_of_reciprocal (p : string) (pd rd : PhysD) (k : string) :
  lookup_phys reg p = Some pd -> PhysicalProperty.reciprocal reg pd = Some rd ->
  k ∈ group_of pd <-> k ∈ group_of rd.
Proof.
  intros Hp Hr. destruct (phys_reciprocal_spec p pd rd Hp Hr) as (_ & _ & Hback).
  unfold group_of. rewrite Hr, Hback.
  destruct (PhysicalProperty.mapping reg pd), (PhysicalProperty.mapping reg rd); set_solver.
Qed.

(** A name holds one kind of descriptor. *)
Lemma phys_mapping_name_ne (a b : string) (pd : PhysD) (md : MappingD) :
  lookup_phys reg a = Some pd -> lookup_mapping reg b = Some md -> a <> b.
Proof.
  unfold lookup_phys, lookup_mapping. intros Ha Hb ->.
  destruct (reg !! b) as [[] |]; congruence.
Qed.

(** The group of a registered attribute: the group of its property for
    a mapping bound to one, the mapping alone otherwise. *)
Definition group (n : string) : list string :=
  match reg !! n with
  | Some (DPhys pd) => group_of pd
  | Some (DMapping md) =>
      match Mapping.prop reg md with Some pd => group_of pd | None => [n] end
  | _ => []
  end.

Lemma group_phys (p : string) (pd : PhysD) :
  lookup_phys reg p = Some pd -> group p = group_of pd.
Proof. unfold lookup_phys, group. destruct (reg !! p) as [[] |]; congruence. Qed.

Lemma group_mapping_prop (m : string) (md : MappingD) (pd : PhysD) :
  lookup_mapping reg m = Some md -> Mapping.prop reg md = Some pd -> group m = group_of pd.
Proof.
  unfold lookup_mapping, group. intros Hm Hp.
  destruct (reg !! m) as [[] |]; simplify_eq. by rewrite Hp.
Qed.

Lemma group_mapping_member (p : string) (pd : PhysD) (md : MappingD) :
  lookup_phys reg p = Some pd -> PhysicalProperty.mapping reg pd = Some md ->
  group (m_name md) = group_of pd.
Proof.
  intros Hp Hm. destruct (phys_mapping_spec p pd md Hp Hm) as [Hl Hb].
  exact (group_mapping_prop _ _ _ Hl Hb).
Qed.

Lemma group_reciprocal_member (p : string) (pd rd : PhysD) (j : string) :
  lookup_phys reg p = Some pd -> PhysicalProperty.reciprocal reg pd = Some rd ->
  j ∈ group (p_name rd) <-> j ∈ group_of pd.
Proof.
  intros Hp Hr. destruct (phys_reciprocal_spec p pd rd Hp Hr) as (_ & Hrl & _).
  rewrite (group_phys _ _ Hrl). symmetry. exact (group_of_reciprocal p pd rd j Hp Hr).
Qed.

Lemma group_rmapping_member (p : string) (pd rd : PhysD) (rmd : MappingD) (j : string) :
  lookup_phys reg p = Some pd -> PhysicalProperty.reciprocal reg pd = Some rd ->
  PhysicalProperty.mapping reg rd = Some rmd ->
  j ∈ group (m_name rmd) <-> j ∈ group_of pd.
Proof.
  intros Hp Hr Hrm. destruct (phys_reciprocal_spec p pd rd Hp Hr) as (_ & Hrl & _).
  rewrite (group_mapping_member _ _ _ Hrl Hrm). symmetry.
  exact (group_of_reciprocal p pd rd j Hp Hr).
Qed.

(** Every member of a property's group has that group, up to order. *)
Lemma group_of_member (p : string) (pd : PhysD) (k j : string) :
  lookup_phys reg p = Some pd -> k ∈ group_of pd ->
  j ∈ group k <-> j ∈ group_of pd.
Proof.
  intros Hp Hk. unfold group_of in Hk.
  rewrite elem_of_cons, elem_of_app in Hk.
  destruct Hk as [-> | [Hk | Hk]].
  - rewrite (lookup_phys_name reg Hwf _ _ Hp), (group_phys _ _ Hp). done.
  - destruct (PhysicalProperty.mapping reg pd) as [md |] eqn:Hm; [| set_solver].
    apply list_elem_of_singleton in Hk as ->.
    by rewrite (group_mapping_member _ _ _ Hp Hm).
  - destruct (PhysicalProperty.reciprocal reg pd) as [rd |] eqn:Hr; [| set_solver].
    rewrite elem_of_cons in Hk. destruct Hk as [-> | Hk].
    + exact (group_reciprocal_member _ _ _ j Hp Hr).
    + destruct (PhysicalProperty.mapping reg rd) as [rmd |] eqn:Hrm; [| set_solver].
      apply list_elem_of_singleton in Hk as ->.
      exact (group_rmapping_member _ _ _ _ j Hp Hr Hrm).
Qed.

Lemma phys_targets_ne (p : string) (pd : PhysD) (k : string) :
  lookup_phys reg p = Some pd -> k ∈ PhysicalProperty.clear_targets reg pd -> k <> p.
Proof.
  intros Hp Hk ->. unfold PhysicalProperty.clear_targets in Hk.
  rewrite elem_of_app in Hk. destruct Hk as [Hk | Hk].
  - destruct (PhysicalProperty.mapping reg pd) as [md |] eqn:Hm; [| set_solver].
    apply list_elem_of_singleton in Hk.
    destruct (phys_mapping_spec p pd md Hp Hm) as [Hl _].
    rewrite <- Hk in Hl. exact (phys_mapping_name_ne _ _ _ _ Hp Hl eq_refl).
  - destruct (PhysicalProperty.reciprocal reg pd) as [rd |] eqn:Hr; [| set_solver].
    destruct (phys_reciprocal_spec p pd rd Hp Hr) as (Hne & Hrl & _).
    rewrite elem_of_cons in Hk. destruct Hk as [Hk | Hk]; [congruence |].
    destruct (PhysicalProperty.mapping reg rd) as [rmd |] eqn:Hrm; [| set_solver].
    apply list_elem_of_singleton in Hk.
    destruct (phys_mapping_spec _ rd rmd Hrl Hrm) as [Hl _].
    rewrite <- Hk in Hl. exact (phys_mapping_name_ne _ _ _ _ Hp Hl eq_refl).
Qed.

(** The mapping of a property is the only mapping whose property it is;
    in particular it is not the mapping of the reciprocal. *)
Lemma mapping_of_reciprocal_ne (p : string) (pd rd : PhysD) (md rmd : MappingD) :
  lookup_phys reg p = Some pd -> PhysicalProperty.mapping reg pd = Some md ->
  PhysicalProperty.reciprocal reg pd = Some rd -> PhysicalProperty.mapping reg rd = Some rmd ->
  m_name rmd <> m_name md.
Proof.
  intros Hp Hm Hr Hrm Heq.
  destruct (phys_mapping_spec p pd md Hp Hm) as [Hl Hb].
  destruct (phys_reciprocal_spec p pd rd Hp Hr) as (Hne & Hrl & _).
  destruct (phys_mapping_spec _ rd rmd Hrl Hrm) as [Hl' Hb'].
  rewrite Heq, Hl in Hl'. injection Hl' as <-. rewrite Hb in Hb'. injection Hb' as <-.
  apply Hne. exact (lookup_phys_name reg Hwf _ _ Hp).
Qed.

Lemma mapping_targets_ne (m : string) (md : MappingD) (pd : PhysD) (k : string) :
  lookup_mapping reg m = Some md -> Mapping.prop reg md = Some pd ->
  k ∈ Mapping.clear_targets reg md -> k <> m.
Proof.
  intros Hm Hp Hk ->. rewrite (mapping_targets_of_prop md pd Hp) in Hk.
  destruct (mapping_prop_spec m md pd Hm Hp) as [Hpl Hmap].
  rewrite elem_of_cons in Hk. destruct Hk as [Hk | Hk].
  - rewrite <- Hk in Hpl. exact (phys_mapping_name_ne _ _ _ _ Hpl Hm eq_refl).
  - destruct (PhysicalProperty.reciprocal reg pd) as [rd |] eqn:Hr; [| set_solver].
    destruct (phys_reciprocal_spec _ pd rd Hpl Hr) as (_ & Hrl & _).
    rewrite elem_of_cons in Hk. destruct Hk as [Hk | Hk].
    + rewrite <- Hk in Hrl. exact (phys_mapping_name_ne _ _ _ _ Hrl Hm eq_refl).
    + destruct (PhysicalProperty.mapping reg rd) as [rmd |] eqn:Hrm; [| set_solver].
      apply list_elem_of_singleton in Hk.
      apply (mapping_of_reciprocal_ne _ pd rd md rmd Hpl Hmap Hr Hrm).
      rewrite <- Hk. symmetry. exact (lookup_mapping_name reg Hwf _ _ Hm).
Qed.

(** A write clears exactly the other members of its group. *)
Lemma targets_group (n k : string) : k ∈ targets n <-> k ∈ group n /\ k <> n.
Proof.
  unfold targets, group. destruct (reg !! n) as [[md | pd | dd] |] eqn:En.
  - assert (Hm : lookup_mapping reg n = Some md) by (unfold lookup_mapping; by rewrite En).
    destruct (Mapping.prop reg md) as [pd |] eqn:Hp.
    + pose proof (mapping_targets_ne n md pd k Hm Hp) as Hne.
      destruct (mapping_prop_spec n md pd Hm Hp) as [_ Hmap].
      rewrite (mapping_targets_of_prop md pd Hp) in Hne |- *.
      unfold group_of. rewrite Hmap.
      rewrite (lookup_mapping_name reg Hwf _ _ Hm). set_solver.
    + unfold Mapping.clear_targets, Mapping.reciprocal_prop, Mapping.reciprocal.
      rewrite Hp. set_solver.
  - assert (Hp : lookup_phys reg n = Some pd) by (unfold lookup_phys; by rewrite En).
    pose proof (phys_targets_ne n pd k Hp) as Hne.
    unfold group_of. rewrite (lookup_phys_name reg Hwf _ _ Hp).
    unfold PhysicalProperty.clear_targets in Hne |- *. set_solver.
  - set_solver.
  - set_solver.
Qed.

Lemma self_in_group (n : string) (pd : PhysD) :
  (lookup_phys reg n = Some pd \/
   exists md, lookup_mapping reg n = Some md /\ Mapping.prop reg md = Some pd) ->
  n ∈ group_of pd /\ lookup_phys reg (p_name pd) = Some pd /\ group n = group_of pd.
Proof.
  intros [Hp | (md & Hm & Hprop)].
  - rewrite (group_phys _ _ Hp). pose proof (lookup_phys_name reg Hwf _ _ Hp) as <-.
    unfold group_of. set_solver.
  - destruct (mapping_prop_spec n md pd Hm Hprop) as [Hpl Hmap].
    rewrite (group_mapping_prop _ _ _ Hm Hprop). split_and!; [| done | done].
    unfold group_of. rewrite Hmap, (lookup_mapping_name reg Hwf _ _ Hm). set_solver.
Qed.

(** If a write to [n1] clears [n2], a write to [n2] clears [n1]. *)
Lemma targets_sym (n1 n2 : string) : n2 ∈ targets n1 -> n1 ∈ targets n2.
Proof.
  rewrite !targets_group. intros [Hin Hne]. split; [| congruence].
  unfold group in Hin |- *. destruct (reg !! n1) as [[md | pd | dd] |] eqn:En.
  - assert (Hm : lookup_mapping reg n1 = Some md) by (unfold lookup_mapping; by rewrite En).
    destruct (Mapping.prop reg md) as [pd |] eqn:Hp; [| set_solver].
    destruct (self_in_group n1 pd (or_intror (ex_intro _ md (conj Hm Hp))))
      as (Hself & Hpl & _).
    fold (group n2). by apply (group_of_member _ pd n2 n1 Hpl Hin).
  - assert (Hp : lookup_phys reg n1 = Some pd) by (unfold lookup_phys; by rewrite En).
    destruct (self_in_group n1 pd (or_introl Hp)) as (Hself & Hpl & _).
    fold (group n2). by apply (group_of_member _ pd n2 n1 Hpl Hin).
  - set_solver.
  - set_solver.
Qed.
(** The groups partition the attributes: a member of a group has that
    group. *)
Lemma group_closed (n k j : string) : k ∈ group n -> (j ∈ group k <-> j ∈ group n).
Proof.
  intros Hk. destruct (reg !! n) as [[md | pd | dd] |] eqn:En.
  - assert (Hm : lookup_mapping reg n = Some md) by (unfold lookup_mapping; by rewrite En).
    destruct (Mapping.prop reg md) as [pd |] eqn:Hp.
    + destruct (self_in_group n pd (or_intror (ex_intro _ md (conj Hm Hp)))) as (_ & Hpl & Hg).
      rewrite Hg in Hk |- *. exact (group_of_member _ pd k j Hpl Hk).
    + unfold group in Hk. rewrite En, Hp in Hk. apply list_elem_of_singleton in Hk as ->. done.
  - assert (Hp : lookup_phys reg n = Some pd) by (unfold lookup_phys; by rewrite En).
    destruct (self_in_group n pd (or_introl Hp)) as (_ & Hpl & Hg).
    rewrite Hg in Hk |- *. exact (group_of_member _ pd k j Hpl Hk).
  - unfold group in Hk. rewrite En in Hk. set_solver.
  - unfold group in Hk. rewrite En in Hk. set_solver.
Qed.

Lemma group_self (n k : string) : k ∈ group n -> n ∈ group n.
Proof.
  intros Hk. unfold group in Hk |- *. destruct (reg !! n) as [[md | pd | dd] |] eqn:En.
  - assert (Hm : lookup_mapping reg n = Some md) by (unfold lookup_mapping; by rewrite En).
    destruct (Mapping.prop reg md) as [pd |] eqn:Hp; [| set_solver].
    exact (proj1 (self_in_group n pd (or_intror (ex_intro _ md (conj Hm Hp))))).
  - assert (Hp : lookup_phys reg n = Some pd) by (unfold lookup_phys; by rewrite En).
    exact (proj1 (self_in_group n pd (or_introl Hp))).
  - set_solver.
  - set_solver.
Qed.

(** Two writes neither of which clears the other clear disjoint sets. *)
Lemma targets_disjoint (n1 n2 k : string) :
  n1 <> n2 -> n2 ∉ targets n1 -> k ∈ targets n1 -> k ∉ targets n2.
Proof.
  rewrite !targets_group. intros Hne Hn [Hk1 Hkn1] [Hk2 Hkn2]. apply Hn. split; [| congruence].
  apply (group_closed n1 k n2 Hk1). apply (group_closed n2 k n2 Hk2).
  exact (group_self n2 k Hk2).
Qed.
End Links.
