(* ===== verification/Invariants.v ===== *)
(** * Invariants of an instance

    Two invariants hold in every state an instance of a well-formed class
    can reach by writes to its attributes and changes of its model:
    - [typed]: a mapping slot holds [None] or a map, a property slot
      [None] or an array, a derivative slot nothing;
    - [exclusive]: of two attributes of which a write to one clears the
      other, at most one holds a value; so at most one member of a group
      (a property, its mapping, its reciprocal and the reciprocal's
      mapping) is set, which is the one source the group's values are
      derived from.
    Both rest on [setattr_spec], the effect of one write on the
    backend. *)

From stdpp Require Import base gmap strings.
From Stdlib Require Import QArith.
From S2P Require Import Prelude Host QArrays Descriptors Factory.
From S2P Require Import PhysicalProp MappingProp DerivativeProp HostClass Links Scenario.

Section Invariants.
Context {A M D : Type} `{!MapCapability A M D}.
Abbreviation Value := (Value A M D).
Abbreviation Host := (Host A M D).

(** What the validation of each kind of descriptor lets through. *)
Definition slot_ok (d : Descriptor) (v : Value) : bool :=
  match d, v with
  | _, VNone => true
  | DMapping _, VMap _ => true
  | DPhys _, VArray _ => true
  | _, _ => false
  end.

Definition typed (reg : Registry) (h : Host) : Prop :=
  forall n d, reg !! n = Some d -> slot_ok d (_get h n) = true.

Definition live (h : Host) (n : string) : Prop := is_none (_get h n) = false.

Definition exclusive (reg : Registry) (h : Host) : Prop :=
  forall n k, k ∈ targets reg n -> live h n -> ~ live h k.

(** The effect of one successful write. *)
Lemma setattr_spec (reg : Registry) (h h' : Host) (n : string) (v : Value) :
  wf_registry reg -> setattr reg h n v = Ok h' ->
  (exists d, reg !! n = Some d /\ slot_ok d v = true) /\ model h' = model h /\
  forall k, _get h' k =
    if decide (k ∈ targets reg n) then VNone else if decide (n = k) then v else _get h k.
Proof.
  intros Hwf Hset. rewrite setattr_dispatch in Hset.
  destruct (reg !! n) as [[md | pd | dd] |] eqn:En; try discriminate.
  - assert (Hm : lookup_mapping reg n = Some md) by (unfold lookup_mapping; by rewrite En).
    unfold Mapping.fset in Hset. inv_result Hset. simpl_result.
    destruct (Mapping.mapping_validate_ok md v a Ha) as [-> Hv].
    split_and!.
    + exists (DMapping md). split; [done |]. by destruct Hv as [-> | [? ->]].
    + by rewrite Mapping.clear_props_model.
    + intros k. rewrite Mapping.clear_props_get, (targets_mapping reg n md Hm), _get_set.
      by rewrite (lookup_mapping_name reg Hwf _ _ Hm).
  - assert (Hp : lookup_phys reg n = Some pd) by (unfold lookup_phys; by rewrite En).
    unfold PhysicalProperty.fset in Hset. inv_result Hset. simpl_result.
    destruct (PhysicalProperty.phys_validate_ok v a Ha) as [-> Hv].
    split_and!.
    + exists (DPhys pd). split; [done |]. by destruct Hv as [-> | [? ->]].
    + by rewrite PhysicalProperty.clear_mappings_model.
    + intros k. rewrite PhysicalProperty.clear_mappings_get, (targets_phys reg n pd Hp), _get_set.
      by rewrite (lookup_phys_name reg Hwf _ _ Hp).
Qed.

Lemma setattr_typed (reg : Registry) (h h' : Host) (n : string) (v : Value) :
  wf_registry reg -> typed reg h -> setattr reg h n v = Ok h' -> typed reg h'.
Proof.
  intros Hwf Ht Hset. destruct (setattr_spec reg h h' n v Hwf Hset) as ([d [Hd Hv]] & _ & Hget).
  intros k dk Hk. rewrite Hget. case_decide; [by destruct dk |].
  case_decide; [subst; congruence | auto].
Qed.

Lemma setattr_exclusive (reg : Registry) (h h' : Host) (n : string) (v : Value) :
  wf_registry reg -> exclusive reg h -> setattr reg h n v = Ok h' -> exclusive reg h'.
Proof.
  intros Hwf Hx Hset. destruct (setattr_spec reg h h' n v Hwf Hset) as (_ & _ & Hget).
  intros n1 k Hk. unfold live. rewrite !Hget.
  destruct (decide (n1 ∈ targets reg n)); [done |].
  destruct (decide (k ∈ targets reg n)); [done |].
  destruct (decide (n = n1)) as [-> | Hne1]; [done |].
  destruct (decide (n = k)) as [-> | Hne2].
  - pose proof (targets_sym reg Hwf _ _ Hk). contradiction.
  - exact (Hx n1 k Hk).
Qed.

Lemma set_model_get (h : Host) (v : Value) (k : string) : _get (set_model h v) k = _get h k.
Proof. reflexivity. Qed.

Lemma fresh_typed (reg : Registry) (m : Value) : typed reg (fresh_host m).
Proof. intros n d _. rewrite _get_fresh. by destruct d. Qed.

Lemma fresh_exclusive (reg : Registry) (m : Value) : exclusive reg (fresh_host m).
Proof. intros n k _. unfold live. by rewrite _get_fresh. Qed.
End Invariants.

Section Reachable.
Context {A M D : Type} `{!MapCapability A M D}.

Lemma reachable_inv (reg : Registry) (h : Host A M D) :
  wf_registry reg -> reachable reg h -> typed reg h /\ exclusive reg h.
Proof.
  intros Hwf Hr. induction Hr as [m | h h' Hr [IHt IHx] Hstep].
  - split; [apply fresh_typed | apply fresh_exclusive].
  - destruct Hstep as [h h' n v Hset | h v].
    + split; [exact (setattr_typed reg h h' n v Hwf IHt Hset)
             | exact (setattr_exclusive reg h h' n v Hwf IHx Hset)].
    + split; [intros n d Hd; apply IHt, Hd | intros n k Hk; apply IHx, Hk].
Qed.

(** Two live members of one group are the same attribute. *)
Lemma exclusive_group (reg : Registry) (h : Host A M D) (p : string) (pd : PhysD) (k1 k2 : string) :
  wf_registry reg -> exclusive reg h -> lookup_phys reg p = Some pd ->
  k1 ∈ group_of reg pd -> k2 ∈ group_of reg pd -> live h k1 -> live h k2 -> k1 = k2.
Proof.
  intros Hwf Hx Hp H1 H2 L1 L2. destruct (decide (k1 = k2)) as [| Hne]; [done |].
  exfalso. apply (Hx k1 k2); [| done | done].
  apply (targets_group reg Hwf). split; [| congruence].
  by apply (group_of_member reg Hwf p pd k1 k2 Hp H1).
Qed.

(** C2: In every reachable state of an instance of a well-formed class,
    at most one member of the group of a physical property (the
    property, its mapping, its reciprocal, the reciprocal's mapping)
    holds a value: the group's values derive from that one source. *)
Theorem reachable_single_source (reg : Registry) (h : Host A M D) (p : string) (pd : PhysD)
    (k1 k2 : string) :
  wf_registry reg -> reachable reg h -> lookup_phys reg p = Some pd ->
  k1 ∈ group_of reg pd -> k2 ∈ group_of reg pd ->
  is_none (_get h k1) = false -> is_none (_get h k2) = false -> k1 = k2.
Proof.
  intros Hwf Hr Hp H1 H2 L1 L2. destruct (reachable_inv reg h Hwf Hr) as [_ Hx].
  exact (exclusive_group reg h p pd k1 k2 Hwf Hx Hp H1 H2 L1 L2).
Qed.

(** C3: In every reachable state of an instance of a well-formed class,
    a mapping attribute stores [None] or a map, a physical property
    [None] or an array, and a derivative nothing. *)
Theorem reachable_typed (reg : Registry) (h : Host A M D) :
  wf_registry reg -> reachable reg h -> typed reg h.
Proof. intros Hwf Hr. exact (proj1 (reachable_inv reg h Hwf Hr)). Qed.
End Reachable.

Lemma reachable_single_source_witness :
  wf_registry conductivity_class /\ reachable conductivity_class scenario_sigmaMap /\
  "sigmaMap" = "sigmaMap".
Proof.
  split; [decide_true |]. split; [reach_by_set "sigmaMap" (@VMap (list Q) SMap (list Q) IdentityMap) |].
  apply (reachable_single_source conductivity_class scenario_sigmaMap "sigma" sigma_desc
           "sigmaMap" "sigmaMap").
  - decide_true.
  - reach_by_set "sigmaMap" (@VMap (list Q) SMap (list Q) IdentityMap).
  - vm_compute. reflexivity.
  - decide_true.
  - decide_true.
  - vm_compute. reflexivity.
  - vm_compute. reflexivity.
Defined.

Lemma reachable_typed_witness :
  wf_registry conductivity_class /\ typed conductivity_class scenario_sigma.
Proof.
  split; [decide_true |].
  apply reachable_typed.
  - decide_true.
  - reach_by_set "sigma" (@VArray (list Q) SMap (list Q) [1; 2; 4]%Q).
Defined.
