(* ===== verification/Pairs.v ===== *)
(** * Reciprocal pairs, by attribute name

    The theorems about reads and writes name attributes as a class body
    does: [mapping_of reg p = Some m] says that the property [p] is bound
    to the mapping [m], [reciprocal_of reg p = Some r] that [r] is its
    reciprocal.  In a well-formed class these give the descriptor objects
    with all their back links, and the group of [p] is [[p; m; r; rm]]
    with four distinct names. *)

From stdpp Require Import base gmap strings.
From S2P Require Import Prelude Host Descriptors PhysicalProp MappingProp DerivativeProp Links.

Definition mapping_of (reg : Registry) (p : string) : option string :=
  match lookup_phys reg p with Some pd => p_mapping pd | None => None end.

Definition reciprocal_of (reg : Registry) (p : string) : option string :=
  match lookup_phys reg p with Some pd => p_reciprocal pd | None => None end.

Definition derivative_of (reg : Registry) (d : string) : option string :=
  match reg !! d with Some (DDeriv dd) => d_physical_property dd | _ => None end.

Section Pairs.
Context (reg : Registry) (Hwf : wf_registry reg).

Lemma mapping_of_spec (p m : string) :
  mapping_of reg p = Some m ->
  exists pd md, lookup_phys reg p = Some pd /\ lookup_mapping reg m = Some md /\
    PhysicalProperty.mapping reg pd = Some md /\ Mapping.prop reg md = Some pd /\ m_name md = m.
Proof.
  unfold mapping_of. destruct (lookup_phys reg p) as [pd |] eqn:Hp; [| discriminate].
  intros Hm. destruct (wf_phys_mapping reg Hwf pd p m Hp Hm) as (md & Hl & Hprop & Hn).
  exists pd, md. split_and!; auto.
  - unfold PhysicalProperty.mapping. by rewrite Hm.
  - unfold Mapping.prop. by rewrite Hprop.
Qed.

Lemma mapping_of_none (p : string) (pd : PhysD) :
  lookup_phys reg p = Some pd -> mapping_of reg p = None -> PhysicalProperty.mapping reg pd = None.
Proof. unfold mapping_of, PhysicalProperty.mapping. intros -> ->. done. Qed.

Lemma reciprocal_of_spec (p r : string) :
  reciprocal_of reg p = Some r ->
  exists pd rd, lookup_phys reg p = Some pd /\ lookup_phys reg r = Some rd /\
    PhysicalProperty.reciprocal reg pd = Some rd /\ PhysicalProperty.reciprocal reg rd = Some pd /\
    p_name rd = r /\ p_name pd = p /\ r <> p.
Proof.
  unfold reciprocal_of. destruct (lookup_phys reg p) as [pd |] eqn:Hp; [| discriminate].
  intros Hr. destruct (wf_phys_reciprocal reg Hwf pd p r Hp Hr) as (Hne & rd & Hl & Hback & Hn).
  exists pd, rd. split_and!; auto.
  - unfold PhysicalProperty.reciprocal. by rewrite Hr.
  - unfold PhysicalProperty.reciprocal. rewrite Hback. exact Hp.
  - exact (lookup_phys_name reg Hwf _ _ Hp).
Qed.

Lemma reciprocal_of_sym (p r : string) :
  reciprocal_of reg p = Some r -> reciprocal_of reg r = Some p.
Proof.
  unfold reciprocal_of. destruct (lookup_phys reg p) as [pd |] eqn:Hp; [| discriminate].
  intros Hr. destruct (wf_phys_reciprocal reg Hwf pd p r Hp Hr) as (_ & rd & -> & Hback & _).
  exact Hback.
Qed.

(** Back from the descriptor objects to the names. *)
Lemma mapping_of_none_back (p : string) (pd : PhysD) :
  lookup_phys reg p = Some pd -> PhysicalProperty.mapping reg pd = None -> mapping_of reg p = None.
Proof.
  unfold mapping_of, PhysicalProperty.mapping. intros Hp Hm. rewrite Hp.
  destruct (p_mapping pd) as [x |] eqn:Ex; [| done].
  destruct (wf_phys_mapping reg Hwf pd p x Hp Ex) as (md & Hl & _). congruence.
Qed.

Lemma reciprocal_of_back (p : string) (pd rd : PhysD) :
  lookup_phys reg p = Some pd -> PhysicalProperty.reciprocal reg pd = Some rd ->
  reciprocal_of reg p = Some (p_name rd).
Proof.
  unfold reciprocal_of, PhysicalProperty.reciprocal. intros Hp Hr. rewrite Hp.
  destruct (p_reciprocal pd) as [x |]; [| discriminate].
  by rewrite (lookup_phys_name reg Hwf x rd Hr).
Qed.

(** The group of a property with a mapping and a reciprocal whose own
    mapping is [rm]. *)
Lemma pair_group (p m r rm : string) :
  mapping_of reg p = Some m -> reciprocal_of reg p = Some r -> mapping_of reg r = Some rm ->
  forall j, j ∈ group reg p <-> j ∈ [p; m; r; rm].
Proof.
  intros Hm Hr Hrm j.
  destruct (mapping_of_spec p m Hm) as (pd & md & Hp & _ & Hpm & _ & Hmn).
  destruct (reciprocal_of_spec p r Hr) as (pd' & rd & Hp' & Hrl & Hpr & _ & Hrn & Hpn & _).
  rewrite Hp in Hp'. injection Hp' as <-.
  destruct (mapping_of_spec r rm Hrm) as (rd' & rmd & Hrl' & _ & Hrmap & _ & Hrmn).
  rewrite Hrl in Hrl'. injection Hrl' as <-.
  rewrite (group_phys reg p pd Hp). unfold group_of.
  rewrite Hpm, Hpr, Hrmap, Hmn, Hrn, Hrmn, Hpn. set_solver.
Qed.

(** The four members are distinct attributes. *)
Lemma pair_distinct (p m r rm : string) :
  mapping_of reg p = Some m -> reciprocal_of reg p = Some r -> mapping_of reg r = Some rm ->
  NoDup [p; m; r; rm].
Proof.
  intros Hm Hr Hrm.
  destruct (mapping_of_spec p m Hm) as (pd & md & Hp & Hml & Hpm & _ & Hmn).
  destruct (reciprocal_of_spec p r Hr) as (pd' & rd & Hp' & Hrl & Hpr & _ & _ & _ & Hne).
  rewrite Hp in Hp'. injection Hp' as <-.
  destruct (mapping_of_spec r rm Hrm) as (rd' & rmd & Hrl' & Hrml & Hrmap & _ & Hrmn).
  rewrite Hrl in Hrl'. injection Hrl' as <-.
  pose proof (phys_mapping_name_ne reg _ _ _ _ Hp Hml).
  pose proof (phys_mapping_name_ne reg _ _ _ _ Hp Hrml).
  pose proof (phys_mapping_name_ne reg _ _ _ _ Hrl Hml).
  pose proof (phys_mapping_name_ne reg _ _ _ _ Hrl Hrml).
  pose proof (mapping_of_reciprocal_ne reg Hwf p pd rd md rmd Hp Hpm Hpr Hrmap).
  rewrite Hmn, Hrmn in *.
  repeat constructor; set_solver.
Qed.

(** A write to a member of the group clears exactly the other members. *)
Lemma pair_targets (p m r rm n k : string) :
  mapping_of reg p = Some m -> reciprocal_of reg p = Some r -> mapping_of reg r = Some rm ->
  n ∈ [p; m; r; rm] -> (k ∈ targets reg n <-> k ∈ [p; m; r; rm] /\ k <> n).
Proof.
  intros Hm Hr Hrm Hn. rewrite (targets_group reg Hwf).
  destruct (mapping_of_spec p m Hm) as (pd & _ & Hp & _).
  assert (Hin : n ∈ group_of reg pd).
  { rewrite <- (group_phys reg p pd Hp). by apply (pair_group p m r rm). }
  rewrite (group_of_member reg Hwf p pd n k Hp Hin), <- (group_phys reg p pd Hp).
  by rewrite (pair_group p m r rm Hm Hr Hrm k).
Qed.
End Pairs.
