(* ===== verification/Resolution.v ===== *)
(** * How reads resolve after writes

    The behaviour the specification lists for one reciprocal pair
    [(p, m)] and [(r, rm)] of invertible properties: a write to [p]
    leaves [p] as the one source and [r] reads as [1 / p]; a write of a
    map [f] to [m] makes [p] read as [f * model] and [r] as
    [1 / (f * model)]; and with no source at all, a read of [p] raises
    a [TypeError] ([None * model]).  The fuel given to [getattr] is the
    number of frames the read needs. *)

From Stdlib Require Import QArith.
From stdpp Require Import base gmap strings.
From S2P Require Import Prelude Host QArrays Descriptors Factory.
From S2P Require Import PhysicalProp MappingProp DerivativeProp HostClass Scenario.
From S2P Require Import Links Invariants Pairs.

Section Resolution.
Context {A M D : Type} `{!MapCapability A M D}.
Abbreviation Value := (Value A M D).
Abbreviation Host := (Host A M D).
Context (reg : Registry) (Hwf : wf_registry reg) (p m r rm : string).
Hypothesis (Hm : mapping_of reg p = Some m) (Hr : reciprocal_of reg p = Some r)
  (Hrm : mapping_of reg r = Some rm).

Lemma pair_ne : p <> m /\ p <> r /\ p <> rm /\ m <> r /\ m <> rm /\ r <> rm.
Proof.
  pose proof (pair_distinct reg Hwf p m r rm Hm Hr Hrm) as Hnd.
  rewrite !NoDup_cons in Hnd. set_solver.
Qed.

(** After a successful write to a member [n] of the group, [n] holds the
    written value and the other members hold [None]. *)
Lemma setattr_group_get (h h' : Host) (n : string) (v : Value) (k : string) :
  setattr reg h n v = Ok h' -> n ∈ [p; m; r; rm] -> k ∈ [p; m; r; rm] ->
  _get h' k = if decide (k = n) then v else VNone.
Proof.
  intros Hset Hn Hk. destruct (setattr_spec reg h h' n v Hwf Hset) as (_ & _ & Hget).
  rewrite Hget. pose proof (pair_targets reg Hwf p m r rm n k Hm Hr Hrm Hn) as Ht.
  destruct (decide (k = n)) as [-> | Hkn]; simpl.
  - rewrite decide_False by (intros Hin; apply Ht in Hin; tauto). by rewrite decide_True.
  - rewrite decide_True; [done |]. apply Ht. split; [done | congruence].
Qed.

(** The descriptors behind the names. *)
Lemma pair_descriptors :
  exists pd md rd rmd,
    lookup_phys reg p = Some pd /\ lookup_mapping reg m = Some md /\
    lookup_phys reg r = Some rd /\ lookup_mapping reg rm = Some rmd /\
    PhysicalProperty.mapping reg pd = Some md /\ PhysicalProperty.reciprocal reg pd = Some rd /\
    PhysicalProperty.mapping reg rd = Some rmd /\ PhysicalProperty.reciprocal reg rd = Some pd /\
    Mapping.prop reg md = Some pd /\ Mapping.prop reg rmd = Some rd /\
    p_name pd = p /\ m_name md = m /\ p_name rd = r /\ m_name rmd = rm.
Proof.
  destruct (mapping_of_spec reg Hwf p m Hm) as (pd & md & Hp & Hml & Hpm & Hmp & Hmn).
  destruct (reciprocal_of_spec reg Hwf p r Hr) as (pd' & rd & Hp' & Hrl & Hpr & Hrp & Hrn & Hpn & _).
  rewrite Hp in Hp'. injection Hp' as <-.
  destruct (mapping_of_spec reg Hwf r rm Hrm) as (rd' & rmd & Hrl' & Hrml & Hrmap & Hrmp & Hrmn).
  rewrite Hrl in Hrl'. injection Hrl' as <-.
  exists pd, md, rd, rmd. split_and!; assumption.
Qed.

Lemma mapping_reciprocal_of_rm (rmd md : MappingD) (pd rd : PhysD) :
  Mapping.prop reg rmd = Some rd -> PhysicalProperty.reciprocal reg rd = Some pd ->
  PhysicalProperty.mapping reg pd = Some md -> Mapping.reciprocal reg rmd = Some md.
Proof. intros H1 H2 H3. unfold Mapping.reciprocal. by rewrite H1, H2. Qed.

(** Read a member of the group after a write, through [setattr_group_get]. *)
Ltac group_slot G :=
  rewrite G by (done || set_solver);
  first [rewrite decide_True by done | rewrite decide_False by congruence].

(** C4: After [p] is set to an array [a], the mapping of [p], the
    reciprocal [r] and the mapping of [r] hold [None], and [p] reads as
    [a] (the mutual exclusivity property of the specification). *)
Theorem set_then_get (h : Host) (a : A) (fuel : nat) :
  exists h', setattr reg h p (VArray a) = Ok h' /\
    _get h' m = VNone /\ _get h' r = VNone /\ _get h' rm = VNone /\
    getattr (S fuel) reg h' p = Ok (VArray a).
Proof.
  destruct pair_descriptors as (pd & md & rd & rmd & Hp & _ & _ & _ & _ & _ & _ & _ & _ & _ & Hpn & _).
  assert (Hset : setattr reg h p (VArray a) =
            Ok (PhysicalProperty.clear_mappings reg pd (_set h p (VArray a))))
    by (rewrite (setattr_phys reg h p pd _ Hp), <- Hpn; reflexivity).
  eexists. split; [exact Hset |].
  pose proof (fun k => setattr_group_get h _ p (VArray a) k Hset) as G.
  pose proof pair_ne as (? & ? & ? & ? & ? & ?).
  split_and!; [group_slot G; done .. |].
  rewrite (getattr_phys fuel reg _ p pd Hp), PhysicalProperty.fget_own;
    rewrite Hpn; group_slot G; done.
Qed.

(** C5: After [p] is set to an array [a], its reciprocal [r] reads as
    the elementwise inverse [1 / a]. *)
Theorem reciprocal_after_set (h h' : Host) (a : A) (fuel : nat) :
  setattr reg h p (VArray a) = Ok h' -> getattr (S fuel) reg h' r = Ok (VArray (recip a)).
Proof.
  intros Hset. pose proof (fun k => setattr_group_get h h' p (VArray a) k Hset) as G.
  destruct pair_descriptors as (pd & md & rd & rmd & Hp & _ & Hrl & _ & _ & _ & _ & Hrp & _ & _ & Hpn & _ & Hrn & _).
  pose proof pair_ne as (? & ? & ? & ? & ? & ?).
  rewrite (getattr_phys fuel reg _ r rd Hrl).
  rewrite (PhysicalProperty.fget_reciprocal_stored _ _ _ _ pd);
    [| rewrite Hrn; group_slot G; done | done | rewrite Hpn; group_slot G; done].
  rewrite Hpn. group_slot G. done.
Qed.

(** C6: After the mapping [m] of [p] is set to a map [f], and with the
    model an array [x], [p] reads as [f * x] and the other members of
    the group hold [None]. *)
Theorem mapping_derivation (h h' : Host) (f : M) (x : A) (fuel : nat) :
  setattr reg h m (VMap f) = Ok h' -> model h = VArray x ->
  _get h' p = VNone /\ _get h' r = VNone /\ _get h' rm = VNone /\
  getattr (S (S fuel)) reg h' p = Ok (VArray (map_apply f x)).
Proof.
  intros Hset Hx. pose proof (fun k => setattr_group_get h h' m (VMap f) k Hset) as G.
  destruct (setattr_spec reg h h' m _ Hwf Hset) as (_ & Hmodel & _).
  destruct pair_descriptors as (pd & md & rd & rmd & Hp & Hml & _ & _ & Hpm & Hpr & _ & _ & _ & _ & Hpn & Hmn & Hrn & _).
  pose proof pair_ne as (? & ? & ? & ? & ? & ?).
  split_and!; [group_slot G; done .. |].
  rewrite (getattr_phys _ reg _ p pd Hp).
  rewrite (PhysicalProperty.fget_mapping_read _ _ _ _ md);
    [| rewrite Hpn; group_slot G; done | done
     | intros rd' Hrd'; rewrite Hpr in Hrd'; injection Hrd' as <-; rewrite Hrn; group_slot G; done].
  rewrite Hmn, (getattr_mapping fuel reg _ _ md Hml), Mapping.mapping_fget_own;
    rewrite Hmn; group_slot G; [| done].
  by rewrite Hmodel, Hx.
Qed.

(** C7: After the mapping [m] of [p] is set to a map [f], with the model
    an array [x], the reciprocal [r] reads as [1 / (f * x)]: its own
    mapping reads as [ReciprocalMap() * f]. *)
Theorem reciprocal_of_mapping `{!MapLaws A M D} (h h' : Host) (f : M) (x : A) (fuel : nat) :
  setattr reg h m (VMap f) = Ok h' -> model h = VArray x ->
  getattr (S (S fuel)) reg h' r = Ok (VArray (recip (map_apply f x))).
Proof.
  intros Hset Hx. pose proof (fun k => setattr_group_get h h' m (VMap f) k Hset) as G.
  destruct (setattr_spec reg h h' m _ Hwf Hset) as (_ & Hmodel & _).
  destruct pair_descriptors as (pd & md & rd & rmd & Hp & Hml & Hrl & Hrml & Hpm & _ & Hrm' & Hrp & _ & Hrmp & Hpn & Hmn & Hrn & Hrmn).
  pose proof pair_ne as (? & ? & ? & ? & ? & ?).
  rewrite (getattr_phys _ reg _ r rd Hrl).
  rewrite (PhysicalProperty.fget_mapping_read _ _ _ _ rmd);
    [| rewrite Hrn; group_slot G; done | done
     | intros pd' Hpd'; rewrite Hrp in Hpd'; injection Hpd' as <-; rewrite Hpn; group_slot G; done].
  rewrite Hrmn, (getattr_mapping fuel reg _ _ rmd Hrml).
  rewrite (Mapping.mapping_fget_reciprocal _ _ _ md);
    [| rewrite Hrmn; group_slot G; done | exact (mapping_reciprocal_of_rm rmd md pd rd Hrmp Hrp Hpm)
     | rewrite Hmn; group_slot G; done].
  rewrite Hmn. group_slot G. simpl.
  rewrite Hmodel, Hx. simpl. by rewrite map_apply_compose, map_apply_reciprocal.
Qed.

(** C8: When no member of the group holds a value (for instance on a
    fresh instance), reading [p] raises a [TypeError]: its mapping reads
    as [None] and the getter evaluates [None * self.model]. *)
Theorem read_without_source (h : Host) (fuel : nat) :
  (forall k, k ∈ [p; m; r; rm] -> _get h k = VNone) ->
  getattr (S (S fuel)) reg h p = Err TypeError.
Proof.
  intros G.
  destruct pair_descriptors as (pd & md & rd & rmd & Hp & Hml & _ & _ & Hpm & Hpr & Hrm' & Hrp & Hmp & _ & Hpn & Hmn & Hrn & Hrmn).
  rewrite (getattr_phys _ reg _ p pd Hp).
  rewrite (PhysicalProperty.fget_mapping_read _ _ _ _ md);
    [| rewrite Hpn, G by set_solver; done | done
     | intros rd' Hrd'; rewrite Hpr in Hrd'; injection Hrd' as <-; rewrite Hrn, G by set_solver; done].
  rewrite Hmn, (getattr_mapping fuel reg _ _ md Hml), Mapping.mapping_fget_none; [done | |].
  - rewrite Hmn, G by set_solver. done.
  - intros rmd' Hrmd. rewrite (mapping_reciprocal_of_rm md rmd rd pd Hmp Hpr Hrm') in Hrmd.
    injection Hrmd as <-. rewrite Hrmn, G by set_solver. done.
Qed.
End Resolution.

Lemma set_then_get_witness :
  wf_registry conductivity_class /\
  mapping_of conductivity_class "sigma" = Some "sigmaMap" /\
  reciprocal_of conductivity_class "sigma" = Some "rho" /\
  mapping_of conductivity_class "rho" = Some "rhoMap" /\
  exists h', setattr conductivity_class scenario_fresh "sigma" (VArray [1; 2; 4]%Q) = Ok h' /\
    _get h' "sigmaMap" = VNone /\ _get h' "rho" = VNone /\ _get h' "rhoMap" = VNone /\
    getattr 1 conductivity_class h' "sigma" = Ok (VArray [1; 2; 4]%Q).
Proof.
  split; [decide_true |]. split; [vm_compute; reflexivity |].
  split; [vm_compute; reflexivity |]. split; [vm_compute; reflexivity |].
  exact (set_then_get conductivity_class ltac:(decide_true) "sigma" "sigmaMap" "rho" "rhoMap"
           ltac:(vm_compute; reflexivity) ltac:(vm_compute; reflexivity)
           ltac:(vm_compute; reflexivity) scenario_fresh [1; 2; 4]%Q 0).
Defined.

Lemma reciprocal_after_set_witness :
  setattr conductivity_class scenario_fresh "sigma" (VArray [1; 2; 4]%Q) = Ok scenario_sigma /\
  getattr 1 conductivity_class scenario_sigma "rho" = Ok (VArray (recip [1; 2; 4]%Q)).
Proof.
  split; [vm_compute; reflexivity |].
  exact (reciprocal_after_set conductivity_class ltac:(decide_true) "sigma" "sigmaMap" "rho" "rhoMap"
           ltac:(vm_compute; reflexivity) ltac:(vm_compute; reflexivity)
           ltac:(vm_compute; reflexivity) scenario_fresh scenario_sigma [1; 2; 4]%Q 0
           ltac:(vm_compute; reflexivity)).
Defined.

Lemma mapping_derivation_witness :
  setattr conductivity_class scenario_fresh "sigmaMap" (VMap IdentityMap) = Ok scenario_sigmaMap /\
  model scenario_fresh = VArray [1; 2; 4]%Q /\
  getattr 2 conductivity_class scenario_sigmaMap "sigma" = Ok (VArray [1; 2; 4]%Q).
Proof.
  split; [vm_compute; reflexivity |]. split; [reflexivity |].
  exact (proj2 (proj2 (proj2 (mapping_derivation conductivity_class ltac:(decide_true)
           "sigma" "sigmaMap" "rho" "rhoMap"
           ltac:(vm_compute; reflexivity) ltac:(vm_compute; reflexivity)
           ltac:(vm_compute; reflexivity) scenario_fresh scenario_sigmaMap IdentityMap [1; 2; 4]%Q 0
           ltac:(vm_compute; reflexivity) eq_refl)))).
Defined.

Lemma reciprocal_of_mapping_witness :
  setattr conductivity_class scenario_fresh "sigmaMap" (VMap IdentityMap) = Ok scenario_sigmaMap /\
  getattr 2 conductivity_class scenario_sigmaMap "rho" = Ok (VArray (map Qinv [1; 2; 4]%Q)).
Proof.
  split; [vm_compute; reflexivity |].
  exact (reciprocal_of_mapping conductivity_class ltac:(decide_true)
           "sigma" "sigmaMap" "rho" "rhoMap"
           ltac:(vm_compute; reflexivity) ltac:(vm_compute; reflexivity)
           ltac:(vm_compute; reflexivity) scenario_fresh scenario_sigmaMap IdentityMap [1; 2; 4]%Q 0
           ltac:(vm_compute; reflexivity) eq_refl).
Defined.

Lemma read_without_source_witness :
  getattr 2 conductivity_class scenario_fresh "sigma" = Err TypeError.
Proof.
  exact (read_without_source conductivity_class ltac:(decide_true)
           "sigma" "sigmaMap" "rho" "rhoMap"
           ltac:(vm_compute; reflexivity) ltac:(vm_compute; reflexivity)
           ltac:(vm_compute; reflexivity) scenario_fresh 0
           ltac:(intros k _; vm_compute; reflexivity)).
Defined.
