(* ===== verification/Fuel.v ===== *)
(** * Recursion depth of reads

    [getattr] counts the nested [getattr] calls of the getters; Python
    raises [RecursionError] when the stack limit is reached.  In a
    well-formed class a read needs at most three frames: a property reads
    its mapping (two frames), or its reciprocal, which reads its own
    mapping (three frames).  The one exception is a pair of reciprocal
    properties that have no mapping and no stored value: each getter
    calls the other's, and every stack limit is reached. *)

From Stdlib Require Import QArith.
From stdpp Require Import base gmap strings.
From S2P Require Import Prelude Host QArrays Descriptors Factory.
From S2P Require Import PhysicalProp MappingProp DerivativeProp HostClass Scenario.
From S2P Require Import Links Pairs.

Section Fuel.
Context {A M D : Type} `{!MapCapability A M D}.
Abbreviation Value := (Value A M D).
Abbreviation Host := (Host A M D).
Context (reg : Registry) (Hwf : wf_registry reg).

(** The operations the getters end with never exhaust the stack. *)
Lemma py_ops_no_recursion (v w : Value) :
  py_rdiv v <> Err RecursionError /\ py_mul v w <> Err RecursionError /\
  py_deriv v w <> Err RecursionError.
Proof.
  split_and!; [destruct v | destruct v; try destruct w | destruct v; try destruct w]; done.
Qed.

Lemma mapping_fget_no_recursion (md : MappingD) (h : Host) :
  Mapping.fget reg md h <> Err RecursionError.
Proof.
  unfold Mapping.fget. destruct (is_none _); [| done].
  destruct (Mapping.reciprocal reg md) as [rm |]; [| done].
  destruct (is_none _); [done |]. destruct (_get h (m_name rm)); done.
Qed.

Lemma bind_no_recursion (c : result PyError Value) (k : Value -> result PyError Value) :
  c <> Err RecursionError -> (forall v, k v <> Err RecursionError) ->
  result_bind c k <> Err RecursionError.
Proof. destruct c; simpl; auto. Qed.

(** Two reciprocal properties without mappings and without values: every
    read of either exhausts the stack. *)
Lemma mutual_recursion_error (p r : string) (h : Host) :
  reciprocal_of reg p = Some r -> mapping_of reg p = None -> mapping_of reg r = None ->
  _get h p = VNone -> _get h r = VNone ->
  forall n, getattr n reg h p = Err RecursionError /\ getattr n reg h r = Err RecursionError.
Proof.
  intros Hr Hmp Hmr Hvp Hvr n. revert p r Hr Hmp Hmr Hvp Hvr.
  induction n as [| n IH]; intros p r Hr Hmp Hmr Hvp Hvr; [done |].
  pose proof (reciprocal_of_sym reg Hwf p r Hr) as Hr'.
  destruct (reciprocal_of_spec reg Hwf p r Hr) as (pd & rd & Hp & Hrl & Hpr & Hrp & Hrn & Hpn & _).
  destruct (IH p r Hr Hmp Hmr Hvp Hvr) as [IHp IHr].
  pose proof (mapping_of_none reg p pd Hp Hmp) as Hpm.
  pose proof (mapping_of_none reg r rd Hrl Hmr) as Hrm.
  rewrite (getattr_phys n reg h p pd Hp), (getattr_phys n reg h r rd Hrl).
  rewrite (PhysicalProperty.fget_reciprocal_read _ _ _ _ rd), (PhysicalProperty.fget_reciprocal_read _ _ _ _ pd);
    rewrite ?Hpn, ?Hrn, ?Hvp, ?Hvr, ?IHp, ?IHr; done.
Qed.


(** The mapping a derivative reads is registered under its name. *)
Lemma deriv_mapping_registered (dd : DerivD) (md : MappingD) :
  Derivative.mapping reg dd = Some md -> lookup_mapping reg (m_name md) = Some md.
Proof.
  unfold Derivative.mapping, Derivative.physical_property.
  destruct (d_physical_property dd) as [n |]; [| discriminate].
  destruct (lookup_phys reg n) as [pd |] eqn:Hp; [| discriminate].
  intros Hm. exact (proj1 (phys_mapping_spec reg Hwf n pd md Hp Hm)).
Qed.


(** C9: Reading a property of a well-formed class whose reciprocal has
    no mapping either, when neither holds a value, raises a
    [RecursionError] at the interpreter's stack limit: the two getters
    call each other (lines 122-123). *)
Theorem reciprocal_without_mappings_recursion (p r : string) (h : Host) :
  reciprocal_of reg p = Some r -> mapping_of reg p = None -> mapping_of reg r = None ->
  _get h p = VNone -> _get h r = VNone -> get_attribute reg h p = Err RecursionError.
Proof.
  intros Hr Hmp Hmr Hvp Hvr. unfold get_attribute.
  exact (proj1 (mutual_recursion_error p r h Hr Hmp Hmr Hvp Hvr recursion_limit)).
Qed.


Lemma bind_rec_inv (c : result PyError Value) (k : Value -> result PyError Value) :
  result_bind c k = Err RecursionError ->
  c = Err RecursionError \/ exists v, c = Ok v /\ k v = Err RecursionError.
Proof. apply result_bind_Err_inv. Qed.

(** A read through a mapping attribute never exhausts the stack. *)
Lemma mapping_read_no_recursion (k : nat) (h : Host) (md : MappingD) (c : Value -> result PyError Value) :
  lookup_mapping reg (m_name md) = Some md -> (forall v, c v <> Err RecursionError) ->
  result_bind (getattr (S k) reg h (m_name md)) c <> Err RecursionError.
Proof.
  intros Hml Hc. rewrite (getattr_mapping k reg h _ md Hml).
  apply bind_no_recursion; [apply mapping_fget_no_recursion | exact Hc].
Qed.

(** A property's getter at one or two frames exhausts the stack only by
    reading a reciprocal without a mapping. *)
Lemma phys_fget_recursion (k : nat) (h : Host) (p : string) (pd : PhysD) :
  lookup_phys reg p = Some pd ->
  PhysicalProperty.fget (getattr (S k) reg h) reg pd h = Err RecursionError ->
  PhysicalProperty.mapping reg pd = None /\ is_none (_get h p) = true /\
  exists rd, PhysicalProperty.reciprocal reg pd = Some rd /\ is_none (_get h (p_name rd)) = true /\
    getattr (S k) reg h (p_name rd) = Err RecursionError.
Proof.
  intros Hp Hrec. pose proof (lookup_phys_name reg Hwf _ _ Hp) as Hpn.
  pose proof (py_ops_no_recursion) as Hops.
  destruct (is_none (_get h (p_name pd))) eqn:Hown;
    [| by rewrite (PhysicalProperty.fget_own _ _ _ _ Hown) in Hrec].
  destruct (PhysicalProperty.reciprocal reg pd) as [rd |] eqn:Hr.
  1: destruct (is_none (_get h (p_name rd))) eqn:Hrv;
    [| rewrite (PhysicalProperty.fget_reciprocal_stored _ _ _ _ rd) in Hrec; try done;
       exfalso; exact (proj1 (Hops _ VNone) Hrec)].
  all: destruct (PhysicalProperty.mapping reg pd) as [md |] eqn:Hm.
  1, 3: destruct (phys_mapping_spec reg Hwf p pd md Hp Hm) as [Hml _];
    rewrite (PhysicalProperty.fget_mapping_read _ _ _ _ md) in Hrec;
    try done; try (intros ? Hx; rewrite Hr in Hx; first [discriminate | injection Hx as <-; done]);
    exfalso; refine (mapping_read_no_recursion k h md _ Hml _ Hrec);
    intros v; exact (proj1 (proj2 (Hops v _))).
  2: by rewrite (PhysicalProperty.fget_unbound _ _ _ _ Hown Hm Hr) in Hrec.
  rewrite (PhysicalProperty.fget_reciprocal_read _ _ _ _ rd Hown Hm Hr Hrv) in Hrec.
  rewrite Hpn in Hown. split_and!; [done | done |]. exists rd. split_and!; [done | done |].
  destruct (bind_rec_inv _ _ Hrec) as [| (v & _ & Hv)]; [done |].
  exfalso. exact (proj1 (Hops v VNone) Hv).
Qed.

(** C11: In a well-formed class, a read with three frames exhausts the
    stack only for a property without a mapping whose reciprocal has no
    mapping either, neither holding a value; every other read completes
    within three frames. *)
Theorem read_recursion_cases (h : Host) (name : string) :
  getattr 3 reg h name = Err RecursionError ->
  exists r, reciprocal_of reg name = Some r /\ mapping_of reg name = None /\
    mapping_of reg r = None /\ _get h name = VNone /\ _get h r = VNone.
Proof.
  intros Hrec. rewrite getattr_S in Hrec.
  destruct (reg !! name) as [[md | pd | dd] |] eqn:E; try done.
  - exfalso. exact (mapping_fget_no_recursion md h Hrec).
  - assert (Hp : lookup_phys reg name = Some pd) by (unfold lookup_phys; by rewrite E).
    destruct (phys_fget_recursion 1 h name pd Hp Hrec) as (Hm & Hvp & rd & Hr & Hvr & Hrec').
    destruct (phys_reciprocal_spec reg Hwf name pd rd Hp Hr) as (_ & Hrl & Hrp).
    rewrite (getattr_phys 1 reg h _ rd Hrl) in Hrec'.
    destruct (phys_fget_recursion 0 h _ rd Hrl Hrec') as (Hrm & _ & pd' & Hrp' & _ & Hrec'').
    exists (p_name rd). split_and!.
    + exact (reciprocal_of_back reg Hwf name pd rd Hp Hr).
    + exact (mapping_of_none_back reg Hwf name pd Hp Hm).
    + exact (mapping_of_none_back reg Hwf _ rd Hrl Hrm).
    + by apply is_none_true.
    + by apply is_none_true.
  - exfalso. destruct (Derivative.mapping reg dd) as [md |] eqn:Hm.
    + rewrite (Derivative.deriv_fget_read _ _ _ _ md Hm) in Hrec.
      refine (mapping_read_no_recursion 1 h md _ (deriv_mapping_registered dd md Hm) _ Hrec).
      intros v. destruct (is_none v); [done | exact (proj2 (proj2 (py_ops_no_recursion v _)))].
    + by rewrite (Derivative.deriv_fget_unbound _ _ _ _ Hm) in Hrec.
Qed.
End Fuel.

Lemma reciprocal_without_mappings_recursion_witness :
  get_attribute unmapped_class scenario_fresh "kappa" = Err RecursionError.
Proof.
  exact (reciprocal_without_mappings_recursion unmapped_class ltac:(decide_true) "kappa" "eta"
           scenario_fresh ltac:(vm_compute; reflexivity) ltac:(vm_compute; reflexivity)
           ltac:(vm_compute; reflexivity) ltac:(vm_compute; reflexivity)
           ltac:(vm_compute; reflexivity)).
Defined.


Lemma read_recursion_cases_witness :
  getattr 3 unmapped_class scenario_fresh "eta" = Err RecursionError /\
  exists r, reciprocal_of unmapped_class "eta" = Some r /\ mapping_of unmapped_class "eta" = None /\
    mapping_of unmapped_class r = None /\ _get scenario_fresh "eta" = VNone /\ _get scenario_fresh r = VNone.
Proof.
  split; [vm_compute; reflexivity |].
  exact (read_recursion_cases unmapped_class ltac:(decide_true) scenario_fresh "eta"
           ltac:(vm_compute; reflexivity)).
Defined.
