(* ===== verification/Derivatives.v ===== *)
(** * Reads of [Derivative] attributes

    A derivative reads the current value of its property's mapping
    attribute through [getattr].  That read falls back on the reciprocal
    side, so a property bound to a mapping has a non-zero derivative as
    soon as either mapping of its pair holds a map, whatever its own
    mapping slot holds. *)

From Stdlib Require Import QArith.
From stdpp Require Import base gmap strings.
From S2P Require Import Prelude Host QArrays Descriptors Factory.
From S2P Require Import PhysicalProp MappingProp DerivativeProp HostClass Scenario.
From S2P Require Import Links Invariants Pairs Resolution.

Section Derivatives.
Context {A M D : Type} `{!MapCapability A M D}.
Abbreviation Value := (Value A M D).
Abbreviation Host := (Host A M D).
Context (reg : Registry) (Hwf : wf_registry reg).

Lemma getattr_deriv (fuel : nat) (h : Host) (d : string) (dd : DerivD) :
  reg !! d = Some (DDeriv dd) ->
  getattr (S fuel) reg h d = Derivative.fget (getattr fuel reg h) reg dd h.
Proof. intros Hd. by rewrite getattr_S, Hd. Qed.

Lemma derivative_of_spec (d p : string) :
  derivative_of reg d = Some p ->
  exists dd pd, reg !! d = Some (DDeriv dd) /\ lookup_phys reg p = Some pd /\
    Derivative.physical_property reg dd = Some pd.
Proof.
  unfold derivative_of. destruct (reg !! d) as [[| | dd] |] eqn:Hd; try discriminate.
  intros Hp. pose proof (wf_links reg Hwf d _ Hd) as Hl. simpl in Hl.
  unfold deriv_links_ok in Hl. rewrite Hp in Hl. apply bool_decide_eq_true in Hl.
  destruct Hl as [pd Hpd]. exists dd, pd. split_and!; [done | done |].
  unfold Derivative.physical_property. by rewrite Hp.
Qed.

Lemma derivative_mapping (d p m : string) (dd : DerivD) (pd : PhysD) (md : MappingD) :
  reg !! d = Some (DDeriv dd) -> Derivative.physical_property reg dd = Some pd ->
  PhysicalProperty.mapping reg pd = Some md -> Derivative.mapping reg dd = Some md.
Proof. intros _ Hp Hm. unfold Derivative.mapping. by rewrite Hp. Qed.

(** C12: The derivative of a property with no mapping bound reads as
    [Utils.Zero()] in every state. *)
Theorem derivative_unbound_zero (d p : string) (h : Host) (fuel : nat) :
  derivative_of reg d = Some p -> mapping_of reg p = None ->
  getattr (S fuel) reg h d = Ok VZero.
Proof.
  intros Hd Hm. destruct (derivative_of_spec d p Hd) as (dd & pd & Hdd & Hp & Hpp).
  rewrite (getattr_deriv fuel h d dd Hdd), Derivative.deriv_fget_unbound; [done |].
  unfold Derivative.mapping. rewrite Hpp. exact (mapping_of_none reg p pd Hp Hm).
Qed.

Section PairDerivatives.
Context (p m r rm : string).
Hypothesis (Hm : mapping_of reg p = Some m) (Hr : reciprocal_of reg p = Some r)
  (Hrm : mapping_of reg r = Some rm).

(** The mapping a derivative of a member of the pair reads. *)
Lemma pair_derivative_mapping (d q qm : string) (h : Host) (fuel : nat) :
  derivative_of reg d = Some q -> mapping_of reg q = Some qm ->
  getattr (S (S fuel)) reg h d =
    (mv <- getattr (S fuel) reg h qm ;; if is_none mv then Ok VZero else py_deriv mv (model h)).
Proof.
  intros Hd Hq. destruct (derivative_of_spec d q Hd) as (dd & pd & Hdd & Hp & Hpp).
  destruct (mapping_of_spec reg Hwf q qm Hq) as (pd' & md & Hp' & _ & Hpm & _ & Hmn).
  rewrite Hp in Hp'. injection Hp' as <-.
  rewrite (getattr_deriv _ h d dd Hdd), (Derivative.deriv_fget_read _ _ _ _ md).
  - by rewrite Hmn.
  - exact (derivative_mapping d q qm dd pd md Hdd Hpp Hpm).
Qed.

(** C13: After the mapping [m] of [p] is set to a map [f], with the model
    an array [x], the derivative of [p] reads as [f.deriv(x)]. *)
Theorem derivative_after_mapping_set (d : string) (h h' : Host) (f : M) (x : A) (fuel : nat) :
  derivative_of reg d = Some p -> setattr reg h m (VMap f) = Ok h' -> model h = VArray x ->
  getattr (S (S fuel)) reg h' d = Ok (VDeriv (map_deriv f x)).
Proof.
  intros Hd Hset Hx. rewrite (pair_derivative_mapping d p m h' fuel Hd Hm).
  destruct (setattr_spec reg h h' m _ Hwf Hset) as (_ & Hmodel & _).
  destruct (pair_descriptors reg Hwf p m r rm Hm Hr Hrm)
    as (pd & md & rd & rmd & _ & Hml & _ & _ & _ & _ & _ & _ & _ & _ & _ & Hmn & _).
  rewrite (getattr_mapping fuel reg h' m md Hml), Mapping.mapping_fget_own;
    rewrite Hmn, (setattr_group_get reg Hwf p m r rm Hm Hr Hrm h h' m _ m Hset) by set_solver;
    rewrite decide_True by done; [simpl | done].
  by rewrite Hmodel, Hx.
Qed.

(** C14: After the mapping [m] of [p] is set to a map [f], with the model
    an array [x], the derivative of the reciprocal [r] is not
    [Utils.Zero()]: it reads as the derivative of [ReciprocalMap() * f],
    because the mapping attribute of [r] falls back on [m]. *)
Theorem derivative_of_reciprocal_mapping (d : string) (h h' : Host) (f : M) (x : A) (fuel : nat) :
  derivative_of reg d = Some r -> setattr reg h m (VMap f) = Ok h' -> model h = VArray x ->
  getattr (S (S fuel)) reg h' d = Ok (VDeriv (map_deriv (map_compose reciprocal_map f) x)).
Proof.
  intros Hd Hset Hx. rewrite (pair_derivative_mapping d r rm h' fuel Hd Hrm).
  destruct (setattr_spec reg h h' m _ Hwf Hset) as (_ & Hmodel & _).
  pose proof (fun k => setattr_group_get reg Hwf p m r rm Hm Hr Hrm h h' m _ k Hset) as G.
  pose proof (pair_ne reg Hwf p m r rm Hm Hr Hrm) as (? & ? & ? & ? & ? & ?).
  destruct (pair_descriptors reg Hwf p m r rm Hm Hr Hrm)
    as (pd & md & rd & rmd & _ & Hml & _ & Hrml & Hpm & _ & _ & Hrp & _ & Hrmp & _ & Hmn & _ & Hrmn).
  rewrite (getattr_mapping fuel reg h' rm rmd Hrml).
  rewrite (Mapping.mapping_fget_reciprocal _ _ _ md);
    [| rewrite Hrmn, G by set_solver; by rewrite decide_False
     | exact (mapping_reciprocal_of_rm reg rmd md pd rd Hrmp Hrp Hpm)
     | rewrite Hmn, G by set_solver; by rewrite decide_True].
  rewrite Hmn, G by set_solver. rewrite decide_True by done. simpl.
  by rewrite Hmodel, Hx.
Qed.
End PairDerivatives.
End Derivatives.

Lemma derivative_unbound_zero_witness :
  getattr 1 unmapped_class scenario_sigma "kappaDeriv" = Ok VZero.
Proof.
  exact (derivative_unbound_zero unmapped_class ltac:(decide_true) "kappaDeriv" "kappa" scenario_sigma 0
           ltac:(vm_compute; reflexivity) ltac:(vm_compute; reflexivity)).
Defined.

Lemma derivative_after_mapping_set_witness :
  getattr 2 conductivity_class scenario_sigmaMap "sigmaDeriv" = Ok (VDeriv [1; 1; 1]%Q).
Proof.
  exact (derivative_after_mapping_set conductivity_class ltac:(decide_true)
           "sigma" "sigmaMap" "rho" "rhoMap"
           ltac:(vm_compute; reflexivity) ltac:(vm_compute; reflexivity)
           ltac:(vm_compute; reflexivity) "sigmaDeriv" scenario_fresh scenario_sigmaMap
           IdentityMap [1; 2; 4]%Q 0
           ltac:(vm_compute; reflexivity) ltac:(vm_compute; reflexivity) eq_refl).
Defined.

Lemma derivative_of_reciprocal_mapping_witness :
  getattr 2 conductivity_class scenario_sigmaMap "rhoDeriv" <> Ok VZero /\
  getattr 2 conductivity_class scenario_sigmaMap "rhoDeriv" =
    Ok (VDeriv (smap_deriv (ComboMap ReciprocalMap IdentityMap) [1; 2; 4]%Q)).
Proof.
  split; [vm_compute; discriminate |].
  exact (derivative_of_reciprocal_mapping conductivity_class ltac:(decide_true)
           "sigma" "sigmaMap" "rho" "rhoMap"
           ltac:(vm_compute; reflexivity) ltac:(vm_compute; reflexivity)
           ltac:(vm_compute; reflexivity) "rhoDeriv" scenario_fresh scenario_sigmaMap
           IdentityMap [1; 2; 4]%Q 0
           ltac:(vm_compute; reflexivity) ltac:(vm_compute; reflexivity) eq_refl).
Defined.
