(* ===== verification/Classes.v ===== *)
(** * Building a class: [Invertible] and [Reciprocal] on the registry

    [Invertible] adds a well-formed triple to a well-formed class when
    its three names are new.  [Reciprocal] keeps a class well-formed when
    it links two distinct unlinked properties, and makes the link
    symmetric; it is idempotent up to the order of its arguments.  It
    checks nothing, though: linking a property that already has a
    reciprocal leaves the old partner pointing at it (the class is no
    longer well-formed), and linking a property with itself makes every
    write to it clear it again. *)

From Stdlib Require Import QArith.
From stdpp Require Import base gmap strings.
From S2P Require Import Prelude Host QArrays Descriptors Factory.
From S2P Require Import PhysicalProp MappingProp DerivativeProp HostClass Scenario.
From S2P Require Import Links Pairs.

(** ** Links that resolve keep resolving in a larger class *)

Section Mono.
Context (reg reg' : Registry).
Hypothesis Hext : forall k d, reg !! k = Some d -> reg' !! k = Some d.

Lemma lookup_phys_ext (n : string) (pd : PhysD) :
  lookup_phys reg n = Some pd -> lookup_phys reg' n = Some pd.
Proof.
  intros H. unfold lookup_phys. by rewrite (Hext _ _ (lookup_phys_reg reg n _ H)).
Qed.

Lemma lookup_mapping_ext (n : string) (md : MappingD) :
  lookup_mapping reg n = Some md -> lookup_mapping reg' n = Some md.
Proof.
  intros H. unfold lookup_mapping. by rewrite (Hext _ _ (lookup_mapping_reg reg n _ H)).
Qed.

Lemma desc_links_ok_ext (d : Descriptor) :
  desc_links_ok reg d = true -> desc_links_ok reg' d = true.
Proof.
  destruct d as [md | pd | dd]; simpl.
  - unfold mapping_links_ok. destruct (m_prop md) as [p |]; [| done].
    destruct (lookup_phys reg p) eqn:E; [| done]. by rewrite (lookup_phys_ext _ _ E).
  - unfold phys_links_ok. intros [Hm Hr]%andb_prop. apply andb_true_intro. split.
    + destruct (p_mapping pd) as [m |]; [| done].
      destruct (lookup_mapping reg m) eqn:E; [| done]. by rewrite (lookup_mapping_ext _ _ E).
    + destruct (p_reciprocal pd) as [r |]; [| done].
      apply andb_prop in Hr as [Hne Hr]. rewrite Hne. simpl.
      destruct (lookup_phys reg r) eqn:E; [| done]. by rewrite (lookup_phys_ext _ _ E).
  - unfold deriv_links_ok. destruct (d_physical_property dd) as [p |]; [| done].
    intros H. apply bool_decide_eq_true in H. apply bool_decide_eq_true.
    destruct H as [pd Hpd]. exists pd. exact (lookup_phys_ext _ _ Hpd).
Qed.
End Mono.

(** ** [Invertible] *)

(** Registering the triple of [Invertible(help)] under three new,
    distinct names keeps a class well-formed. *)
Lemma invertible_wf (reg : Registry) (help pname mname dname : string) :
  wf_registry reg -> NoDup [pname; mname; dname] ->
  reg !! pname = None -> reg !! mname = None -> reg !! dname = None ->
  wf_registry (register_triple reg (Invertible help pname mname dname)).
Proof.
  intros Hwf Hnd Hp Hm Hd. apply NoDup_cons in Hnd as [Hnd1 Hnd].
  apply NoDup_cons in Hnd as [Hnd2 _]. simpl.
  assert (Hne : pname <> mname /\ pname <> dname /\ mname <> dname) by set_solver.
  destruct Hne as (Hpm & Hpd & Hmd).
  set (reg' := <[dname := _]> (<[pname := _]> (<[mname := _]> reg))).
  assert (Hext : forall k d, reg !! k = Some d -> reg' !! k = Some d).
  { intros k d Hk. unfold reg'.
    rewrite !lookup_insert_ne; [done | congruence ..]. }
  assert (HP : lookup_phys reg' pname = Some (mkPhysD pname help (Some mname) None)).
  { unfold lookup_phys, reg'. rewrite lookup_insert_ne, lookup_insert_eq; [done | congruence]. }
  assert (HM : lookup_mapping reg' mname =
                 Some (mkMappingD mname ("Mapping of " ++ help ++ " to the inversion model.") (Some pname))).
  { unfold lookup_mapping, reg'.
    rewrite lookup_insert_ne, lookup_insert_ne, lookup_insert_eq; [done | congruence ..]. }
  intros k d Hk. unfold reg' in Hk. rewrite !lookup_insert in Hk.
  repeat case_decide; simplify_eq; simpl.
  - split; [done |]. unfold deriv_links_ok. simpl. apply bool_decide_eq_true. by rewrite HP.
  - split; [done |]. unfold phys_links_ok. simpl. rewrite HM. simpl.
    by rewrite bool_decide_eq_true_2.
  - split; [done |]. unfold mapping_links_ok. simpl. rewrite HP. by apply bool_decide_eq_true_2.
  - destruct (Hwf k d Hk) as [Hn Hl]. split; [done |].
    exact (desc_links_ok_ext reg reg' Hext d Hl).
Qed.

(** ** [Reciprocal] *)

Lemma lookup_Reciprocal (reg : Registry) (p1 p2 n : string) :
  Reciprocal p1 p2 reg !! n =
    match reg !! n with
    | Some (DPhys pd) =>
        Some (DPhys (if decide (p2 = n) then with_reciprocal pd p1
                     else if decide (p1 = n) then with_reciprocal pd p2 else pd))
    | o => o
    end.
Proof.
  unfold Reciprocal. rewrite !lookup_set_reciprocal.
  destruct (reg !! n) as [[| pd |] |]; try done.
  repeat case_decide; subst; done.
Qed.

Lemma lookup_phys_Reciprocal (reg : Registry) (p1 p2 n : string) :
  lookup_phys (Reciprocal p1 p2 reg) n =
    match lookup_phys reg n with
    | Some pd => Some (if decide (p2 = n) then with_reciprocal pd p1
                       else if decide (p1 = n) then with_reciprocal pd p2 else pd)
    | None => None
    end.
Proof. unfold lookup_phys. rewrite lookup_Reciprocal. by destruct (reg !! n) as [[] |]. Qed.

Lemma lookup_mapping_Reciprocal (reg : Registry) (p1 p2 n : string) :
  lookup_mapping (Reciprocal p1 p2 reg) n = lookup_mapping reg n.
Proof. unfold lookup_mapping. rewrite lookup_Reciprocal. by destruct (reg !! n) as [[] |]. Qed.

Section ReciprocalWf.
Context (reg : Registry) (Hwf : wf_registry reg) (p1 p2 : string).
Abbreviation reg' := (Reciprocal p1 p2 reg).

(** The links of mappings and derivatives look at what [Reciprocal] does
    not change. *)
Lemma mapping_links_Reciprocal (md : MappingD) :
  mapping_links_ok reg md = true -> mapping_links_ok reg' md = true.
Proof.
  unfold mapping_links_ok. destruct (m_prop md) as [p |]; [| done].
  rewrite lookup_phys_Reciprocal. destruct (lookup_phys reg p); [| done].
  by repeat case_decide.
Qed.

Lemma deriv_links_Reciprocal (dd : DerivD) :
  deriv_links_ok reg dd = true -> deriv_links_ok reg' dd = true.
Proof.
  unfold deriv_links_ok. destruct (d_physical_property dd) as [p |]; [| done].
  rewrite lookup_phys_Reciprocal. destruct (lookup_phys reg p); [| done].
  intros _. by apply bool_decide_eq_true.
Qed.

Lemma phys_mapping_links_Reciprocal (pd : PhysD) :
  phys_links_ok reg pd = true ->
  match p_mapping pd with
  | None => true
  | Some m => match lookup_mapping reg' m with
              | Some md => bool_decide (m_prop md = Some (p_name pd))
              | None => false
              end
  end = true.
Proof.
  unfold phys_links_ok. intros [Hm _]%andb_prop.
  destruct (p_mapping pd); [by rewrite lookup_mapping_Reciprocal | done].
Qed.
End ReciprocalWf.

(** [Reciprocal] on two distinct unlinked properties of a well-formed
    class keeps it well-formed: the two new links point at each other,
    and no other property named either of them as its reciprocal. *)
Lemma Reciprocal_wf (reg : Registry) (p1 p2 : string) (pd1 pd2 : PhysD) :
  wf_registry reg -> p1 <> p2 -> lookup_phys reg p1 = Some pd1 -> lookup_phys reg p2 = Some pd2 ->
  p_reciprocal pd1 = None -> p_reciprocal pd2 = None -> wf_registry (Reciprocal p1 p2 reg).
Proof.
  intros Hwf Hne H1 H2 Hr1 Hr2.
  pose proof (lookup_phys_name reg Hwf _ _ H1) as Hn1.
  pose proof (lookup_phys_name reg Hwf _ _ H2) as Hn2.
  intros k d Hk. rewrite lookup_Reciprocal in Hk.
  destruct (reg !! k) as [[md | pd | dd] |] eqn:E; try discriminate Hk; injection Hk as <-;
    destruct (Hwf k _ E) as [Hn Hl]; simpl in Hn, Hl |- *.
  - split; [done | exact (mapping_links_Reciprocal reg p1 p2 md Hl)].
  - assert (Hp : lookup_phys reg k = Some pd) by (unfold lookup_phys; by rewrite E).
    pose proof (phys_mapping_links_Reciprocal reg p1 p2 pd Hl) as Hm.
    unfold phys_links_ok in Hl. apply andb_prop in Hl as [_ Hr].
    repeat case_decide; try subst k; simpl; (split; [done |]); unfold phys_links_ok; simpl;
      apply andb_true_intro; (split; [exact Hm |]).
    + assert (pd = pd2) as -> by congruence. rewrite Hn2.
      rewrite bool_decide_eq_true_2 by congruence. simpl.
      rewrite lookup_phys_Reciprocal, H1, decide_False, decide_True by congruence.
      simpl. by rewrite bool_decide_eq_true_2.
    + assert (pd = pd1) as -> by congruence. rewrite Hn1.
      rewrite bool_decide_eq_true_2 by congruence. simpl.
      rewrite lookup_phys_Reciprocal, H2, decide_True by congruence.
      simpl. by rewrite bool_decide_eq_true_2.
    + destruct (p_reciprocal pd) as [r |] eqn:Er; [| done].
      apply andb_prop in Hr as [Hne' Hr]. rewrite Hne'. simpl.
      rewrite lookup_phys_Reciprocal.
      destruct (lookup_phys reg r) as [rd |] eqn:Erd; [| done].
      destruct (wf_phys_reciprocal reg Hwf pd _ r Hp Er) as (_ & rd' & Erd' & Hback & _).
      rewrite Erd in Erd'. injection Erd' as <-.
      destruct (decide (p2 = r)) as [<- |]; [congruence |].
      destruct (decide (p1 = r)) as [<- |]; [congruence |].
      by apply bool_decide_eq_true_2.
  - split; [done | exact (deriv_links_Reciprocal reg p1 p2 dd Hl)].
Qed.

(** C21: Linking two distinct properties of a well-formed class that have
    no reciprocal yet keeps the class well-formed, and each is the
    other's reciprocal. *)
Theorem reciprocal_links (reg : Registry) (p1 p2 : string) :
  wf_registry reg -> p1 <> p2 -> is_Some (lookup_phys reg p1) -> is_Some (lookup_phys reg p2) ->
  reciprocal_of reg p1 = None -> reciprocal_of reg p2 = None ->
  wf_registry (Reciprocal p1 p2 reg) /\
  reciprocal_of (Reciprocal p1 p2 reg) p1 = Some p2 /\ reciprocal_of (Reciprocal p1 p2 reg) p2 = Some p1.
Proof.
  intros Hwf Hne [pd1 H1] [pd2 H2] Hr1 Hr2.
  unfold reciprocal_of in Hr1, Hr2. rewrite H1 in Hr1. rewrite H2 in Hr2.
  split_and!; [exact (Reciprocal_wf reg p1 p2 pd1 pd2 Hwf Hne H1 H2 Hr1 Hr2) | |].
  - unfold reciprocal_of. rewrite lookup_phys_Reciprocal, H1, decide_False, decide_True by congruence.
    done.
  - unfold reciprocal_of. rewrite lookup_phys_Reciprocal, H2, decide_True by done. done.
Qed.

Lemma insert_fresh_ext (reg : Registry) (k : string) (d : Descriptor) :
  reg !! k = None -> forall j dj, reg !! j = Some dj -> <[k := d]> reg !! j = Some dj.
Proof. intros Hk j dj Hj. rewrite lookup_insert_ne; [done | congruence]. Qed.

(** Declaring a descriptor under a new name whose links resolve in the
    larger class keeps the class well-formed. *)
Lemma insert_fresh_wf (reg : Registry) (k : string) (d : Descriptor) :
  wf_registry reg -> reg !! k = None -> desc_name d = k ->
  desc_links_ok (<[k := d]> reg) d = true -> wf_registry (<[k := d]> reg).
Proof.
  intros Hwf Hk Hn Hl k' d' H. rewrite lookup_insert in H.
  case_decide; [subst k'; by injection H as <- |].
  destruct (Hwf k' d' H) as [Hn' Hl']. split; [done |].
  exact (desc_links_ok_ext reg _ (insert_fresh_ext reg k d Hk) d' Hl').
Qed.

(** C22: [Reciprocal] checks nothing.  Linking [p1], whose reciprocal is
    [p2], with a third unlinked property [p3] makes [p3] the reciprocal of
    [p1] while [p2] still names [p1]: the link is no longer symmetric and
    the class is no longer well-formed. *)
Theorem relink_breaks_symmetry (reg : Registry) (p1 p2 p3 : string) :
  wf_registry reg -> reciprocal_of reg p1 = Some p2 -> p3 <> p1 -> p3 <> p2 ->
  is_Some (lookup_phys reg p3) ->
  reciprocal_of (Reciprocal p1 p3 reg) p1 = Some p3 /\
  reciprocal_of (Reciprocal p1 p3 reg) p2 = Some p1 /\
  ~ wf_registry (Reciprocal p1 p3 reg).
Proof.
  intros Hwf Hr Hne1 Hne2 _.
  pose proof (reciprocal_of_sym reg Hwf p1 p2 Hr) as Hback.
  destruct (reciprocal_of_spec reg Hwf p1 p2 Hr) as (pd1 & pd2 & H1 & H2 & _ & _ & _ & _ & Hne).
  assert (R1 : reciprocal_of (Reciprocal p1 p3 reg) p1 = Some p3).
  { unfold reciprocal_of. rewrite lookup_phys_Reciprocal, H1, decide_False, decide_True by congruence.
    done. }
  assert (R2 : reciprocal_of (Reciprocal p1 p3 reg) p2 = Some p1).
  { unfold reciprocal_of in *. rewrite lookup_phys_Reciprocal, H2, decide_False, decide_False by congruence.
    by rewrite H2 in Hback. }
  split_and!; [done | done |]. intros Hwf'.
  pose proof (reciprocal_of_sym _ Hwf' p2 p1 R2). congruence.
Qed.

(** C23: The order of the arguments of [Reciprocal] does not matter, and
    declaring the same link again changes nothing. *)
Theorem reciprocal_comm_idem (reg : Registry) (p1 p2 : string) :
  Reciprocal p2 p1 reg = Reciprocal p1 p2 reg /\
  Reciprocal p1 p2 (Reciprocal p1 p2 reg) = Reciprocal p1 p2 reg.
Proof.
  split; apply map_eq; intros n; rewrite ?lookup_Reciprocal;
    destruct (reg !! n) as [[| pd |] |]; try done; repeat case_decide; subst; done.
Qed.

(** C24: After [Reciprocal(p, p)], [p] is its own reciprocal, so every
    write to [p] clears the slot it has just written: the value written
    is lost. *)
Theorem self_reciprocal_write_lost {A M D : Type} `{!MapCapability A M D} (reg : Registry) (p : string) (h h' : Host A M D) (v : Value A M D) :
  wf_registry reg -> is_Some (lookup_phys reg p) ->
  setattr (Reciprocal p p reg) h p v = Ok h' -> _get h' p = VNone.
Proof.
  intros Hwf [pd Hp] Hset. pose proof (lookup_phys_name reg Hwf _ _ Hp) as Hn.
  assert (Hp' : lookup_phys (Reciprocal p p reg) p = Some (with_reciprocal pd p)).
  { rewrite lookup_phys_Reciprocal, Hp. by rewrite decide_True. }
  rewrite (setattr_phys _ _ _ _ _ Hp') in Hset. unfold PhysicalProperty.fset in Hset.
  destruct (PhysicalProperty.validate v); simpl in Hset; [| discriminate].
  injection Hset as <-. rewrite PhysicalProperty.clear_mappings_get, decide_True; [done |].
  unfold PhysicalProperty.clear_targets, PhysicalProperty.reciprocal. simpl. rewrite Hp'.
  simpl. rewrite Hn. destruct (PhysicalProperty.mapping _ _); set_solver.
Qed.

Lemma reciprocal_links_witness :
  Reciprocal "sigma" "rho"
    (class_of (build_class [DeclInvertible "Electrical conductivity" "sigma" "sigmaMap" "sigmaDeriv";
                  DeclInvertible "Electrical resistivity" "rho" "rhoMap" "rhoDeriv"])) = conductivity_class /\
  wf_registry conductivity_class /\
  reciprocal_of conductivity_class "sigma" = Some "rho" /\ reciprocal_of conductivity_class "rho" = Some "sigma".
Proof.
  assert (E : Reciprocal "sigma" "rho"
    (class_of (build_class [DeclInvertible "Electrical conductivity" "sigma" "sigmaMap" "sigmaDeriv";
                  DeclInvertible "Electrical resistivity" "rho" "rhoMap" "rhoDeriv"])) = conductivity_class)
    by (vm_compute; reflexivity).
  split; [exact E |]. rewrite <- E.
  exact (reciprocal_links (class_of (build_class [DeclInvertible "Electrical conductivity" "sigma" "sigmaMap" "sigmaDeriv";
                  DeclInvertible "Electrical resistivity" "rho" "rhoMap" "rhoDeriv"]))
           "sigma" "rho" ltac:(decide_true) ltac:(done)
           ltac:(vm_compute; eauto) ltac:(vm_compute; eauto)
           ltac:(vm_compute; reflexivity) ltac:(vm_compute; reflexivity)).
Defined.

Lemma relink_breaks_symmetry_witness :
  let reg := register_triple conductivity_class
               (Invertible "Hydraulic conductivity" "kappa" "kappaMap" "kappaDeriv") in
  reciprocal_of (Reciprocal "sigma" "kappa" reg) "sigma" = Some "kappa" /\
  reciprocal_of (Reciprocal "sigma" "kappa" reg) "rho" = Some "sigma" /\
  ~ wf_registry (Reciprocal "sigma" "kappa" reg).
Proof.
  exact (relink_breaks_symmetry (register_triple conductivity_class
               (Invertible "Hydraulic conductivity" "kappa" "kappaMap" "kappaDeriv"))
           "sigma" "rho" "kappa" ltac:(decide_true)
           ltac:(vm_compute; reflexivity) ltac:(done) ltac:(done)
           ltac:(vm_compute; eauto)).
Defined.

Lemma self_reciprocal_write_lost_witness :
  exists h', setattr (Reciprocal "sigma" "sigma" conductivity_class) scenario_fresh "sigma"
               (VArray [1; 2; 4]%Q) = Ok h' /\ _get h' "sigma" = VNone.
Proof.
  eexists. split; [vm_compute; reflexivity |].
  exact (self_reciprocal_write_lost conductivity_class "sigma" scenario_fresh _ (VArray [1; 2; 4]%Q)
           ltac:(decide_true) ltac:(vm_compute; eauto) ltac:(vm_compute; reflexivity)).
Defined.
