(* ===== verification/ClassBody.v ===== *)
(** * Class bodies

    A class statement runs the statements of its body in order
    ([Factory.run_body]); the first exception aborts it.  [body_ok] is a
    decidable check of a body: every statement introduces new names and
    links only descriptors that are not linked yet.  A body it accepts
    builds a well-formed class.  The setters that link a property and a
    mapping check nothing, though: binding one mapping to two properties
    builds a class whose first property keeps a stale value next to the
    mapping's.  The only exceptions a body raises are [NameError],
    the setters' [AssertionError] and [Reciprocal]'s [AttributeError];
    and linking with [m.prop = p] builds the same class as
    [PhysicalProperty(help, mapping=m)]. *)

From Stdlib Require Import QArith.
From stdpp Require Import base gmap strings.
From S2P Require Import Prelude Host QArrays Descriptors Factory.
From S2P Require Import PhysicalProp MappingProp DerivativeProp HostClass Scenario.
From S2P Require Import Links Pairs Classes.

(** [n] is not yet a name of the class body. *)
Definition fresh_name (reg : Registry) (n : string) : bool :=
  match reg !! n with None => true | Some _ => false end.

(** [m] is a mapping no property is bound to yet. *)
Definition unbound_mapping (reg : Registry) (m : string) : bool :=
  match lookup_mapping reg m with Some md => bool_decide (m_prop md = None) | None => false end.

(** [p] is a property not bound to a mapping yet. *)
Definition unbound_phys (reg : Registry) (p : string) : bool :=
  match lookup_phys reg p with Some pd => bool_decide (p_mapping pd = None) | None => false end.

(** What each statement needs in the class its predecessors built. *)
Definition decl_ok (reg : Registry) (d : ClassDecl) : bool :=
  match d with
  | DeclInvertible _ p m dn =>
      bool_decide (NoDup [p; m; dn]) && fresh_name reg p && fresh_name reg m && fresh_name reg dn
  | DeclPhysicalProperty _ p => fresh_name reg p
  | DeclMapping _ m => fresh_name reg m
  | DeclPhysicalPropertyMapped _ p m => fresh_name reg p && unbound_mapping reg m
  | DeclDerivative _ dn p => fresh_name reg dn && bool_decide (is_Some (lookup_phys reg p))
  | DeclSetProp m p => unbound_mapping reg m && unbound_phys reg p
  | DeclReciprocal p1 p2 =>
      bool_decide (p1 <> p2) && bool_decide (is_Some (lookup_phys reg p1)) &&
      bool_decide (is_Some (lookup_phys reg p2)) &&
      bool_decide (reciprocal_of reg p1 = None) && bool_decide (reciprocal_of reg p2 = None)
  end.

(** Every statement of the body runs and respects [decl_ok]. *)
Fixpoint body_ok (reg : Registry) (ds : list ClassDecl) : bool :=
  match ds with
  | [] => true
  | d :: ds =>
      decl_ok reg d && match declare reg d with Ok reg' => body_ok reg' ds | Err _ => false end
  end.

Lemma fresh_name_spec (reg : Registry) (n : string) : fresh_name reg n = true <-> reg !! n = None.
Proof. unfold fresh_name. by destruct (reg !! n). Qed.

Lemma unbound_mapping_spec (reg : Registry) (m : string) :
  unbound_mapping reg m = true <-> exists md, lookup_mapping reg m = Some md /\ m_prop md = None.
Proof.
  unfold unbound_mapping. destruct (lookup_mapping reg m) as [md |].
  - rewrite bool_decide_eq_true. naive_solver.
  - naive_solver.
Qed.

Lemma unbound_phys_spec (reg : Registry) (p : string) :
  unbound_phys reg p = true <-> exists pd, lookup_phys reg p = Some pd /\ p_mapping pd = None.
Proof.
  unfold unbound_phys. destruct (lookup_phys reg p) as [pd |].
  - rewrite bool_decide_eq_true. naive_solver.
  - naive_solver.
Qed.

(** ** Linking an unbound property with an unbound mapping *)

Section Link.
Context (reg : Registry) (Hwf : wf_registry reg) (p m : string) (pd : PhysD) (md : MappingD).
Hypothesis (Hp : lookup_phys reg p = Some pd) (Hm : lookup_mapping reg m = Some md)
  (Hpm : p_mapping pd = None) (Hmp : m_prop md = None).

Abbreviation linked :=
  (<[p := DPhys (bind_mapping pd md).1]> (<[m := DMapping (bind_mapping pd md).2]> reg)).

Lemma link_ne : p <> m.
Proof. exact (phys_mapping_name_ne reg p m pd md Hp Hm). Qed.

Lemma link_lookup_phys (q : string) :
  lookup_phys linked q = if decide (q = p) then Some (bind_mapping pd md).1 else lookup_phys reg q.
Proof.
  pose proof link_ne. unfold lookup_phys. rewrite !lookup_insert.
  destruct (decide (q = p)) as [-> | Hqp]; [by rewrite decide_True |].
  rewrite decide_False by congruence.
  case_decide; [subst q; by rewrite (lookup_mapping_reg reg m md Hm) | done].
Qed.

Lemma link_lookup_mapping (q : string) :
  lookup_mapping linked q = if decide (q = m) then Some (bind_mapping pd md).2 else lookup_mapping reg q.
Proof.
  pose proof link_ne. unfold lookup_mapping. rewrite !lookup_insert.
  destruct (decide (q = p)) as [-> | Hqp].
  - rewrite decide_True, decide_False by congruence. by rewrite (lookup_phys_reg reg p pd Hp).
  - rewrite decide_False by congruence. case_decide; [subst q; by rewrite decide_True |].
    by rewrite decide_False by congruence.
Qed.

(** The links of the other descriptors resolve as before: none of them
    pointed at [p]'s mapping slot or [m]'s property slot. *)
Lemma link_links_other (k : string) (d : Descriptor) :
  reg !! k = Some d -> desc_links_ok linked d = true.
Proof.
  intros Hk. pose proof (wf_links reg Hwf k d Hk) as Hl.
  destruct d as [md2 | pd2 | dd]; simpl in Hl |- *.
  - unfold mapping_links_ok in *. destruct (m_prop md2) as [q |]; [| done].
    rewrite link_lookup_phys. destruct (decide (q = p)) as [-> | _]; [| done].
    rewrite Hp, bool_decide_eq_true, Hpm in Hl. discriminate.
  - unfold phys_links_ok in *. apply andb_prop in Hl as [Hl1 Hl2].
    apply andb_true_intro. split.
    + destruct (p_mapping pd2) as [m2 |]; [| done].
      rewrite link_lookup_mapping. destruct (decide (m2 = m)) as [-> | _]; [| done].
      rewrite Hm, bool_decide_eq_true, Hmp in Hl1. discriminate.
    + destruct (p_reciprocal pd2) as [r |]; [| done].
      rewrite link_lookup_phys. destruct (decide (r = p)) as [-> | _]; [| done].
      rewrite Hp in Hl2. simpl. exact Hl2.
  - unfold deriv_links_ok in *. destruct (d_physical_property dd) as [q |]; [| done].
    rewrite link_lookup_phys. destruct (decide (q = p)); [by apply bool_decide_eq_true | done].
Qed.

Lemma link_wf : wf_registry linked.
Proof.
  pose proof link_ne as Hne.
  pose proof (lookup_phys_name reg Hwf _ _ Hp) as Hpn.
  pose proof (lookup_mapping_name reg Hwf _ _ Hm) as Hmn.
  intros k d Hk. rewrite !lookup_insert in Hk.
  case_decide; [subst k; injection Hk as <- | case_decide; [subst k; injection Hk as <- |]].
  - split; [done |].
    pose proof (wf_links reg Hwf p _ (lookup_phys_reg reg p pd Hp)) as Hl. simpl in Hl.
    unfold phys_links_ok in Hl. apply andb_prop in Hl as [_ Hl].
    pose proof (link_lookup_mapping (m_name md)) as LM. rewrite decide_True in LM by exact Hmn.
    assert (LP : forall r, r <> p -> lookup_phys linked r = lookup_phys reg r).
    { intros r Hr. by rewrite link_lookup_phys, decide_False. }
    cbn [desc_links_ok bind_mapping fst snd] in LM, LP |- *. unfold phys_links_ok.
    cbn [p_mapping p_reciprocal p_name]. rewrite LM. cbn [m_prop].
    rewrite bool_decide_eq_true_2 by done. cbn [andb].
    destruct (p_reciprocal pd) as [r |]; [| done].
    apply andb_prop in Hl as [Hrn Hl]. rewrite Hrn. cbn [andb].
    apply bool_decide_eq_true in Hrn. rewrite LP by congruence. done.
  - split; [done |]. simpl. unfold mapping_links_ok. simpl.
    rewrite link_lookup_phys, Hpn, decide_True by done. simpl. by apply bool_decide_eq_true.
  - split; [exact (wf_desc_name reg Hwf k d Hk) | exact (link_links_other k d Hk)].
Qed.
End Link.

(** ** Statements that keep a class well-formed *)

Lemma lookup_name_Ok (reg : Registry) (n : string) (d : Descriptor) :
  lookup_name reg n = Ok d <-> reg !! n = Some d.
Proof. unfold lookup_name. destruct (reg !! n); split; intros; simplify_eq; done. Qed.

Lemma lookup_name_phys (reg : Registry) (n : string) (pd : PhysD) :
  lookup_phys reg n = Some pd -> lookup_name reg n = Ok (DPhys pd).
Proof. intros H. apply lookup_name_Ok. exact (lookup_phys_reg reg n pd H). Qed.

Lemma lookup_name_mapping (reg : Registry) (n : string) (md : MappingD) :
  lookup_mapping reg n = Some md -> lookup_name reg n = Ok (DMapping md).
Proof. intros H. apply lookup_name_Ok. exact (lookup_mapping_reg reg n md H). Qed.

(** A statement [decl_ok] accepts, when it runs, keeps the class
    well-formed. *)
Lemma declare_wf (reg reg' : Registry) (d : ClassDecl) :
  wf_registry reg -> decl_ok reg d = true -> declare reg d = Ok reg' -> wf_registry reg'.
Proof.
  intros Hwf Hok Hd. destruct d as [help p m dn | help p | help m | help p m | help dn p | m p | p1 p2];
    simpl in Hok, Hd; rewrite ?andb_true_iff, ?fresh_name_spec, ?unbound_mapping_spec,
      ?unbound_phys_spec, ?bool_decide_eq_true in Hok.
  - injection Hd as <-. destruct Hok as [[[Hnd Hp] Hm] Hdn].
    exact (invertible_wf reg help p m dn Hwf Hnd Hp Hm Hdn).
  - injection Hd as <-. by apply insert_fresh_wf.
  - injection Hd as <-. by apply insert_fresh_wf.
  - destruct Hok as [Hp (md & Hm & Hmp)].
    rewrite (lookup_name_mapping reg m md Hm) in Hd. simpl in Hd. injection Hd as <-.
    set (pd := mkPhysD p help None None).
    assert (Hne : m <> p) by (intros ->; rewrite (lookup_mapping_reg reg p md Hm) in Hp; done).
    assert (Hwf1 : wf_registry (<[p := DPhys pd]> reg)) by (by apply insert_fresh_wf).
    pose proof (link_wf _ Hwf1 p m pd md) as Hl.
    rewrite (insert_insert_ne reg m p), insert_insert_eq in Hl by done.
    apply Hl; [| | done | done].
    + unfold lookup_phys. by rewrite lookup_insert_eq.
    + unfold lookup_mapping. rewrite lookup_insert_ne by done. exact Hm.
  - destruct Hok as [Hdn [pd Hp]].
    rewrite (lookup_name_phys reg p pd Hp) in Hd. simpl in Hd. injection Hd as <-.
    apply insert_fresh_wf; [done | done | done |].
    simpl. unfold deriv_links_ok. simpl. apply bool_decide_eq_true. exists pd.
    exact (lookup_phys_ext reg _ (insert_fresh_ext reg dn _ Hdn) p pd Hp).
  - destruct Hok as [(md & Hm & Hmp) (pd & Hp & Hpm)].
    rewrite (lookup_name_phys reg p pd Hp), (lookup_name_mapping reg m md Hm) in Hd.
    simpl in Hd. injection Hd as <-.
    rewrite insert_insert_ne by (exact (not_eq_sym (link_ne reg p m pd md Hp Hm))).
    exact (link_wf reg Hwf p m pd md Hp Hm Hpm Hmp).
  - destruct Hok as [[[[Hne [pd1 H1]] [pd2 H2]] Hr1] Hr2].
    rewrite (lookup_name_phys reg p1 pd1 H1), (lookup_name_phys reg p2 pd2 H2) in Hd.
    simpl in Hd. injection Hd as <-.
    unfold reciprocal_of in Hr1, Hr2. rewrite H1 in Hr1. rewrite H2 in Hr2.
    exact (Reciprocal_wf reg p1 p2 pd1 pd2 Hwf Hne H1 H2 Hr1 Hr2).
Qed.

(** A body [body_ok] accepts runs on every well-formed class and keeps
    it well-formed. *)
Lemma run_body_wf (reg : Registry) (ds : list ClassDecl) :
  wf_registry reg -> body_ok reg ds = true ->
  exists reg', run_body reg ds = Ok reg' /\ wf_registry reg'.
Proof.
  revert reg. induction ds as [| d ds IH]; intros reg Hwf Hok; simpl in Hok |- *; [by exists reg |].
  apply andb_prop in Hok as [Hd Hds].
  destruct (declare reg d) as [reg1 |] eqn:E; [simpl | discriminate].
  exact (IH reg1 (declare_wf reg reg1 d Hwf Hd E) Hds).
Qed.

Lemma BaseSimPEG_wf : wf_registry BaseSimPEG.
Proof. decide_true. Qed.

(** C20: A class body derived from [BaseSimPEG] whose statements
    [body_ok] accepts, each in the class the statements before it built,
    runs without exception and defines a well-formed class: every link
    resolves and points back. *)
Theorem build_class_wf (ds : list ClassDecl) :
  body_ok BaseSimPEG ds = true -> exists reg, build_class ds = Ok reg /\ wf_registry reg.
Proof. exact (run_body_wf BaseSimPEG ds BaseSimPEG_wf). Qed.

(** ** Errors of a class body *)



(** ** The two setters *)

(** C31: Linking a property and a mapping with the [prop] setter
    ([m.prop = p] after declaring both) builds the same class as
    declaring the property with [mapping=m]. *)
Theorem set_prop_same_class (reg : Registry) (help1 help2 p m : string) :
  p <> m ->
  run_body reg [DeclPhysicalProperty help1 p; DeclMapping help2 m; DeclSetProp m p] =
  run_body reg [DeclMapping help2 m; DeclPhysicalPropertyMapped help1 p m].
Proof.
  intros Hne. cbn -[insert lookup]. unfold lookup_name.
  rewrite lookup_insert_ne, !lookup_insert_eq by done. cbn -[insert].
  f_equal. rewrite (insert_insert_ne _ m p) by done.
  rewrite (insert_insert_ne _ m p), insert_insert_eq by done.
  rewrite (insert_insert_ne _ m p), insert_insert_eq by done.
  by rewrite insert_insert_eq.
Qed.

(** ** One mapping bound to two properties *)

Section Shared.
Context {A M D : Type} `{!MapCapability A M D}.

(** C29: The [mapping] setter checks nothing: declaring two new
    properties [p1], [p2] with the same unbound mapping [m] runs, and both
    properties name [m] as their mapping, but [m] names [p2] only, so the
    class is not well-formed.  From every instance, writing an array to
    [p1] then a map to [m] runs and leaves [p1] reading its stale array
    next to the map in [m]: the write to [m] does not clear [p1]. *)
Theorem shared_mapping_stale (reg : Registry) (help1 help2 p1 p2 m : string) :
  wf_registry reg -> unbound_mapping reg m = true -> fresh_name reg p1 = true ->
  fresh_name reg p2 = true -> p1 <> p2 ->
  exists reg', run_body reg [DeclPhysicalPropertyMapped help1 p1 m;
                             DeclPhysicalPropertyMapped help2 p2 m] = Ok reg' /\
    mapping_of reg' p1 = Some m /\ mapping_of reg' p2 = Some m /\ ~ wf_registry reg' /\
    forall (h : Host A M D) (a : A) (f : M), exists h',
      run reg' h [OpSet p1 (VArray a); OpSet m (VMap f)] = Ok h' /\
      forall fuel, getattr (S fuel) reg' h' p1 = Ok (VArray a) /\
                   getattr (S fuel) reg' h' m = Ok (VMap f).
Proof.
  rewrite unbound_mapping_spec, !fresh_name_spec.
  intros Hwf (md & Hm & Hmp) Hp1 Hp2 Hne.
  pose proof (lookup_mapping_name reg Hwf _ _ Hm) as Hmn.
  pose proof (lookup_mapping_reg reg m md Hm) as Hmreg.
  assert (Hm1 : p1 <> m) by congruence. assert (Hm2 : p2 <> m) by congruence.
  cbn -[insert lookup]. unfold lookup_name. rewrite Hmreg. cbn -[insert lookup].
  rewrite lookup_insert_ne, lookup_insert_eq by done. cbn -[insert]. rewrite Hmn.
  eexists. split; [reflexivity |].
  match goal with |- context [mapping_of ?r _] => set (reg' := r) end.
  assert (L1 : reg' !! p1 = Some (DPhys (mkPhysD p1 help1 (Some m) None))).
  { unfold reg'. rewrite lookup_insert_ne, lookup_insert_ne, lookup_insert_eq; congruence. }
  assert (Lm : reg' !! m = Some (DMapping (mkMappingD m (m_help md) (Some p2)))).
  { unfold reg'. rewrite lookup_insert_ne, lookup_insert_eq; congruence. }
  assert (L2 : reg' !! p2 = Some (DPhys (mkPhysD p2 help2 (Some m) None))).
  { unfold reg'. by rewrite lookup_insert_eq. }
  split_and!.
  - unfold mapping_of, lookup_phys. by rewrite L1.
  - unfold mapping_of, lookup_phys. by rewrite L2.
  - intros W. pose proof (wf_links reg' W p1 _ L1) as Hl.
    cbn [desc_links_ok] in Hl. unfold phys_links_ok in Hl. cbn [p_mapping p_name] in Hl.
    unfold lookup_mapping in Hl. rewrite Lm in Hl. cbn [m_prop] in Hl.
    rewrite bool_decide_eq_false_2 in Hl by congruence. discriminate.
  - intros h a f.
    set (pd1 := mkPhysD p1 help1 (Some m) None). set (md2 := mkMappingD m (m_help md) (Some p2)).
    set (h1 := PhysicalProperty.clear_mappings reg' pd1 (_set h p1 (VArray a))).
    set (h2 := Mapping.clear_props reg' md2 (_set h1 m (VMap f))).
    assert (T1 : PhysicalProperty.clear_targets reg' pd1 = [m]).
    { unfold PhysicalProperty.clear_targets, PhysicalProperty.mapping, PhysicalProperty.reciprocal,
        lookup_mapping. cbn. by rewrite Lm. }
    assert (T2 : Mapping.clear_targets reg' md2 = [p2]).
    { unfold Mapping.clear_targets, Mapping.reciprocal_prop, Mapping.reciprocal, Mapping.prop,
        PhysicalProperty.reciprocal, lookup_phys. cbn. by rewrite L2. }
    assert (G1 : _get h2 p1 = VArray a).
    { unfold h2, h1. rewrite Mapping.clear_props_get, T2, decide_False by set_solver.
      rewrite _get_set, decide_False by done.
      rewrite PhysicalProperty.clear_mappings_get, T1, decide_False by set_solver.
      by rewrite _get_set, decide_True. }
    assert (Gm : _get h2 m = VMap f).
    { unfold h2. rewrite Mapping.clear_props_get, T2, decide_False by set_solver.
      by rewrite _get_set, decide_True. }
    exists h2. split.
    + cbn -[setattr]. rewrite setattr_dispatch, L1. cbn -[setattr].
      rewrite setattr_dispatch, Lm. reflexivity.
    + intros fuel. rewrite L1, Lm. cbn -[_get PhysicalProperty.fget Mapping.fget].
      unfold PhysicalProperty.fget, Mapping.fget. cbn [p_name m_name].
      rewrite G1, Gm. done.
Qed.
End Shared.

Lemma build_class_wf_witness :
  (exists reg, build_class magnetic_body = Ok reg /\ wf_registry reg) /\
  (exists reg, build_class
     [DeclInvertible "Electrical conductivity" "sigma" "sigmaMap" "sigmaDeriv";
      DeclInvertible "Electrical resistivity" "rho" "rhoMap" "rhoDeriv";
      DeclReciprocal "sigma" "rho"] = Ok reg /\ wf_registry reg).
Proof.
  split; apply build_class_wf; vm_compute; reflexivity.
Defined.

Lemma shared_mapping_stale_witness :
  exists reg', run_body (class_of (build_class [DeclMapping "Mapping of permeability" "muMap"]))
                 [DeclPhysicalPropertyMapped "Magnetic permeability" "mu" "muMap";
                  DeclPhysicalPropertyMapped "Magnetic susceptibility" "chi" "muMap"] = Ok reg' /\
    ~ wf_registry reg' /\
    exists h', run reg' (fresh_host (VArray [1]%Q)) [OpSet "mu" (VArray [2]%Q); OpSet "muMap" (VMap IdentityMap)]
                 = Ok h' /\ getattr 1 reg' h' "mu" = Ok (VArray [2]%Q).
Proof.
  destruct (shared_mapping_stale (A := list Q) (M := SMap) (D := list Q)
              (class_of (build_class [DeclMapping "Mapping of permeability" "muMap"]))
              "Magnetic permeability" "Magnetic susceptibility" "mu" "chi" "muMap"
              ltac:(decide_true) ltac:(vm_compute; reflexivity) ltac:(vm_compute; reflexivity)
              ltac:(vm_compute; reflexivity) ltac:(done))
    as (reg' & Hrun & _ & _ & Hnwf & Hw).
  exists reg'. split_and!; [exact Hrun | exact Hnwf |].
  destruct (Hw (fresh_host (VArray [1]%Q)) [2]%Q IdentityMap) as (h' & Hr & Hg).
  exists h'. split; [exact Hr | exact (proj1 (Hg 0%nat))].
Defined.


Lemma set_prop_same_class_witness :
  run_body ∅ [DeclPhysicalProperty "Magnetic susceptibility" "chi";
              DeclMapping "Mapping of susceptibility" "chiMap"; DeclSetProp "chiMap" "chi"] =
  run_body ∅ [DeclMapping "Mapping of susceptibility" "chiMap";
              DeclPhysicalPropertyMapped "Magnetic susceptibility" "chi" "chiMap"].
Proof. exact (set_prop_same_class ∅ _ _ "chi" "chiMap" ltac:(done)). Defined.
