(* ===== verification/Refinement.v ===== *)
(** * One reciprocal pair as an abstract state machine

    The specification describes a pair of invertible reciprocal
    properties [(p, m)] and [(r, rm)] by its one source of truth: nothing,
    an array stored in [p], an array stored in [r], a map stored in [m],
    or a map stored in [rm].  [PairState] is that description, [aread]
    what each of the four attributes reads as in each state, and
    [awrite] the state a write leaves.  [alpha] abstracts the four slots
    of an instance; the theorems show that on every reachable instance
    the reads [getattr] computes are the abstract reads of [alpha], and
    that every run of writes moves [alpha] as [astep] says. *)

From stdpp Require Import base gmap strings.
From S2P Require Import Prelude Host Descriptors Factory PhysicalProp MappingProp HostClass.
From Stdlib Require Import QArith.
From S2P Require Import Links Invariants Pairs Resolution Derivatives QArrays Scenario.

(** The four attributes of a pair: the property, its mapping, the
    reciprocal property, and the reciprocal's mapping. *)
Inductive Member : Type := MP | MM | MR | MRM.

#[export] Instance Member_eq_dec : EqDecision Member.
Proof. solve_decision. Defined.

Section Abstract.
Context {A M D : Type} `{!MapCapability A M D}.

Inductive PairState : Type :=
| NoSource
| Direct (a : A)
| Inverse (b : A)
| Mapped (f : M)
| InverseMapped (g : M).

(** What the specification promises each attribute reads as, with the
    model [x]: the stored value, its reciprocal, the map applied to the
    model ([f * model]), and [None * model] when there is no source. *)
Definition aread (s : PairState) (q : Member) (x : Value A M D) : result PyError (Value A M D) :=
  match s, q with
  | NoSource, (MP | MR) => Err TypeError
  | NoSource, _ => Ok VNone
  | Direct a, MP => Ok (VArray a)
  | Direct a, MR => Ok (VArray (recip a))
  | Inverse b, MP => Ok (VArray (recip b))
  | Inverse b, MR => Ok (VArray b)
  | (Direct _ | Inverse _), _ => Ok VNone
  | Mapped f, MP => map_mul f x
  | Mapped f, MM => Ok (VMap f)
  | Mapped f, MR => map_mul (map_compose reciprocal_map f) x
  | Mapped f, MRM => Ok (VMap (map_compose reciprocal_map f))
  | InverseMapped g, MP => map_mul (map_compose reciprocal_map g) x
  | InverseMapped g, MM => Ok (VMap (map_compose reciprocal_map g))
  | InverseMapped g, MR => map_mul g x
  | InverseMapped g, MRM => Ok (VMap g)
  end.

(** The state a successful write of [v] to a member leaves: the written
    value is the one source, and [None] leaves no source. *)
Definition awrite (q : Member) (v : Value A M D) : PairState :=
  match q, v with
  | MP, VArray a => Direct a
  | MR, VArray b => Inverse b
  | MM, VMap f => Mapped f
  | MRM, VMap g => InverseMapped g
  | _, _ => NoSource
  end.

Definition member_name (p m r rm : string) (q : Member) : string :=
  match q with MP => p | MM => m | MR => r | MRM => rm end.

Definition member_of (p m r rm n : string) : option Member :=
  if decide (n = p) then Some MP else if decide (n = m) then Some MM
  else if decide (n = r) then Some MR else if decide (n = rm) then Some MRM else None.

(** One operation of a run: a write to a member moves the state, any
    other write and a new model leave it. *)
Definition astep (p m r rm : string) (s : PairState) (o : Op) : PairState :=
  match o with
  | OpSet n v => match member_of p m r rm n with Some q => awrite q v | None => s end
  | OpModel _ => s
  end.

(** The abstraction of an instance: the member that holds a value. *)
Definition alpha (p m r rm : string) (h : Host A M D) : PairState :=
  match _get h p, _get h r, _get h m, _get h rm with
  | VArray a, _, _, _ => Direct a
  | _, VArray b, _, _ => Inverse b
  | _, _, VMap f, _ => Mapped f
  | _, _, _, VMap g => InverseMapped g
  | _, _, _, _ => NoSource
  end.
(** The value the mapping attribute of [p] ([MP]) or of [r] ([MR])
    reads in a state: the map that drives the pair, seen from that side. *)
Definition amap (s : PairState) (q : Member) : Value A M D :=
  match s, q with
  | Mapped f, MR | InverseMapped f, MP => VMap (map_compose reciprocal_map f)
  | Mapped f, _ | InverseMapped f, _ => VMap f
  | _, _ => VNone
  end.

(** What the derivative of [p] or [r] reads: [Utils.Zero()] unless a map
    drives the pair, and then the derivative of its mapping's value at
    the model. *)
Definition aderiv (s : PairState) (q : Member) (x : Value A M D) : result PyError (Value A M D) :=
  match amap s q with
  | VNone => Ok VZero
  | mv => py_deriv mv x
  end.

(** The slots [(p, m, r, rm)] of an instance in a state: the source
    holds its value and the three others hold [None]. *)
Definition slots_of (s : PairState) : Value A M D * Value A M D * Value A M D * Value A M D :=
  match s with
  | NoSource => (VNone, VNone, VNone, VNone)
  | Direct a => (VArray a, VNone, VNone, VNone)
  | Inverse b => (VNone, VNone, VArray b, VNone)
  | Mapped f => (VNone, VMap f, VNone, VNone)
  | InverseMapped g => (VNone, VNone, VNone, VMap g)
  end.
End Abstract.

Arguments NoSource {A M}.

(** ** Reads of a pair, slot by slot *)

Section Slots.
Context {A M D : Type} `{!MapCapability A M D}.
Context (reg : Registry) (Hwf : wf_registry reg) (p m r rm : string).
Hypothesis (Hm : mapping_of reg p = Some m) (Hr : reciprocal_of reg p = Some r)
  (Hrm : mapping_of reg r = Some rm).

(** The mapping [m] reads its own slot, then falls back on [rm]. *)
Lemma read_mapping_slots (h : Host A M D) (fuel : nat) :
  getattr (S fuel) reg h m =
    if negb (is_none (_get h m)) then Ok (_get h m)
    else if is_none (_get h rm) then Ok VNone else map_mul reciprocal_map (_get h rm).
Proof.
  destruct (pair_descriptors reg Hwf p m r rm Hm Hr Hrm)
    as (pd & md & rd & rmd & _ & Hml & _ & _ & _ & Hpr & Hrmap & _ & Hmp & _ & _ & Hmn & _ & Hrmn).
  rewrite (getattr_mapping fuel reg h m md Hml). unfold Mapping.fget.
  rewrite (mapping_reciprocal_of_rm reg md rmd rd pd Hmp Hpr Hrmap). by rewrite Hmn, Hrmn.
Qed.

(** The getter of [p] reads its own slot, then the reciprocal's slot,
    then, through the [getattr] it is given, the mapping [m]. *)
Lemma phys_fget_slots (pd : PhysD) (g : string -> result PyError (Value A M D)) (h : Host A M D) :
  lookup_phys reg p = Some pd ->
  PhysicalProperty.fget g reg pd h =
    if negb (is_none (_get h p)) then Ok (_get h p)
    else if negb (is_none (_get h r)) then py_rdiv (_get h r)
    else (mv <- g m ;; py_mul mv (model h)).
Proof.
  intros Hp0. destruct (pair_descriptors reg Hwf p m r rm Hm Hr Hrm)
    as (pd' & md & rd & rmd & Hp & _ & _ & _ & Hpm & Hpr & _ & _ & _ & _ & Hpn & Hmn & Hrn & _).
  rewrite Hp0 in Hp. injection Hp as <-. unfold PhysicalProperty.fget.
  rewrite Hpr, Hpm, Hpn, Hrn, Hmn. cbv zeta.
  destruct (is_none (_get h p)), (is_none (_get h r)); reflexivity.
Qed.

(** The property [p] reads its own slot, then the reciprocal's slot,
    then its mapping applied to the model. *)
Lemma read_phys_slots (h : Host A M D) (fuel : nat) :
  getattr (S (S fuel)) reg h p =
    if negb (is_none (_get h p)) then Ok (_get h p)
    else if negb (is_none (_get h r)) then py_rdiv (_get h r)
    else (mv <- getattr (S fuel) reg h m ;; py_mul mv (model h)).
Proof.
  destruct (pair_descriptors reg Hwf p m r rm Hm Hr Hrm) as (pd & _ & _ & _ & Hp & _).
  rewrite (getattr_phys _ reg h p pd Hp). exact (phys_fget_slots pd _ h Hp).
Qed.
End Slots.

(** ** The abstraction on typed, exclusive instances *)

Section Abstraction.
Context {A M D : Type} `{!MapCapability A M D}.
Context (reg : Registry) (Hwf : wf_registry reg) (p m r rm : string).
Hypothesis (Hm : mapping_of reg p = Some m) (Hr : reciprocal_of reg p = Some r)
  (Hrm : mapping_of reg r = Some rm).

(** Exclusivity inside the pair, member by member. *)
Lemma pair_exclusive (h : Host A M D) (k1 k2 : string) :
  exclusive reg h -> k1 ∈ [p; m; r; rm] -> k2 ∈ [p; m; r; rm] -> k1 <> k2 ->
  live h k1 -> ~ live h k2.
Proof.
  intros Hx H1 H2 Hne L1. apply (Hx k1 k2); [| done].
  apply (pair_targets reg Hwf p m r rm k1 k2 Hm Hr Hrm H1). done.
Qed.

(** What a typed instance holds in the slot of a property and of a
    mapping. *)
Lemma typed_phys (h : Host A M D) (n : string) (pd : PhysD) :
  typed reg h -> lookup_phys reg n = Some pd -> _get h n = VNone \/ exists a, _get h n = VArray a.
Proof.
  intros Ht Hn. pose proof (Ht n _ (lookup_phys_reg reg n _ Hn)) as T. destruct (_get h n); try discriminate; eauto.
Qed.

Lemma typed_mapping (h : Host A M D) (n : string) (md : MappingD) :
  typed reg h -> lookup_mapping reg n = Some md -> _get h n = VNone \/ exists f, _get h n = VMap f.
Proof.
  intros Ht Hn. pose proof (Ht n _ (lookup_mapping_reg reg n _ Hn)) as T. destruct (_get h n); try discriminate; eauto.
Qed.

(** The concretization: a typed, exclusive instance holds in the four
    slots of the pair exactly [slots_of (alpha h)]. *)
Lemma pair_slots (h : Host A M D) :
  typed reg h -> exclusive reg h ->
  (_get h p, _get h m, _get h r, _get h rm) = slots_of (alpha p m r rm h).
Proof.
  intros Ht Hx.
  destruct (pair_descriptors reg Hwf p m r rm Hm Hr Hrm)
    as (pd & md & rd & rmd & Hp & Hml & Hrl & Hrml & _).
  pose proof (pair_ne reg Hwf p m r rm Hm Hr Hrm) as (? & ? & ? & ? & ? & ?).
  unfold alpha.
  destruct (typed_phys h p pd Ht Hp) as [Ep | [a Ep]]; destruct (typed_mapping h m md Ht Hml) as [Em | [f Em]];
    destruct (typed_phys h r rd Ht Hrl) as [Er | [b Er]]; destruct (typed_mapping h rm rmd Ht Hrml) as [Erm | [g Erm]];
    rewrite ?Ep, ?Em, ?Er, ?Erm; try reflexivity; exfalso;
    match goal with
    | H1 : _get h ?k1 = ?v1, H2 : _get h ?k2 = ?v2 |- _ =>
        assert (k1 <> k2) by congruence;
        apply (pair_exclusive h k1 k2 Hx); [set_solver | set_solver | done
          | unfold live; by rewrite H1 | unfold live; by rewrite H2]
    end.
Qed.

(** The reads of [r] and [rm] are those of [p] and [m] for the pair seen
    from [r]. *)
Lemma read_slots_sym (h : Host A M D) (fuel : nat) :
  getattr (S fuel) reg h rm =
    (if negb (is_none (_get h rm)) then Ok (_get h rm)
     else if is_none (_get h m) then Ok VNone else map_mul reciprocal_map (_get h m)) /\
  getattr (S (S fuel)) reg h r =
    (if negb (is_none (_get h r)) then Ok (_get h r)
     else if negb (is_none (_get h p)) then py_rdiv (_get h p)
     else (mv <- getattr (S fuel) reg h rm ;; py_mul mv (model h))).
Proof.
  pose proof (reciprocal_of_sym reg Hwf p r Hr) as Hr'.
  split; [exact (read_mapping_slots reg Hwf r rm p m Hrm Hr' Hm h fuel)
         | exact (read_phys_slots reg Hwf r rm p m Hrm Hr' Hm h fuel)].
Qed.

(** The reads of the pair depend on its four slots and the model only:
    an instance whose slots are those of a state reads as that state. *)
Lemma reads_of_slots (h : Host A M D) (s : PairState) (fuel : nat) (q : Member) :
  (_get h p, _get h m, _get h r, _get h rm) = slots_of s ->
  getattr (S (S fuel)) reg h (member_name p m r rm q) = aread s q (model h).
Proof.
  intros Hs.
  destruct (read_slots_sym h fuel) as [Rrm Rr]. destruct (read_slots_sym h (S fuel)) as [Rrm' _].
  pose proof (read_mapping_slots reg Hwf p m r rm Hm Hr Hrm h fuel) as Rm.
  pose proof (read_mapping_slots reg Hwf p m r rm Hm Hr Hrm h (S fuel)) as Rm'.
  pose proof (read_phys_slots reg Hwf p m r rm Hm Hr Hrm h fuel) as Rp.
  destruct s; simpl in Hs; injection Hs as Ep Em Er Erm;
    destruct q; cbn [member_name aread]; rewrite ?Rp, ?Rr, ?Rm', ?Rrm';
    rewrite ?Rm, ?Rrm, ?Ep, ?Em, ?Er, ?Erm; reflexivity.
Qed.

(** The same for the derivatives of [p] ([MP]) and [r] ([MR]). *)
Lemma deriv_of_slots (h : Host A M D) (s : PairState) (fuel : nat) (d : string) (q : Member) :
  (_get h p, _get h m, _get h r, _get h rm) = slots_of s ->
  (q = MP /\ derivative_of reg d = Some p \/ q = MR /\ derivative_of reg d = Some r) ->
  getattr (S (S (S fuel))) reg h d = aderiv s q (model h).
Proof.
  intros Hs Hd.
  destruct Hd as [[-> Hd] | [-> Hd]];
    [rewrite (pair_derivative_mapping reg Hwf d p m h (S fuel) Hd Hm),
       (reads_of_slots h s fuel MM Hs : getattr _ reg h m = _)
    |rewrite (pair_derivative_mapping reg Hwf d r rm h (S fuel) Hd Hrm),
       (reads_of_slots h s fuel MRM Hs : getattr _ reg h rm = _)];
    unfold aderiv, amap; by destruct s.
Qed.

(** The abstraction of an instance whose slots are those of a state is
    that state. *)
Lemma alpha_of_slots (h : Host A M D) (s : PairState) :
  (_get h p, _get h m, _get h r, _get h rm) = slots_of s -> alpha p m r rm h = s.
Proof.
  intros Hs. unfold alpha.
  destruct s; simpl in Hs; injection Hs as E1 E2 E3 E4;
    rewrite E1; try rewrite E3; try rewrite E2; try rewrite E4; reflexivity.
Qed.

(** Every read of a member of the pair on a typed, exclusive instance
    is the abstract read of its abstraction. *)
Lemma pair_reads (h : Host A M D) (fuel : nat) (q : Member) :
  typed reg h -> exclusive reg h ->
  getattr (S (S fuel)) reg h (member_name p m r rm q) = aread (alpha p m r rm h) q (model h).
Proof. intros Ht Hx. exact (reads_of_slots h _ fuel q (pair_slots h Ht Hx)). Qed.

(** ** Writes *)

(** A write outside the pair does not touch its slots. *)
Lemma setattr_outside (h h' : Host A M D) (n k : string) (v : Value A M D) :
  setattr reg h n v = Ok h' -> n ∉ [p; m; r; rm] -> k ∈ [p; m; r; rm] -> _get h' k = _get h k.
Proof.
  intros Hset Hn Hk. destruct (setattr_spec reg h h' n v Hwf Hset) as (_ & _ & Hget).
  rewrite Hget, decide_False, decide_False; [done | set_solver |].
  intros Ht%(targets_sym reg Hwf). apply Hn.
  apply (pair_targets reg Hwf p m r rm k n Hm Hr Hrm Hk) in Ht. tauto.
Qed.

Lemma member_of_name (n : string) (q : Member) :
  member_of p m r rm n = Some q -> n = member_name p m r rm q.
Proof. unfold member_of. repeat case_decide; intros; simplify_eq; done. Qed.

Lemma member_of_none (n : string) : member_of p m r rm n = None -> n ∉ [p; m; r; rm].
Proof. unfold member_of. repeat case_decide; intros; simplify_eq; set_solver. Qed.

(** The descriptor of each member, as [setattr] dispatches on it. *)
Lemma member_desc (q : Member) :
  exists d, reg !! member_name p m r rm q = Some d /\
    match q with MP | MR => exists pd, d = DPhys pd | MM | MRM => exists md, d = DMapping md end.
Proof.
  destruct (pair_descriptors reg Hwf p m r rm Hm Hr Hrm)
    as (pd & md & rd & rmd & Hp & Hml & Hrl & Hrml & _).
  destruct q; simpl; eexists;
    (split; [first [eapply lookup_phys_reg; eassumption | eapply lookup_mapping_reg; eassumption]
            | eauto]).
Qed.

(** A successful write to a member leaves the slots of the state
    [awrite] gives, whatever the slots held before. *)
Lemma setattr_member_slots (h h' : Host A M D) (q : Member) (v : Value A M D) :
  setattr reg h (member_name p m r rm q) v = Ok h' ->
  (_get h' p, _get h' m, _get h' r, _get h' rm) = slots_of (awrite q v).
Proof.
  intros Hset.
  destruct (setattr_spec reg h h' _ v Hwf Hset) as ([d [Hd Hv]] & _ & _).
  destruct (member_desc q) as (d' & Hd' & Hk). rewrite Hd in Hd'. injection Hd' as <-.
  pose proof (fun k => setattr_group_get reg Hwf p m r rm Hm Hr Hrm h h' _ v k Hset) as G.
  pose proof (pair_ne reg Hwf p m r rm Hm Hr Hrm) as (? & ? & ? & ? & ? & ?).
  rewrite !G by (destruct q; set_solver).
  destruct q; destruct Hk as [? ->]; simpl;
    repeat (case_decide; try congruence); destruct v; try discriminate Hv; reflexivity.
Qed.

(** One write moves the abstraction as [astep] says. *)
Lemma setattr_alpha (h h' : Host A M D) (n : string) (v : Value A M D) :
  setattr reg h n v = Ok h' -> alpha p m r rm h' = astep p m r rm (alpha p m r rm h) (OpSet n v).
Proof.
  intros Hset. unfold astep. destruct (member_of p m r rm n) as [q |] eqn:Eq.
  - apply member_of_name in Eq as ->. exact (alpha_of_slots h' _ (setattr_member_slots h h' q v Hset)).
  - apply member_of_none in Eq. unfold alpha.
    by rewrite !(setattr_outside h h' n _ v Hset Eq) by set_solver.
Qed.

(** A run of operations moves the abstraction as the abstract machine
    runs them. *)
Lemma run_alpha (ops : list Op) (h h' : Host A M D) :
  run reg h ops = Ok h' -> alpha p m r rm h' = foldl (astep p m r rm) (alpha p m r rm h) ops.
Proof.
  revert h. induction ops as [| [n v | v] ops IH]; intros h Hrun; simpl in Hrun |- *.
  - by injection Hrun as <-.
  - destruct (setattr reg h n v) as [h1 |] eqn:Hset; simpl in Hrun; [| discriminate].
    rewrite (IH h1 Hrun). f_equal. exact (setattr_alpha h h1 n v Hset).
  - rewrite (IH _ Hrun). f_equal.
Qed.
End Abstraction.

(** ** The refinement *)

Section Refines.
Context {A M D : Type} `{!MapCapability A M D}.

(** An instance a run leaves from a fresh one is typed and exclusive,
    and its abstraction is the abstract run from [NoSource]. *)
Lemma run_fresh (reg : Registry) (p m r rm : string) (x : Value A M D) (ops : list Op)
    (h' : Host A M D) :
  wf_registry reg -> mapping_of reg p = Some m -> reciprocal_of reg p = Some r ->
  mapping_of reg r = Some rm -> run reg (fresh_host x) ops = Ok h' ->
  typed reg h' /\ exclusive reg h' /\ alpha p m r rm h' = foldl (astep p m r rm) NoSource ops.
Proof.
  intros Hwf Hm Hr Hrm Hrun.
  pose proof (reachable_run reg _ ops h' (reachable_fresh reg x) Hrun) as Hreach.
  destruct (reachable_inv reg h' Hwf Hreach) as [Ht Hx]. split_and!; [done | done |].
  rewrite (run_alpha reg Hwf p m r rm Hm Hr Hrm ops _ _ Hrun).
  f_equal; unfold alpha; by rewrite !_get_fresh.
Qed.

(** C1: For a reciprocal pair [(p, m)], [(r, rm)] of a well-formed class,
    after any program of writes and model changes that runs without
    error from a fresh instance, the pair's abstraction is the state the
    abstract machine reaches on the same program from [NoSource], and
    every read of [p], [m], [r] or [rm] returns what the abstract
    machine says it reads in that state. *)
Theorem pair_refinement (reg : Registry) (p m r rm : string) (x : Value A M D) (ops : list Op)
    (h' : Host A M D) :
  wf_registry reg -> mapping_of reg p = Some m -> reciprocal_of reg p = Some r ->
  mapping_of reg r = Some rm -> run reg (fresh_host x) ops = Ok h' ->
  alpha p m r rm h' = foldl (astep p m r rm) NoSource ops /\
  forall fuel q, getattr (S (S fuel)) reg h' (member_name p m r rm q) =
                 aread (foldl (astep p m r rm) NoSource ops) q (model h').
Proof.
  intros Hwf Hm Hr Hrm Hrun.
  destruct (run_fresh reg p m r rm x ops h' Hwf Hm Hr Hrm Hrun) as (Ht & Hx & Ha).
  split; [exact Ha |]. intros fuel q. rewrite <- Ha.
  exact (pair_reads reg Hwf p m r rm Hm Hr Hrm h' fuel q Ht Hx).
Qed.

(** C25: In the same setting, the derivative of [p] and the derivative
    of [r] read as the abstract machine says: [Utils.Zero()] unless a map
    drives the pair, and otherwise the derivative at the model of the
    map their own mapping reads, which for the side whose mapping was
    not written is [ReciprocalMap()] composed with the written map. *)
Theorem pair_derivative_refinement (reg : Registry) (p m r rm : string) (x : Value A M D)
    (ops : list Op) (h' : Host A M D) (d : string) (q : Member) (fuel : nat) :
  wf_registry reg -> mapping_of reg p = Some m -> reciprocal_of reg p = Some r ->
  mapping_of reg r = Some rm -> run reg (fresh_host x) ops = Ok h' ->
  (q = MP /\ derivative_of reg d = Some p \/ q = MR /\ derivative_of reg d = Some r) ->
  getattr (S (S (S fuel))) reg h' d = aderiv (foldl (astep p m r rm) NoSource ops) q (model h').
Proof.
  intros Hwf Hm Hr Hrm Hrun Hd.
  destruct (run_fresh reg p m r rm x ops h' Hwf Hm Hr Hrm Hrun) as (Ht & Hx & Ha). rewrite <- Ha.
  exact (deriv_of_slots reg Hwf p m r rm Hm Hr Hrm h' _ fuel d q
           (pair_slots reg Hwf p m r rm Hm Hr Hrm h' Ht Hx) Hd).
Qed.
End Refines.

(** A program on the conductivity class: set [sigmaMap], change the
    model, then set [rho]; [sigma] then reads [1 / rho]. *)
Definition refinement_program : list (Op (A := list Q) (M := SMap) (D := list Q)) :=
  [OpSet "sigmaMap" (VMap IdentityMap); OpModel (VArray [1; 2]%Q); OpSet "rho" (VArray [2; 4]%Q)].

Lemma pair_refinement_witness :
  alpha "sigma" "sigmaMap" "rho" "rhoMap"
    (match run conductivity_class (fresh_host (VArray [1; 2; 4]%Q)) refinement_program with
     | Ok h => h | Err _ => fresh_host VNone end) = Inverse [2; 4]%Q /\
  getattr 2 conductivity_class
    (match run conductivity_class (fresh_host (VArray [1; 2; 4]%Q)) refinement_program with
     | Ok h => h | Err _ => fresh_host VNone end) "sigma" = Ok (VArray [1 # 2; 1 # 4]%Q).
Proof.
  destruct (pair_refinement conductivity_class "sigma" "sigmaMap" "rho" "rhoMap"
              (VArray [1; 2; 4]%Q) refinement_program
              (match run conductivity_class (fresh_host (VArray [1; 2; 4]%Q)) refinement_program with
               | Ok h => h | Err _ => fresh_host VNone end)
              ltac:(decide_true) ltac:(vm_compute; reflexivity) ltac:(vm_compute; reflexivity)
              ltac:(vm_compute; reflexivity) ltac:(vm_compute; reflexivity)) as [Ha Hread].
  split; [rewrite Ha; vm_compute; reflexivity |].
  exact (eq_trans (Hread 0%nat MP) ltac:(vm_compute; reflexivity)).
Defined.

Lemma pair_derivative_refinement_witness :
  getattr 3 conductivity_class
    (match run conductivity_class (fresh_host (VArray [1; 2; 4]%Q)) [OpSet "sigmaMap" (VMap (ScaleMap 2))] with
     | Ok h => h | Err _ => fresh_host VNone end) "rhoDeriv" =
  Ok (VDeriv (smap_deriv (ComboMap ReciprocalMap (ScaleMap 2)) [1; 2; 4]%Q)).
Proof.
  exact (eq_trans
    (pair_derivative_refinement conductivity_class "sigma" "sigmaMap" "rho" "rhoMap"
       (VArray [1; 2; 4]%Q) [OpSet "sigmaMap" (VMap (ScaleMap 2))]
       (match run conductivity_class (fresh_host (VArray [1; 2; 4]%Q))
                [OpSet "sigmaMap" (VMap (ScaleMap 2))] with
        | Ok h => h | Err _ => fresh_host VNone end) "rhoDeriv" MR 0%nat
       ltac:(decide_true) ltac:(vm_compute; reflexivity) ltac:(vm_compute; reflexivity)
       ltac:(vm_compute; reflexivity) ltac:(vm_compute; reflexivity)
       (or_intror (conj eq_refl
          (eq_refl : derivative_of conductivity_class "rhoDeriv" = Some "rho"))))
    ltac:(vm_compute; reflexivity)).
Defined.
