(* ===== verification/Roundtrip.v ===== *)
(** * Round trips between writes and reads

    Put then get: in a well-formed class, writing a valid value other
    than [None] to a property or mapping attribute succeeds, and the
    attribute then reads as that value, whatever the instance held.

    Get then put is not a no-op: reading an invertible property whose
    value comes from its mapping and writing the value read back keeps
    the read, but detaches the property from the inversion model: its
    mapping then reads [None] and its derivative [Utils.Zero()]. *)

From Stdlib Require Import QArith.
From stdpp Require Import base gmap strings.
From S2P Require Import Prelude Host QArrays Descriptors Factory.
From S2P Require Import PhysicalProp MappingProp DerivativeProp HostClass Scenario.
From S2P Require Import Links Invariants Pairs Resolution Derivatives Refinement.

Section Roundtrip.
Context {A M D : Type} `{!MapCapability A M D}.
Abbreviation Value := (Value A M D).
Abbreviation Host := (Host A M D).

(** A write of a value the validator accepts succeeds. *)
Lemma setattr_valid (reg : Registry) (h : Host) (n : string) (d : Descriptor) (v : Value) :
  reg !! n = Some d -> slot_ok d v = true -> is_none v = false ->
  exists h', setattr reg h n v = Ok h'.
Proof.
  intros Hd Hv Hn. rewrite setattr_dispatch, Hd.
  unfold Mapping.fset, PhysicalProperty.fset.
  destruct d, v; try discriminate; simpl; eauto.
Qed.

(** After a successful write, the slot written holds the value: the
    clearing routines clear only the other members of the group. *)
Lemma setattr_own (reg : Registry) (h h' : Host) (n : string) (v : Value) :
  wf_registry reg -> setattr reg h n v = Ok h' -> _get h' n = v.
Proof.
  intros Hwf Hset. destruct (setattr_spec reg h h' n v Hwf Hset) as (_ & _ & G).
  rewrite G, decide_False; [by rewrite decide_True |].
  intros Hin. apply (targets_group reg Hwf) in Hin. tauto.
Qed.

(** A property or mapping attribute whose slot holds a value reads as
    it, at any depth. *)
Lemma getattr_own (reg : Registry) (h : Host) (n : string) (d : Descriptor) (fuel : nat) :
  wf_registry reg -> reg !! n = Some d -> (forall dd, d <> DDeriv dd) ->
  is_none (_get h n) = false -> getattr (S fuel) reg h n = Ok (_get h n).
Proof.
  intros Hwf Hd Hnd Hn. pose proof (wf_desc_name reg Hwf n d Hd) as Hname.
  rewrite getattr_S, Hd.
  destruct d as [md | pd | dd]; simpl in Hname; subst n; [| | by destruct (Hnd dd)].
  - unfold Mapping.fget. by rewrite Hn.
  - unfold PhysicalProperty.fget. by rewrite Hn.
Qed.

(** C26: In a well-formed class, writing to a property or mapping
    attribute a value its validator accepts, other than [None],
    succeeds from every instance, and the attribute then reads as the
    value written. *)
Theorem setattr_getattr_roundtrip (reg : Registry) (h : Host) (n : string) (d : Descriptor)
    (v : Value) :
  wf_registry reg -> reg !! n = Some d -> slot_ok d v = true -> is_none v = false ->
  exists h', setattr reg h n v = Ok h' /\ forall fuel, getattr (S fuel) reg h' n = Ok v.
Proof.
  intros Hwf Hd Hv Hn. destruct (setattr_valid reg h n d v Hd Hv Hn) as [h' Hset].
  exists h'. split; [done |]. intros fuel.
  rewrite <- (setattr_own reg h h' n v Hwf Hset).
  apply (getattr_own reg h' n d fuel Hwf Hd); [| by rewrite (setattr_own reg h h' n v Hwf Hset)].
  intros dd ->. by destruct v.
Qed.

Section GetPut.
Context (reg : Registry) (Hwf : wf_registry reg) (p m r rm : string).
Hypothesis (Hm : mapping_of reg p = Some m) (Hr : reciprocal_of reg p = Some r)
  (Hrm : mapping_of reg r = Some rm).

(** C27: When the mapping [m] of [p] holds a map [f] and the model is an
    array [x], the derivative of [p] reads [f.deriv(x)] and [p] reads
    some [v]; writing [v] back to [p] succeeds and [p] still reads [v],
    but [m] then reads [None] and the derivative of [p] [Utils.Zero()]. *)
Theorem write_back_detaches (h h1 : Host) (f : M) (x : A) (d : string) (v : Value) (fuel : nat) :
  derivative_of reg d = Some p -> setattr reg h m (VMap f) = Ok h1 -> model h = VArray x ->
  getattr (S (S fuel)) reg h1 p = Ok v ->
  getattr (S (S (S fuel))) reg h1 d = Ok (VDeriv (map_deriv f x)) /\
  exists h2, setattr reg h1 p v = Ok h2 /\
    getattr (S (S fuel)) reg h2 p = Ok v /\ getattr (S (S fuel)) reg h2 m = Ok VNone /\
    getattr (S (S (S fuel))) reg h2 d = Ok VZero.
Proof.
  intros Hd Hset Hx Hv.
  pose proof (setattr_member_slots reg Hwf p m r rm Hm Hr Hrm h h1 MM _ Hset) as S1.
  destruct (setattr_spec reg h h1 m _ Hwf Hset) as (_ & Hmodel1 & _).
  rewrite (reads_of_slots reg Hwf p m r rm Hm Hr Hrm h1 _ fuel MP S1 : getattr _ reg h1 p = _)
    in Hv.
  cbn in Hv. rewrite Hmodel1, Hx in Hv. injection Hv as <-.
  split.
  { rewrite (deriv_of_slots reg Hwf p m r rm Hm Hr Hrm h1 _ fuel d MP S1 (or_introl (conj eq_refl Hd))).
    by rewrite Hmodel1, Hx. }
  destruct (pair_descriptors reg Hwf p m r rm Hm Hr Hrm) as (pd & _ & _ & _ & Hp & _).
  pose proof (lookup_phys_reg reg p pd Hp) as Hpd.
  destruct (setattr_valid reg h1 p _ (VArray (map_apply f x)) Hpd eq_refl eq_refl) as [h2 Hset2].
  pose proof (setattr_member_slots reg Hwf p m r rm Hm Hr Hrm h1 h2 MP _ Hset2) as S2.
  exists h2. split_and!; [done | | |].
  - exact (reads_of_slots reg Hwf p m r rm Hm Hr Hrm h2 _ fuel MP S2).
  - exact (reads_of_slots reg Hwf p m r rm Hm Hr Hrm h2 _ fuel MM S2).
  - exact (deriv_of_slots reg Hwf p m r rm Hm Hr Hrm h2 _ fuel d MP S2 (or_introl (conj eq_refl Hd))).
Qed.
End GetPut.
End Roundtrip.

Lemma setattr_getattr_roundtrip_witness :
  exists h', setattr conductivity_class scenario_sigma "rhoMap" (VMap (ScaleMap 3)) = Ok h' /\
    getattr 1 conductivity_class h' "rhoMap" = Ok (VMap (ScaleMap 3)).
Proof.
  destruct (setattr_getattr_roundtrip conductivity_class scenario_sigma "rhoMap"
              (DMapping (mkMappingD "rhoMap" "Mapping of Electrical resistivity to the inversion model."
                           (Some "rho")))
              (VMap (ScaleMap 3)) ltac:(decide_true) ltac:(vm_compute; reflexivity)
              eq_refl eq_refl) as [h' [Hset Hget]].
  exists h'. split; [exact Hset | exact (Hget 0%nat)].
Defined.

Lemma write_back_detaches_witness :
  getattr 3 conductivity_class scenario_sigmaMap "sigmaDeriv" = Ok (VDeriv [1; 1; 1]%Q) /\
  exists h2, setattr conductivity_class scenario_sigmaMap "sigma" (VArray [1; 2; 4]%Q) = Ok h2 /\
    getattr 2 conductivity_class h2 "sigma" = Ok (VArray [1; 2; 4]%Q) /\
    getattr 2 conductivity_class h2 "sigmaMap" = Ok VNone /\
    getattr 3 conductivity_class h2 "sigmaDeriv" = Ok VZero.
Proof.
  exact (write_back_detaches conductivity_class ltac:(decide_true) "sigma" "sigmaMap" "rho" "rhoMap"
           ltac:(vm_compute; reflexivity) ltac:(vm_compute; reflexivity)
           ltac:(vm_compute; reflexivity) scenario_fresh scenario_sigmaMap IdentityMap [1; 2; 4]%Q
           "sigmaDeriv" (VArray [1; 2; 4]%Q) 0%nat
           ltac:(vm_compute; reflexivity) ltac:(vm_compute; reflexivity) eq_refl
           ltac:(vm_compute; reflexivity)).
Defined.
