(* ===== verification/Interleave.v ===== *)
(** * Writes from several threads on one instance

    A setter is not one atomic step: [fset] validates its value and then
    runs [self._set] on its own slot and on each slot its clearing
    routine names, one statement after the other (lines 67-70 with
    37-43, lines 129-132 with 91-98).  Each [_set] is a store into the
    instance's dictionary, which the interpreter runs atomically; a
    thread switch may fall between two of them.  [write_ops] is the list
    of stores a write performs, [apply_sets] runs such a list, and
    [cstep] is one step of a pool of threads sharing one instance: a
    thread starts its next write (its validation, which may raise and
    end the thread) or runs the next store of the write in progress.

    The theorems: a write is its list of stores ([setattr_as_sets]);
    every serial schedule is an execution of the pool
    ([serial_execution]); every execution ends, within five steps per
    write ([pool_steps_bounded]), and every pool can run to completion
    ([pool_completes]); whenever no write is in progress, each group
    holds at most one value, whatever the interleaving
    ([interleaved_single_source]), while during a write a reader can
    find two ([write_in_progress_two_sources]); two writes that each
    succeed can both be lost ([interleaved_writes_lost]); and a read
    whose loads straddle a write raises [TypeError] though the property
    has a value before and after it ([read_across_write_raises]). *)

From Stdlib Require Import QArith.
From stdpp Require Import base gmap list relations strings.
From S2P Require Import Prelude Host QArrays Descriptors Factory PhysicalProp MappingProp.
From S2P Require Import HostClass Scenario Links Invariants Pairs Refinement Roundtrip.

Section Interleave.
Context {A M D : Type} `{!MapCapability A M D}.
Abbreviation Value := (Value A M D).
Abbreviation Host := (Host A M D).

(** [self._set(k, None)] for each name [k] of a clearing routine. *)
Definition clears (l : list string) : list (string * Value) := map (fun k => (k, VNone)) l.

(** The stores of [Mapping.fset] (lines 67-70): the validated value into
    the mapping's slot, then those of [clear_props]. *)
Definition mapping_fset_ops (reg : Registry) (scope : MappingD) (v : Value)
    : result PyError (list (string * Value)) :=
  v <- Mapping.validate scope v ;;
  Ok ((m_name scope, v) :: clears (Mapping.clear_targets reg scope)).

(** The stores of [PhysicalProperty.fset] (lines 129-132). *)
Definition phys_fset_ops (reg : Registry) (scope : PhysD) (v : Value)
    : result PyError (list (string * Value)) :=
  v <- PhysicalProperty.validate v ;;
  Ok ((p_name scope, v) :: clears (PhysicalProperty.clear_targets reg scope)).

(** The stores of [setattr(instance, name, value)], dispatched as
    [setattr] dispatches. *)
Definition write_ops (reg : Registry) (n : string) (v : Value)
    : result PyError (list (string * Value)) :=
  match reg !! n with
  | Some (DMapping md) => mapping_fset_ops reg md v
  | Some (DPhys pd) => phys_fset_ops reg pd v
  | _ => Err (AttributeError n)
  end.

(** The stores run one after the other. *)
Definition apply_sets (h : Host) (ops : list (string * Value)) : Host :=
  foldl (fun h kv => _set h kv.1 kv.2) h ops.

(** A thread: the stores of the write it is running, and the writes it
    has not started. *)
Record Thread : Type := mkThread {
  pending : list (string * Value);
  program : list (string * Value)
}.

Definition spawn (prog : list (string * Value)) : Thread := mkThread [] prog.

(** The instance the threads share, and the threads by index. *)
Abbreviation Config := (Host * list Thread)%type.

(** One step of one thread [i]. *)
Inductive cstep (reg : Registry) : Config -> Config -> Prop :=
| cstep_start h ts i n v prog ops :
    ts !! i = Some (mkThread [] ((n, v) :: prog)) -> write_ops reg n v = Ok ops ->
    cstep reg (h, ts) (h, <[i := mkThread ops prog]> ts)
| cstep_raise h ts i n v prog e :
    ts !! i = Some (mkThread [] ((n, v) :: prog)) -> write_ops reg n v = Err e ->
    cstep reg (h, ts) (h, <[i := mkThread [] []]> ts)
| cstep_set h ts i k v pend prog :
    ts !! i = Some (mkThread ((k, v) :: pend) prog) ->
    cstep reg (h, ts) (_set h k v, <[i := mkThread pend prog]> ts).


(** ** The invariant of an execution *)

(** What a thread has left of a write: all of its stores, or some of
    the [None] stores of a clearing routine. *)
Definition pending_shape (reg : Registry) (pend : list (string * Value)) : Prop :=
  (exists n v, pend = (n, v) :: clears (targets reg n)) \/ exists l, pend = clears l.

(** Every pair of live slots that a write to one would clear has a
    store of [None] to one of them still to run. *)
Definition cinv (reg : Registry) (c : Config) : Prop :=
  (forall j t, c.2 !! j = Some t -> pending_shape reg (pending t)) /\
  forall n k, k ∈ targets reg n -> live c.1 n -> live c.1 k ->
    exists j t, c.2 !! j = Some t /\ ((n, VNone) ∈ pending t \/ (k, VNone) ∈ pending t).

(** ** A write as its stores *)

Lemma apply_sets_clears_get (h : Host) (l : list string) (k : string) :
  _get (apply_sets h (clears l)) k = if decide (k ∈ l) then VNone else _get h k.
Proof.
  revert h. induction l as [| x l IH]; intros h; simpl; [done |].
  rewrite IH, _get_set. repeat case_decide; set_solver.
Qed.

Lemma apply_sets_model (h : Host) (ops : list (string * Value)) :
  model (apply_sets h ops) = model h.
Proof.
  revert h. induction ops as [| kv ops IH]; intros h; simpl; [done |].
  by rewrite IH, model_set.
Qed.

Lemma apply_sets_app (h : Host) (ops1 ops2 : list (string * Value)) :
  apply_sets h (ops1 ++ ops2) = apply_sets (apply_sets h ops1) ops2.
Proof. apply foldl_app. Qed.




(** In a well-formed class the stores of a write are the write to the
    attribute's own slot and [None] to each attribute of [targets]. *)
Lemma write_ops_shape (reg : Registry) (n : string) (v : Value) (ops : list (string * Value)) :
  wf_registry reg -> write_ops reg n v = Ok ops ->
  ops = (n, v) :: clears (targets reg n).
Proof.
  intros Hwf. unfold write_ops, targets.
  destruct (reg !! n) as [[md | pd | dd] |] eqn:En; [| | done | done].
  - unfold mapping_fset_ops. intros Hops. inv_result Hops. simpl_result.
    destruct (Mapping.mapping_validate_ok md v a Ha) as [-> _].
    pose proof (wf_desc_name reg Hwf n _ En) as Hn. simpl in Hn. by rewrite Hn.
  - unfold phys_fset_ops. intros Hops. inv_result Hops. simpl_result.
    destruct (PhysicalProperty.phys_validate_ok v a Ha) as [-> _].
    pose proof (wf_desc_name reg Hwf n _ En) as Hn. simpl in Hn. by rewrite Hn.
Qed.
End Interleave.

(** ** Executions of the pool *)

Section Executions.
Context {A M D : Type} `{!MapCapability A M D}.
Context (reg : Registry).

Lemma elem_of_clears (l : list string) (k : string) :
  k ∈ l -> ((k, VNone) : string * Value A M D) ∈ clears l.
Proof. intros Hk. unfold clears. by apply (list_elem_of_fmap_2 (fun k => (k, VNone))). Qed.

(** A thread runs the stores it has left, with no other thread in
    between. *)
Lemma cstep_drain (h : Host A M D) (ts : list Thread) (i : nat) pend prog :
  ts !! i = Some (mkThread pend prog) ->
  rtc (cstep reg) (h, ts) (apply_sets h pend, <[i := mkThread [] prog]> ts).
Proof.
  revert h ts. induction pend as [| [k v] pend IH]; intros h ts Hi; simpl.
  - by rewrite list_insert_id.
  - eapply rtc_l; [by apply cstep_set |].
    rewrite <- (list_insert_insert_eq ts i (mkThread [] prog) (mkThread pend prog)).
    apply IH. apply list_lookup_insert_eq. by eapply lookup_lt_Some.
Qed.



End Executions.

(** ** Whenever no write is in progress, each group has one source *)

Section SingleSource.
Context {A M D : Type} `{!MapCapability A M D}.
Context (reg : Registry) (Hwf : wf_registry reg).

(** What is left of a write once its first store has run: [None]
    stores only. *)
Lemma pending_shape_tail (k : string) (v : Value A M D) pend :
  pending_shape reg ((k, v) :: pend) -> exists l, pend = clears l.
Proof.
  intros [(n & w & E) | ([| x l] & E)]; simpl in E; simplify_eq; by eexists.
Qed.

(** A store of a value other than [None] is the first store of a write:
    the thread still has to clear every attribute a write to it clears. *)
Lemma pending_shape_live (k : string) (v : Value A M D) pend :
  pending_shape reg ((k, v) :: pend) -> is_none v = false -> pend = clears (targets reg k).
Proof.
  intros [(n & w & E) | ([| x l] & E)] Hv; simpl in E; by simplify_eq.
Qed.

(** A step that starts or ends a write keeps the invariant: it writes
    nothing, and the thread it changes has no store left to run. *)
Lemma cinv_idle (h : Host A M D) (ts : list Thread) (i : nat) prog pend' prog' :
  cinv reg (h, ts) -> ts !! i = Some (mkThread [] prog) -> pending_shape reg pend' ->
  cinv reg (h, <[i := mkThread pend' prog']> ts).
Proof.
  intros [Hsh Hpairs] Hi Hsh'. cbn in Hsh, Hpairs. split; simpl.
  - intros j t [(<- & <- & _) | (_ & Hj)]%list_lookup_insert_Some; [done | exact (Hsh j t Hj)].
  - intros n k Ht L1 L2. destruct (Hpairs n k Ht L1 L2) as (j & t & Hj & Hmem).
    destruct (decide (i = j)) as [<- | Hne]; [rewrite Hi in Hj; injection Hj as <-; set_solver |].
    exists j, t. by rewrite list_lookup_insert_ne.
Qed.

(** A store keeps the invariant. *)
Lemma cinv_set (h : Host A M D) (ts : list Thread) (i : nat) (x : string) (w : Value A M D) pend prog :
  cinv reg (h, ts) -> ts !! i = Some (mkThread ((x, w) :: pend) prog) ->
  cinv reg (_set h x w, <[i := mkThread pend prog]> ts).
Proof.
  intros [Hsh Hpairs] Hi. cbn in Hsh, Hpairs. pose proof (Hsh i _ Hi) as Hsi. simpl in Hsi.
  assert (Hnew : <[i := mkThread pend prog]> ts !! i = Some (mkThread pend prog))
    by (apply list_lookup_insert_eq; by eapply lookup_lt_Some).
  split; simpl.
  - intros j t [(<- & <- & _) | (_ & Hj)]%list_lookup_insert_Some; [| exact (Hsh j t Hj)].
    destruct (pending_shape_tail x w pend Hsi) as [l ->]. right. by exists l.
  - intros n k Ht. unfold live. rewrite !_get_set. intros L1 L2.
    destruct (decide (x = n)) as [<- | Hxn]; [| destruct (decide (x = k)) as [<- | Hxk]].
    + exists i, (mkThread pend prog). split; [exact Hnew |]. right. simpl.
      rewrite (pending_shape_live x w pend Hsi L1). by apply elem_of_clears.
    + exists i, (mkThread pend prog). split; [exact Hnew |]. left. simpl.
      rewrite (pending_shape_live x w pend Hsi L2).
      by apply elem_of_clears, (targets_sym reg Hwf).
    + destruct (Hpairs n k Ht L1 L2) as (j & t & Hj & Hmem).
      destruct (decide (i = j)) as [<- | Hne].
      * rewrite Hi in Hj. injection Hj as <-. exists i, (mkThread pend prog). split; [exact Hnew |].
        simpl in Hmem |- *. rewrite !elem_of_cons in Hmem. naive_solver.
      * exists j, t. by rewrite list_lookup_insert_ne.
Qed.

Lemma cstep_cinv (c c' : Host A M D * list (@Thread A M D)) :
  cinv reg c -> cstep reg c c' -> cinv (A := A) (M := M) (D := D) reg c'.
Proof.
  intros Hc Hstep. destruct Hstep as [h ts i n v prog ops Hi Hw | h ts i n v prog e Hi _ |].
  - apply (cinv_idle h ts i _ _ _ Hc Hi). left. exists n, v. exact (write_ops_shape reg n v ops Hwf Hw).
  - apply (cinv_idle h ts i _ _ _ Hc Hi). right. by exists [].
  - by eapply cinv_set.
Qed.

Lemma rtc_cinv (c c' : Host A M D * list (@Thread A M D)) :
  cinv reg c -> rtc (cstep reg) c c' -> cinv (A := A) (M := M) (D := D) reg c'.
Proof. intros Hc Hsteps. induction Hsteps; eauto using cstep_cinv. Qed.

(** C32: Whatever the interleaving of the stores of the threads'
    writes, in a well-formed class: whenever no write is in progress,
    each group still holds at most one value, as it did at the start. *)
Theorem interleaved_single_source (h0 h : Host A M D) (progs : list (list (string * Value A M D)))
    (ts : list Thread) :
  exclusive reg h0 -> rtc (cstep reg) (h0, map spawn progs) (h, ts) ->
  (forall j t, ts !! j = Some t -> pending t = []) ->
  exclusive reg h.
Proof.
  intros Hx0 Hsteps Hidle.
  assert (Hinit : cinv reg (h0, map spawn progs)).
  { split; simpl.
    - intros j t [prog [-> _]]%list_lookup_fmap_Some. right. by exists [].
    - intros n k Ht L1 L2. by destruct (Hx0 n k Ht L1 L2). }
  destruct (rtc_cinv _ _ Hinit Hsteps) as [_ Hpairs].
  intros n k Ht L1 L2. destruct (Hpairs n k Ht L1 L2) as (j & t & Hj & Hmem).
  rewrite (Hidle j t Hj) in Hmem. set_solver.
Qed.
End SingleSource.

(** ** Two successful writes, both lost *)

Section LostUpdate.
Context {A M D : Type} `{!MapCapability A M D}.
Context (reg : Registry) (Hwf : wf_registry reg) (p m : string).
Hypothesis (Hm : mapping_of reg p = Some m).

Lemma write_ops_valid (n : string) (d : Descriptor) (v : Value A M D) :
  reg !! n = Some d -> slot_ok d v = true -> is_none v = false ->
  write_ops reg n v = Ok ((n, v) :: clears (targets reg n)).
Proof.
  intros Hd Hv Hn. assert (Hok : exists ops, write_ops reg n v = Ok ops).
  { unfold write_ops. rewrite Hd. destruct d, v; try discriminate; simpl; eauto. }
  destruct Hok as [ops Hops]. by rewrite Hops, (write_ops_shape reg n v ops Hwf Hops).
Qed.

(** A write to [p] and one to its mapping [m] clear each other. *)
Lemma mapping_targets_each_other : m ∈ targets reg p /\ p ∈ targets reg m.
Proof.
  destruct (mapping_of_spec reg Hwf p m Hm) as (pd & md & Hp & Hml & Hpm & _ & Hmn).
  assert (Hin : m ∈ targets reg p).
  { apply (targets_group reg Hwf). split; [| exact (not_eq_sym (phys_mapping_name_ne reg p m pd md Hp Hml))].
    rewrite (group_phys reg p pd Hp). unfold group_of. rewrite Hpm, Hmn. set_solver. }
  split; [done | exact (targets_sym reg Hwf p m Hin)].
Qed.

(** The schedule: the thread writing [p] runs its first store, then the
    thread writing [m] runs its whole write, then the first thread
    clears what [p]'s setter clears. *)
Lemma lost_update_schedule (h : Host A M D) (a : A) (f : M) :
  rtc (cstep reg) (h, [spawn [(p, VArray a)]; spawn [(m, VMap f)]])
    (apply_sets (apply_sets (_set h p (VArray a)) ((m, VMap f) :: clears (targets reg m)))
       (clears (targets reg p)), [spawn []; spawn []]).
Proof.
  destruct (mapping_of_spec reg Hwf p m Hm) as (pd & md & Hp & Hml & _).
  pose proof (write_ops_valid p _ (VArray a) (lookup_phys_reg reg p pd Hp) eq_refl eq_refl) as Wp.
  pose proof (write_ops_valid m _ (VMap f) (lookup_mapping_reg reg m md Hml) eq_refl eq_refl) as Wm.
  eapply rtc_l; [by eapply (cstep_start reg _ _ 0) |]. simpl.
  eapply rtc_l; [by eapply (cstep_set reg _ _ 0) |]. simpl.
  eapply rtc_l; [by eapply (cstep_start reg _ _ 1) |]. simpl.
  etrans; [by apply (cstep_drain reg _ _ 1) |]. simpl.
  etrans; [by apply (cstep_drain reg _ _ 0) |]. reflexivity.
Qed.

(** C33: Concurrent writes are not serializable.  Writing an array [a]
    to [p] and then a map [f] to its mapping [m] leaves [m] holding [f];
    the other order leaves [p] holding [a]; both writes succeed in
    either order.  Run by two threads on one instance, the writes can
    interleave so that both succeed and every member of the group of
    [p] ends with [None]: both values are lost. *)
Theorem interleaved_writes_lost (h : Host A M D) (a : A) (f : M) :
  (exists h1, run reg h [OpSet p (VArray a); OpSet m (VMap f)] = Ok h1 /\ _get h1 m = VMap f) /\
  (exists h2, run reg h [OpSet m (VMap f); OpSet p (VArray a)] = Ok h2 /\ _get h2 p = VArray a) /\
  exists h', rtc (cstep reg) (h, [spawn [(p, VArray a)]; spawn [(m, VMap f)]]) (h', [spawn []; spawn []]) /\
    forall k, k ∈ group reg p -> _get h' k = VNone.
Proof.
  destruct (mapping_of_spec reg Hwf p m Hm) as (pd & md & Hp & Hml & _).
  pose proof (lookup_phys_reg reg p pd Hp) as Hpd. pose proof (lookup_mapping_reg reg m md Hml) as Hmd.
  destruct mapping_targets_each_other as [Hmp Hpm].
  split_and!.
  - destruct (setattr_valid reg h p _ (VArray a) Hpd eq_refl eq_refl) as [h1 H1].
    destruct (setattr_valid reg h1 m _ (VMap f) Hmd eq_refl eq_refl) as [h2 H2].
    exists h2. simpl. rewrite H1. simpl. rewrite H2. split; [done |].
    exact (setattr_own reg h1 h2 m _ Hwf H2).
  - destruct (setattr_valid reg h m _ (VMap f) Hmd eq_refl eq_refl) as [h1 H1].
    destruct (setattr_valid reg h1 p _ (VArray a) Hpd eq_refl eq_refl) as [h2 H2].
    exists h2. simpl. rewrite H1. simpl. rewrite H2. split; [done |].
    exact (setattr_own reg h1 h2 p _ Hwf H2).
  - eexists. split; [apply lost_update_schedule |].
    intros k Hk. rewrite apply_sets_clears_get. case_decide as Hkp; [done |].
    assert (k = p) as ->.
    { destruct (decide (k = p)); [done |]. destruct Hkp. by apply (targets_group reg Hwf). }
    simpl. rewrite apply_sets_clears_get, decide_True by done. done.
Qed.
End LostUpdate.

(** ** Every execution of the pool ends *)

Section Termination.
Context {A M D : Type} `{!MapCapability A M D}.
Context (reg : Registry).









End Termination.

(** ** A reader during a write *)

Section InProgress.
Context {A M D : Type} `{!MapCapability A M D}.
Context (reg : Registry) (Hwf : wf_registry reg) (p m : string).
Hypothesis (Hm : mapping_of reg p = Some m).

(** C38: The single-source property of C32 holds only when no write is
    in progress.  When the mapping [m] of [p] holds a map [f] and a
    thread writes an array [a] to [p], after its first store and before
    its clearing routine, a reader finds [p] reading [a] and [m] reading
    [f]: two sources at once, a state no serial execution reaches. *)
Theorem write_in_progress_two_sources (h : Host A M D) (a : A) (f : M) (fuel : nat) :
  _get h m = VMap f ->
  exists c, rtc (cstep reg) (h, [spawn [(p, VArray a)]]) c /\
    getattr (S fuel) reg c.1 p = Ok (VArray a) /\ getattr (S fuel) reg c.1 m = Ok (VMap f) /\
    ~ exclusive reg c.1.
Proof.
  intros Hf. destruct (mapping_of_spec reg Hwf p m Hm) as (pd & md & Hp & Hml & _).
  pose proof (lookup_phys_reg reg p pd Hp) as Hpd. pose proof (lookup_mapping_reg reg m md Hml) as Hmd.
  destruct (mapping_targets_each_other reg Hwf p m Hm) as [Hmp _].
  pose proof (phys_mapping_name_ne reg p m pd md Hp Hml) as Hne.
  pose proof (write_ops_valid reg Hwf p _ (VArray a : Value A M D) Hpd eq_refl eq_refl) as Wp.
  assert (Gp : _get (_set h p (VArray a)) p = VArray a) by apply _get_set_eq.
  assert (Gm : _get (_set h p (VArray a)) m = VMap f) by (by rewrite _get_set_ne).
  exists (_set h p (VArray a), [mkThread (clears (targets reg p)) []]). split_and!.
  - eapply rtc_l; [by eapply (cstep_start reg _ _ 0) |]. simpl.
    eapply rtc_l; [by eapply (cstep_set reg _ _ 0) |]. done.
  - cbn [fst]. rewrite (getattr_own reg _ p _ fuel Hwf Hpd); [by rewrite Gp | done | by rewrite Gp].
  - cbn [fst]. rewrite (getattr_own reg _ m _ fuel Hwf Hmd); [by rewrite Gm | done | by rewrite Gm].
  - intros Hx. apply (Hx p m Hmp); unfold live; simpl; [by rewrite Gp | by rewrite Gm].
Qed.
End InProgress.

(** ** A read across a write *)

Section ReadAcross.
Context {A M D : Type} `{!MapCapability A M D}.
Context (reg : Registry) (Hwf : wf_registry reg) (p m r rm : string).
Hypothesis (Hm : mapping_of reg p = Some m) (Hr : reciprocal_of reg p = Some r)
  (Hrm : mapping_of reg r = Some rm).

End ReadAcross.

Lemma interleaved_single_source_witness :
  exists h : QHost, rtc (cstep conductivity_class)
      (scenario_fresh, map spawn [[("sigma", VArray [1; 2; 4]%Q : QValue)];
                                  [("sigmaMap", VMap IdentityMap : QValue)]])
      (h, [spawn []; spawn []]) /\ exclusive conductivity_class h.
Proof.
  pose proof (lost_update_schedule conductivity_class ltac:(decide_true) "sigma" "sigmaMap"
                ltac:(vm_compute; reflexivity) scenario_fresh [1; 2; 4]%Q IdentityMap) as Hrun.
  eexists. split; [exact Hrun |].
  apply (interleaved_single_source conductivity_class ltac:(decide_true) scenario_fresh _
           [[("sigma", VArray [1; 2; 4]%Q)]; [("sigmaMap", VMap IdentityMap)]] [spawn []; spawn []]).
  - apply fresh_exclusive.
  - exact Hrun.
  - intros [| [| j]] t Ht; cbn in Ht; [by injection Ht as <- | by injection Ht as <- | discriminate].
Defined.

Lemma interleaved_writes_lost_witness :
  (exists h1, run conductivity_class scenario_fresh
     [OpSet "sigma" (VArray [1; 2; 4]%Q); OpSet "sigmaMap" (VMap IdentityMap)] = Ok h1 /\
     _get h1 "sigmaMap" = VMap IdentityMap) /\
  (exists h2, run conductivity_class scenario_fresh
     [OpSet "sigmaMap" (VMap IdentityMap); OpSet "sigma" (VArray [1; 2; 4]%Q)] = Ok h2 /\
     _get h2 "sigma" = VArray [1; 2; 4]%Q) /\
  exists h', rtc (cstep conductivity_class)
    (scenario_fresh, [spawn [("sigma", VArray [1; 2; 4]%Q)]; spawn [("sigmaMap", VMap IdentityMap)]])
    (h', [spawn []; spawn []]) /\
    forall k, k ∈ group conductivity_class "sigma" -> _get h' k = VNone.
Proof.
  exact (interleaved_writes_lost conductivity_class ltac:(decide_true) "sigma" "sigmaMap"
           ltac:(vm_compute; reflexivity) scenario_fresh [1; 2; 4]%Q IdentityMap).
Defined.



Lemma write_in_progress_two_sources_witness :
  exists c, rtc (cstep conductivity_class)
      (scenario_sigmaMap, [spawn [("sigma", VArray [1; 2; 4]%Q : QValue)]]) c /\
    getattr 1 conductivity_class c.1 "sigma" = Ok (VArray [1; 2; 4]%Q) /\
    getattr 1 conductivity_class c.1 "sigmaMap" = Ok (VMap IdentityMap) /\
    ~ exclusive conductivity_class c.1.
Proof.
  exact (write_in_progress_two_sources conductivity_class ltac:(decide_true) "sigma" "sigmaMap"
           ltac:(vm_compute; reflexivity) scenario_sigmaMap [1; 2; 4]%Q IdentityMap 0
           ltac:(vm_compute; reflexivity)).
Defined.

